(** * Inspiration discovery and validation pipeline

    A shallow embedding of [src/services/geminiService.ts]
    ([checkUrlAlive], [isLikelyImageUrl], [findWebInspiration] with its
    local [searchPexels] and [scoreFor]) and of [src/server/verify-server.js]
    ([doHeadCheck] and the request handler), followed by the properties of
    the specification that concern them.  The embedding also covers what
    surrounds them: [analyzeImageWithGemini] with [normalizeAttributes],
    [generateInspirationsWithGemini], the toast service, and the handlers
    [handleFindInspiration] and [handleError] of the application.

    Conventions of the embedding.
    - A JavaScript string is a [string]; case folding, trimming and regular
      expression classes are the ASCII ones.
    - An optional string that the source only ever reads through a
      truthiness test or through [||] is a [string] whose empty value stands
      for [undefined]/[null]/[""], which JavaScript treats alike there.
    - Scores are JavaScript numbers built from the increments 0.5, 0.6, 1,
      1.2, 1.5 and 2.  The pipeline counts them exactly, in tenths, as [Z];
      the module [Number] carries out the same additions on IEEE 754
      doubles, with the case folding of the platform left open.
    - Awaited calls are run in program order; every call to a collaborator
      and every network request is appended to a trace. *)

From Stdlib Require Import PrimFloat.
From Stdlib Require Import String Ascii List ZArith Lia Bool Arith Permutation DecimalString.
Import ListNotations.
Local Open Scope list_scope.
Local Open Scope string_scope.

(** Decimal literals stand for the nearest double, as in JavaScript. *)
Set Warnings "-inexact-float".

(** ** JavaScript string primitives *)

Module Js.

Definition truthy (s : string) : bool :=
  match s with EmptyString => false | String _ _ => true end.

(** [a || b] on strings. *)
Definition or_str (a b : string) : string := if truthy a then a else b.

(** [a || b] on values that are a non-empty string, [null] or [undefined]. *)
Definition or_opt (a b : option string) : option string :=
  match a with
  | Some s => if truthy s then a else b
  | None => b
  end.

(** [s || null]. *)
Definition or_null (s : string) : option string :=
  if truthy s then Some s else None.

(** [toLowerCase] on ASCII text, which is also the folding of the [/i]
    flag: the letters A to Z change and nothing else. *)
Definition toLowerChar (c : ascii) : ascii :=
  let n := nat_of_ascii c in
  if ((65 <=? n) && (n <=? 90))%nat then ascii_of_nat (n + 32) else c.

Fixpoint toLowerCase (s : string) : string :=
  match s with
  | EmptyString => EmptyString
  | String c r => String (toLowerChar c) (toLowerCase r)
  end.

(** [s.includes(p)]. *)
Fixpoint includes (s p : string) : bool :=
  prefix p s ||
  match s with
  | EmptyString => false
  | String _ r => includes r p
  end.

(** The rest of [s] after the prefix [p], when [s] starts with [p]. *)
Fixpoint after_prefix (p s : string) : option string :=
  match p, s with
  | EmptyString, _ => Some s
  | String a p', String b s' =>
      if Ascii.eqb a b then after_prefix p' s' else None
  | String _ _, EmptyString => None
  end.

(** White space of [trim] and of the class [\s] among the ASCII
    characters. *)
Definition isSpace (c : ascii) : bool :=
  let n := nat_of_ascii c in
  ((n =? 32) || ((9 <=? n) && (n <=? 13)))%nat.

Fixpoint trimStart (s : string) : string :=
  match s with
  | EmptyString => EmptyString
  | String c r => if isSpace c then trimStart r else s
  end.

Fixpoint trimEnd (s : string) : string :=
  match s with
  | EmptyString => EmptyString
  | String c r =>
      match trimEnd r with
      | EmptyString => if isSpace c then EmptyString else String c EmptyString
      | r' => String c r'
      end
  end.

Definition trim (s : string) : string := trimEnd (trimStart s).

(** [s.split(sep)] for a one-character separator: the current piece is
    accumulated in [cur]. *)
Fixpoint split_aux (sep : ascii) (s : string) (cur : string) : list string :=
  match s with
  | EmptyString => [cur]
  | String c r =>
      if Ascii.eqb c sep then cur :: split_aux sep r EmptyString
      else split_aux sep r (cur ++ String c EmptyString)
  end.

Definition split (sep : ascii) (s : string) : list string :=
  split_aux sep s EmptyString.

(** [l.join(sep)]. *)
Fixpoint join (sep : string) (l : list string) : string :=
  match l with
  | [] => EmptyString
  | [x] => x
  | x :: r => x ++ sep ++ join sep r
  end.

(** [l.includes(x)] on an array of strings. *)
Definition arr_includes (l : list string) (x : string) : bool :=
  existsb (String.eqb x) l.

(** [Array.from(new Set(l))]: first occurrences, in order. *)
Fixpoint uniq_aux (seen : list string) (l : list string) : list string :=
  match l with
  | [] => []
  | x :: r =>
      if arr_includes seen x then uniq_aux seen r
      else x :: uniq_aux (x :: seen) r
  end.

Definition uniq (l : list string) : list string := uniq_aux [] l.

(** [l.slice(0, e)]: a negative [e] counts from the end. *)
Definition slice0 {A : Type} (l : list A) (e : Z) : list A :=
  let len := Z.of_nat (List.length l) in
  let final := if (e <? 0)%Z then Z.max (len + e) 0 else Z.min e len in
  firstn (Z.to_nat final) l.

End Js.

(** ** Regular expressions of the source *)

Module Re.

(** [/404|notfound|error|page-not-found/i.test(s)]. *)
Definition deadKeywords : list string :=
  ["404"; "notfound"; "error"; "page-not-found"].

Definition test_dead (s : string) : bool :=
  existsb (Js.includes (Js.toLowerCase s)) deadKeywords.

(** [(\?|$)]: a question mark, or the end of the input. *)
Definition query_or_end (s : string) : bool :=
  match s with
  | EmptyString => true
  | String c _ => Ascii.eqb c "?"%char
  end.

(** A dot, one of the extensions, then [(\?|$)], starting here. *)
Definition ext_here (exts : list string) (s : string) : bool :=
  existsb
    (fun e =>
       match Js.after_prefix ("." ++ e) s with
       | Some r => query_or_end r
       | None => false
       end)
    exts.

Fixpoint ext_anywhere (exts : list string) (s : string) : bool :=
  ext_here exts s ||
  match s with
  | EmptyString => false
  | String _ r => ext_anywhere exts r
  end.

(** [/\.(jpe?g|png|webp|gif)(\?|$)/i.test(s)]. *)
Definition test_image_ext (s : string) : bool :=
  ext_anywhere ["jpg"; "jpeg"; "png"; "webp"; "gif"] (Js.toLowerCase s).

(** [/\.(jpe?g|png|webp)(\?|$)/i.test(s)]. *)
Definition test_image_ext_nogif (s : string) : bool :=
  ext_anywhere ["jpg"; "jpeg"; "png"; "webp"] (Js.toLowerCase s).

(** [/image\//i.test(s)]. *)
Definition test_image_type (s : string) : bool :=
  Js.includes (Js.toLowerCase s) "image/".

(** [/pdf/i.test(s)]. *)
Definition test_pdf (s : string) : bool :=
  Js.includes (Js.toLowerCase s) "pdf".

(** [/^https?:\/\//i.test(s)]. *)
Definition test_http_prefix (s : string) : bool :=
  prefix "http://" (Js.toLowerCase s) || prefix "https://" (Js.toLowerCase s).

End Re.

(** ** Traces and the result of an asynchronous function *)

Inductive Event : Type :=
| EvSynthesis                              (* first generateContent call *)
| EvPexels (requestUrl : string)           (* fetch of the Pexels search *)
| EvGroundedSearch                         (* generateContent with googleSearch *)
| EvFallbackSearch                         (* generateContent of the fallback *)
| EvCheckUrlAlive (url : string)           (* a call of checkUrlAlive *)
| EvProxyGet (requestUrl : string)         (* GET to the verify server *)
| EvHead (url : string).                   (* direct HEAD request *)

Definition isNetworkRequest (e : Event) : bool :=
  match e with
  | EvCheckUrlAlive _ => false
  | _ => true
  end.

Inductive Res (A : Type) : Type :=
| Ok (a : A)
| Throw (message : string).
Arguments Ok {A} a.
Arguments Throw {A} message.

(** What an awaited call settles to, where the [catch] that follows it
    tells the two kinds of rejection apart: a value, an [Error] carrying a
    message, or a thrown value that is not an [Error]. *)
Inductive Settled (A : Type) : Type :=
| Fulfilled (a : A)
| Rejected (message : string)
| RejectedOther.
Arguments Fulfilled {A} a.
Arguments Rejected {A} message.
Arguments RejectedOther {A}.

(** A computation: what it resolves to, and the trace it leaves. *)
Definition M (A : Type) : Type := (Res A * list Event)%type.

Definition ret {A} (a : A) : M A := (Ok a, []).
Definition throw {A} (msg : string) : M A := (Throw msg, []).
Definition emit (e : Event) : M unit := (Ok tt, [e]).

Definition bind {A B} (m : M A) (f : A -> M B) : M B :=
  match m with
  | (Ok a, t) => let (r, t') := f a in (r, (t ++ t')%list)
  | (Throw msg, t) => (Throw msg, t)
  end.

(** [try { m } catch (e) { h e.message }]. *)
Definition try_catch {A} (m : M A) (h : string -> M A) : M A :=
  match m with
  | (Ok a, t) => (Ok a, t)
  | (Throw msg, t) => let (r, t') := h msg in (r, (t ++ t')%list)
  end.

Declare Scope m_scope.
Delimit Scope m_scope with m.
Notation "x <- c ;; k" := (bind c (fun x => k))
  (at level 61, c at next level, right associativity) : m_scope.
Notation "c ;;; k" := (bind c (fun _ => k))
  (at level 61, right associativity) : m_scope.

(** [await Promise.all(l.map(f))], the callbacks run one after the other;
    [i] is the index of the first element. *)
Fixpoint mapM_from {A B} (f : nat -> A -> M B) (i : nat) (l : list A) : M (list B) :=
  match l with
  | [] => ret []
  | x :: r =>
      (y <- f i x ;;
       ys <- mapM_from f (S i) r ;;
       ret (y :: ys))%m
  end.

(** ** The platform and the network *)

(** Functions of the JavaScript platform and the configuration read from
    [process.env] and [localStorage] (empty when unset). *)
Record Platform : Type := {
  encodeURIComponent : string -> string;
  (** [new URL(u).hostname]; [None] when the constructor throws. *)
  hostname : string -> option string;
  VERIFY_SERVER_URL : string;
  APIFLASH_KEY : string;
  env_PEXELS_API_KEY : string;
  ls_PEXELS_API_KEY : string;
  ls_pexels_api_key : string
}.

(** What the GET to the verify server comes to. *)
Inductive ProxyOutcome : Type :=
| ProxyFetchFails                  (* fetch rejects, or is aborted by the timer *)
| ProxyNotOk                       (* a response with res.ok false *)
| ProxyBadJson                     (* res.json() rejects *)
| ProxyNoAlive                     (* null, or an object without alive *)
| ProxyAlive (alive : bool) (contentType : string).

(** What the direct HEAD request comes to. *)
Inductive HeadOutcome : Type :=
| HeadFetchFails                   (* CORS, network error or abort *)
| HeadResponse (ok : bool) (contentType : string).

Record Net : Type := {
  proxyFetch : string -> ProxyOutcome;
  headFetch : string -> HeadOutcome
}.

(** ** Liveness checker *)

Record CheckResult : Type := {
  alive : bool;
  contentType : option string
}.

(** Preferred source hosts for higher trust. *)
Definition preferredHosts : list string :=
  ["dezeen.com"; "archdaily.com"; "unsplash.com"; "pexels.com"; "architizer.com"].

Definition isLikelyImageUrl (u : string) : bool :=
  Js.truthy u && Re.test_image_ext u.

Definition checkUrlAlive (P : Platform) (net : Net) (url : string) : M CheckResult :=
  (emit (EvCheckUrlAlive url) ;;;
   if negb (Js.truthy url) then ret {| alive := false; contentType := None |}
   else if Re.test_dead url then ret {| alive := false; contentType := None |}
   else
     let verifyServer := Js.or_str (VERIFY_SERVER_URL P) "http://localhost:4001/verify" in
     let encoded := verifyServer ++ "?url=" ++ encodeURIComponent P url in
     emit (EvProxyGet encoded) ;;;
     match proxyFetch net encoded with
     | ProxyAlive a ct => ret {| alive := a; contentType := Js.or_null ct |}
     | _ =>
         emit (EvHead url) ;;;
         match headFetch net url with
         | HeadResponse ok ct => ret {| alive := ok; contentType := Js.or_null ct |}
         | HeadFetchFails => ret {| alive := isLikelyImageUrl url; contentType := None |}
         end
     end)%m.

(** ** Data model *)

Record WebInspiration : Type := {
  uri : string;
  title : string;
  source : string;
  previewUrl : string;
  (** absent on stock-photo results *)
  matchReason : option string
}.

(** A candidate carrying the internal [_score] of the fallback path. *)
Record Scored : Type := {
  s_item : WebInspiration;
  s_score : Z
}.

(** A validated candidate: the item with [_score], [_alive], [_contentType]. *)
Record Validated : Type := {
  v_item : WebInspiration;
  v_score : Z;
  v_alive : bool;
  v_contentType : option string
}.

(** One record of the [photos] array of the stock-photo reply. *)
Record PexelsPhoto : Type := {
  p_url : string;
  p_photographer_url : string;
  p_alt : string;
  p_photographer : string;
  p_src_large : string;
  p_src_medium : string;
  p_src_original : string
}.

Inductive PexelsOutcome : Type :=
| PexFetchFails                     (* fetch or res.json() rejects *)
| PexNotOk                          (* res.ok is false *)
| PexNoPhotos                       (* null, or photos is not an array *)
| PexPhotos (photos : list PexelsPhoto).

(** The [web] part of a grounding chunk. *)
Record ChunkWeb : Type := {
  w_uri : string;
  w_title : string;
  w_image : string;
  w_imageUrl : string;
  w_ogImage : string;
  w_matchReason : string
}.

Record GroundingChunk : Type := {
  web : option ChunkWeb
}.

(** An element of the array the fallback reply parses to, with the keys the
    source reads.  A primitive element reads as an object without keys. *)
Record FallbackItem : Type := {
  f_url : string;
  f_uri : string;
  f_page : string;
  f_pageUrl : string;
  f_title : string;
  f_name : string;
  f_pageTitle : string;
  f_source : string;
  f_imageUrl : string;
  f_img : string;
  f_image : string;
  f_thumbnail : string;
  f_matchReason : string;
  f_match : string
}.

Inductive JsonElem : Type :=
| ElemNull                          (* reading a key of it throws *)
| ElemObject (o : FallbackItem).

Inductive JsonValue : Type :=
| JsonArray (elems : list JsonElem)
| JsonOther.                        (* any value that is not an array *)

(** The three liveness checks made for one candidate. *)
Inductive Slot : Type := PreviewCheck | PageCheck | SnapshotCheck.

(** The collaborators of one invocation. *)
Record World : Type := {
  apiInitialized : bool;
  (** [descriptionResult.text], or the rejection of the call *)
  synthesisReply : Res string;
  (** the reply to the stock-photo request, by request URL *)
  pexelsReply : string -> PexelsOutcome;
  (** [groundingChunks] of the first candidate, empty when missing *)
  groundedReply : Res (list GroundingChunk);
  (** [fallbackResult.text], or the rejection of the call *)
  fallbackReply : Res string;
  (** [JSON.parse]; [None] when it throws *)
  JSON_parse : string -> option JsonValue;
  (** the network as seen by each check of the candidate at each index *)
  netAt : nat -> Slot -> Net
}.

(** ** Text scanning of the fallback reply *)

Module Scan.

(** The longest prefix of [s] that ends with [c]. *)
Fixpoint upto_last (c : ascii) (s : string) : option string :=
  match s with
  | EmptyString => None
  | String a r =>
      match upto_last c r with
      | Some m => Some (String a m)
      | None => if Ascii.eqb a c then Some (String a EmptyString) else None
      end
  end.

(** [text.match(/\{[\s\S]*\}|\[[\s\S]*\]/)], the matched text. *)
Fixpoint match_json (s : string) : option string :=
  match s with
  | EmptyString => None
  | String a r =>
      if Ascii.eqb a "{"%char then
        match upto_last "}"%char r with
        | Some m => Some (String a m)
        | None => match_json r
        end
      else if Ascii.eqb a "["%char then
        match upto_last "]"%char r with
        | Some m => Some (String a m)
        | None => match_json r
        end
      else match_json r
  end.

(** The longest run of characters outside [stop], and what follows it. *)
Fixpoint run (stop : ascii -> bool) (s : string) : string * string :=
  match s with
  | EmptyString => (EmptyString, EmptyString)
  | String a r =>
      if stop a then (EmptyString, s)
      else let (m, rest) := run stop r in (String a m, rest)
  end.

(** [scheme] then one character or more outside [stop], starting here: the
    match and what follows it. *)
Definition scheme_here (stop : ascii -> bool) (scheme s : string)
  : option (string * string) :=
  match Js.after_prefix scheme s with
  | Some r =>
      match run stop r with
      | (EmptyString, _) => None
      | (m, rest) => Some (scheme ++ m, rest)
      end
  | None => None
  end.

(** [https?:\/\/[^...]+] starting here. *)
Definition url_here (stop : ascii -> bool) (s : string) : option (string * string) :=
  match scheme_here stop "https://" s with
  | Some x => Some x
  | None => scheme_here stop "http://" s
  end.

(** [text.match(re) || []] for a global [re] of that shape. *)
Fixpoint match_urls_fuel (fuel : nat) (stop : ascii -> bool) (s : string) : list string :=
  match fuel with
  | O => []
  | S fuel' =>
      match s with
      | EmptyString => []
      | String _ r =>
          match url_here stop s with
          | Some (m, rest) => m :: match_urls_fuel fuel' stop rest
          | None => match_urls_fuel fuel' stop r
          end
      end
  end.

Definition match_urls (stop : ascii -> bool) (s : string) : list string :=
  match_urls_fuel (S (String.length s)) stop s.

(** [[^\s,]]. *)
Definition stop1 (c : ascii) : bool :=
  Js.isSpace c || Ascii.eqb c ","%char.

(** [[^\s,\]\)]]. *)
Definition stop2 (c : ascii) : bool :=
  Js.isSpace c || Ascii.eqb c ","%char || Ascii.eqb c "]"%char || Ascii.eqb c ")"%char.

End Scan.

(** Decimal text of a number, as a template literal prints it. *)
Definition dec (z : Z) : string :=
  DecimalString.NilZero.string_of_int (Z.to_int z).

(** ** Scoring *)

(** Scores count tenths: [20] is the 2 of the source, [12] its 1.2. *)

(** The body of [tagMatchers.forEach]: [wordBonus] is 5 on the grounded
    path and 6 in [scoreFor]. *)
Definition tagStep (wordBonus : Z) (hay : string) (score : Z) (tag : string) : Z :=
  if negb (Js.truthy tag) then score
  else
    let score := if Js.includes hay tag then (score + 20)%Z else score in
    fold_left
      (fun score p =>
         if Js.truthy p && Js.includes hay p then (score + wordBonus)%Z else score)
      (Js.split " "%char tag) score.

Definition tagScore (wordBonus : Z) (hay : string) (tagMatchers : list string) (score : Z) : Z :=
  fold_left (tagStep wordBonus hay) tagMatchers score.

(** [`${item.matchReason}`]. *)
Definition reasonText (item : WebInspiration) : string :=
  match matchReason item with
  | Some r => r
  | None => "undefined"
  end.

Definition hayOf (item : WebInspiration) : string :=
  Js.toLowerCase
    (title item ++ " " ++ uri item ++ " " ++ previewUrl item ++ " " ++ reasonText item).

(** [try { const host = new URL(item.uri).hostname;
          if (preferredHosts.some(h => host.includes(h))) score += 1.5; } catch {}] *)
Definition hostStep (P : Platform) (item : WebInspiration) (score : Z) : Z :=
  match hostname P (uri item) with
  | Some host =>
      if existsb (fun h => Js.includes host h) preferredHosts then (score + 15)%Z else score
  | None => score
  end.

(** [contentType && /image\//i.test(contentType)]. *)
Definition isImageType (contentType : option string) : bool :=
  match contentType with
  | Some s => Js.truthy s && Re.test_image_type s
  | None => false
  end.

(** [contentType && /pdf/i.test(contentType)]. *)
Definition isPdf (contentType : option string) : bool :=
  match contentType with
  | Some s => Js.truthy s && Re.test_pdf s
  | None => false
  end.

(** [scoreFor] of the fallback path. *)
Definition scoreFor (P : Platform) (tagMatchers : list string) (item : WebInspiration) : Z :=
  let score := 0%Z in
  let hay := hayOf item in
  let score := tagScore 6 hay tagMatchers score in
  let score :=
    if Js.truthy (previewUrl item) && Re.test_image_ext_nogif (previewUrl item)
    then (score + 10)%Z else score in
  let score := hostStep P item score in
  score.

(** ** Validation of one candidate *)

Definition snapshotUrl (P : Platform) (pageUri : string) : string :=
  "https://api.apiflash.com/v1/urltoimage?access_key=" ++ APIFLASH_KEY P ++
  "&url=" ++ encodeURIComponent P pageUri ++
  "&format=jpeg&quality=80&thumbnail_width=800".

(** The state of [imageUrl], [alive], [contentType] once the checks are done. *)
Record Liveness : Type := {
  l_imageUrl : string;
  l_alive : bool;
  l_contentType : option string
}.

(** The liveness block shared, word for word, by the two validating paths:
    from [let imageUrl = item.previewUrl] to the end of the snapshot test. *)
Definition checkLiveness (P : Platform) (net : Slot -> Net) (item : WebInspiration)
  : M Liveness :=
  (let imageUrl := previewUrl item in
   firstCheck <- checkUrlAlive P (net PreviewCheck) imageUrl ;;
   let alive0 := alive firstCheck in
   let contentType0 := contentType firstCheck in
   st <- (if negb alive0 && Js.truthy (uri item) then
            pageCheck <- checkUrlAlive P (net PageCheck) (uri item) ;;
            ret (alive pageCheck, Js.or_opt contentType0 (contentType pageCheck))
          else ret (alive0, contentType0)) ;;
   let alive1 := fst st in
   let contentType1 := snd st in
   if negb alive1 && Js.truthy (uri item) && Js.truthy (APIFLASH_KEY P) then
     let snap := snapshotUrl P (uri item) in
     snapCheck <- checkUrlAlive P (net SnapshotCheck) snap ;;
     if alive snapCheck then
       ret {| l_imageUrl := snap; l_alive := true;
              l_contentType := Js.or_opt (contentType snapCheck) contentType1 |}
     else
       ret {| l_imageUrl := imageUrl; l_alive := alive1; l_contentType := contentType1 |}
   else
     ret {| l_imageUrl := imageUrl; l_alive := alive1; l_contentType := contentType1 |})%m.

Definition withPreview (item : WebInspiration) (imageUrl : string) : WebInspiration :=
  {| uri := uri item; title := title item; source := source item;
     previewUrl := imageUrl; matchReason := matchReason item |}.

(** Scoring of the grounded path, after the checks. *)
Definition scoreGrounded (P : Platform) (tagMatchers : list string)
    (item : WebInspiration) (lv : Liveness) : Validated :=
  let score := 0%Z in
  let hay := hayOf item in
  let score := tagScore 5 hay tagMatchers score in
  let score := if isLikelyImageUrl (l_imageUrl lv) then (score + 12)%Z else score in
  let score := if isImageType (l_contentType lv) then (score + 15)%Z else score in
  let score := hostStep P item score in
  let score := if l_alive lv then (score + 20)%Z else score in
  let alive := if isPdf (l_contentType lv) then false else l_alive lv in
  {| v_item := withPreview item (l_imageUrl lv); v_score := score;
     v_alive := alive; v_contentType := l_contentType lv |}.

(** Scoring of the fallback path, after the checks. *)
Definition scoreFallback (it : Scored) (lv : Liveness) : Validated :=
  let score := s_score it in
  let score := if isLikelyImageUrl (l_imageUrl lv) then (score + 12)%Z else score in
  let score := if isImageType (l_contentType lv) then (score + 15)%Z else score in
  let score := if l_alive lv then (score + 20)%Z else score in
  let alive := if isPdf (l_contentType lv) then false else l_alive lv in
  {| v_item := withPreview (s_item it) (l_imageUrl lv); v_score := score;
     v_alive := alive; v_contentType := l_contentType lv |}.

Definition validateGrounded (P : Platform) (W : World) (tagMatchers : list string)
    (i : nat) (item : WebInspiration) : M Validated :=
  (lv <- checkLiveness P (netAt W i) item ;;
   ret (scoreGrounded P tagMatchers item lv))%m.

Definition validateFallback (P : Platform) (W : World)
    (i : nat) (it : Scored) : M Validated :=
  (lv <- checkLiveness P (netAt W i) (s_item it) ;;
   ret (scoreFallback it lv))%m.

(** ** Scores as JavaScript numbers *)

(** The [score] of the source is a JavaScript number and every
    [score += k] an addition of IEEE 754 doubles.  The module has the score
    computations of the two validating paths on doubles, statement by
    statement.  [toLowerCase] is [String.prototype.toLowerCase], whatever
    the platform folds. *)
Module Number.

Section Folding.

Variable toLowerCase : string -> string.

(** The body of [tagMatchers.forEach]: [wordBonus] is 0.5 on the grounded
    path and 0.6 in [scoreFor]. *)
Definition tagStep (wordBonus : float) (hay : string) (score : float) (tag : string)
  : float :=
  if negb (Js.truthy tag) then score
  else
    let score := if Js.includes hay tag then (score + 2)%float else score in
    fold_left
      (fun score p =>
         if Js.truthy p && Js.includes hay p then (score + wordBonus)%float else score)
      (Js.split " "%char tag) score.

Definition tagScore (wordBonus : float) (hay : string) (tagMatchers : list string)
    (score : float) : float :=
  fold_left (tagStep wordBonus hay) tagMatchers score.

(** [`${item.title} ${item.uri} ${item.previewUrl} ${item.matchReason}`
    .toLowerCase()]. *)
Definition hayOf (item : WebInspiration) : string :=
  toLowerCase
    (title item ++ " " ++ uri item ++ " " ++ previewUrl item ++ " " ++ reasonText item).

(** [attributeTags.map(t => t.toLowerCase())]. *)
Definition tagMatchers (attributeTags : list string) : list string :=
  map toLowerCase attributeTags.

Definition hostStep (P : Platform) (item : WebInspiration) (score : float) : float :=
  match hostname P (uri item) with
  | Some host =>
      if existsb (fun h => Js.includes host h) preferredHosts then (score + 1.5)%float
      else score
  | None => score
  end.

(** [scoreFor] of the fallback path. *)
Definition scoreFor (P : Platform) (attributeTags : list string) (item : WebInspiration)
  : float :=
  let score := 0%float in
  let hay := hayOf item in
  let score := tagScore 0.6 hay (tagMatchers attributeTags) score in
  let score :=
    if Js.truthy (previewUrl item) && Re.test_image_ext_nogif (previewUrl item)
    then (score + 1)%float else score in
  let score := hostStep P item score in
  score.

(** The [score] of the grounded path when the candidate is returned. *)
Definition scoreGrounded (P : Platform) (attributeTags : list string)
    (item : WebInspiration) (lv : Liveness) : float :=
  let score := 0%float in
  let hay := hayOf item in
  let score := tagScore 0.5 hay (tagMatchers attributeTags) score in
  let score := if isLikelyImageUrl (l_imageUrl lv) then (score + 1.2)%float else score in
  let score := if isImageType (l_contentType lv) then (score + 1.5)%float else score in
  let score := hostStep P item score in
  let score := if l_alive lv then (score + 2)%float else score in
  score.

End Folding.

(** [x || 0] on a number: zero for the falsy numbers 0, -0 and NaN. *)
Definition orZero (x : float) : float :=
  if PrimFloat.is_zero x || PrimFloat.is_nan x then 0%float else x.

(** The [score] of the fallback path when the candidate is returned;
    [_score] is what [scoreFor] gave, or the 0 of a harvested URL. *)
Definition scoreFallback (_score : float) (lv : Liveness) : float :=
  let score := orZero _score in
  let score := if isLikelyImageUrl (l_imageUrl lv) then (score + 1.2)%float else score in
  let score := if isImageType (l_contentType lv) then (score + 1.5)%float else score in
  let score := if l_alive lv then (score + 2)%float else score in
  score.

End Number.

(** ** Filtering, ranking, selection *)

Definition hostPreferred (v : Validated) : bool :=
  existsb (fun h => Js.includes (uri (v_item v)) h) preferredHosts.

(** The predicate of [validated.filter]. *)
Definition accepted (v : Validated) : bool :=
  (v_alive v && isImageType (v_contentType v))
  || (20 <=? v_score v)%Z
  || (hostPreferred v && v_alive v).

(** [l.sort((a, b) => score b - score a)]: descending, stable. *)
Fixpoint insertDesc {A} (score : A -> Z) (x : A) (l : list A) : list A :=
  match l with
  | [] => [x]
  | y :: r =>
      if (score x <? score y)%Z then y :: insertDesc score x r
      else x :: y :: r
  end.

Definition sortDesc {A} (score : A -> Z) (l : list A) : list A :=
  fold_right (insertDesc score) [] l.

(** [validated.filter(...).sort(...)], [slice(0, count)], strip of the
    internal fields. *)
Definition selectResults (validated : list Validated) (count : Z) : list WebInspiration :=
  let filtered := sortDesc v_score (filter accepted validated) in
  map v_item (Js.slice0 filtered count).

(** ** The model client *)

Definition notInitialized : string :=
  "Gemini API not initialized. Add gemini API key in AI model configuration panel".

(** [getAI()]. *)
Definition getAI (W : World) : M unit :=
  if apiInitialized W then ret tt else throw notInitialized.

(** ** Query synthesis *)

Record SearchIntent : Type := {
  searchQuery : string;
  modifiers : list string;
  attributeTags : list string
}.

Definition extraTags : list string :=
  ["modern"; "minimalist"; "concrete"; "residential"; "exterior"; "facade";
   "architecture"; "high-resolution"; "real photo"].

Definition defaultModifiers : list string :=
  ["site:dezeen.com"; "site:archdaily.com"; "architectural photography"].

(** [line.split(',').map(s => s.trim()).filter(Boolean)]. *)
Definition commaList (line : string) : list string :=
  filter Js.truthy (map Js.trim (Js.split ","%char line)).

(** From [descriptionResult.text] to the query, the modifiers and the tags. *)
Definition parseIntent (text : string) : SearchIntent :=
  let descText := Js.trim text in
  let lines := filter Js.truthy (map Js.trim (Js.split "010"%char descText)) in
  let searchQuery := Js.or_str (nth 0 lines "") descText in
  let modifiersLine := nth 1 lines "" in
  let tagsLine := nth 2 lines "" in
  let modifiers :=
    if Js.truthy modifiersLine then commaList modifiersLine else defaultModifiers in
  let modifiers :=
    fold_left
      (fun ms tag => if Js.arr_includes ms tag then ms else (ms ++ [tag])%list)
      extraTags modifiers in
  let attributeTags := if Js.truthy tagsLine then commaList tagsLine else [] in
  {| searchQuery := searchQuery; modifiers := modifiers; attributeTags := attributeTags |}.

(** ** Stage 1: stock photos *)

Definition getPexelsKey (P : Platform) : string :=
  if Js.truthy (env_PEXELS_API_KEY P) then env_PEXELS_API_KEY P
  else Js.or_str (ls_PEXELS_API_KEY P) (ls_pexels_api_key P).

Definition pexelsItem (p : PexelsPhoto) : WebInspiration :=
  {| uri := Js.or_str (p_url p) (Js.or_str (p_photographer_url p) "");
     title := Js.or_str (p_alt p) ("Pexels - " ++ Js.or_str (p_photographer p) "photo");
     source := "pexels.com";
     previewUrl :=
       Js.or_str
         (Js.or_str (p_src_large p) (Js.or_str (p_src_medium p) (p_src_original p))) "";
     matchReason := None |}.

(** The items of a reply that have both a resource URL and a preview URL. *)
Definition pexelsMapped (photos : list PexelsPhoto) : list WebInspiration :=
  filter (fun p => Js.truthy (previewUrl p) && Js.truthy (uri p)) (map pexelsItem photos).

Definition pexelsRequestUrl (P : Platform) (query : string) (perPage : Z) : string :=
  "https://api.pexels.com/v1/search?query=" ++ encodeURIComponent P query ++
  "&per_page=" ++ dec perPage ++ "&orientation=landscape".

(** [searchPexels]; [None] is its [null]. *)
Definition searchPexels (P : Platform) (W : World) (query : string) (perPage : Z)
  : M (option (list WebInspiration)) :=
  if negb (Js.truthy (getPexelsKey P)) then ret None
  else
    (let url := pexelsRequestUrl P query perPage in
     emit (EvPexels url) ;;;
     match pexelsReply W url with
     | PexFetchFails => ret None
     | PexNotOk => ret None
     | PexNoPhotos => ret None
     | PexPhotos photos =>
         let mapped := pexelsMapped photos in
         if (List.length mapped =? 0)%nat then ret None
         else ret (Some (Js.slice0 mapped perPage))
     end)%m.

(** ** Stage 2: grounded search *)

Definition chunkItem (P : Platform) (w : ChunkWeb) : WebInspiration :=
  let domain :=
    match hostname P (w_uri w) with
    | Some h => h
    | None => w_uri w
    end in
  let possibleImage := Js.or_str (w_image w) (Js.or_str (w_imageUrl w) (w_ogImage w)) in
  let previewUrl :=
    if Js.truthy possibleImage then possibleImage
    else if Js.truthy (APIFLASH_KEY P) then snapshotUrl P (w_uri w)
    else "https://i.microlink.io/" ++ w_uri w in
  {| uri := w_uri w; title := w_title w; source := domain;
     previewUrl := previewUrl; matchReason := Some (Js.or_str (w_matchReason w) "") |}.

(** [groundingChunks.filter(chunk => chunk.web && chunk.web.uri && chunk.web.title)
    .map(...)]. *)
Definition rawCandidates (P : Platform) (chunks : list GroundingChunk) : list WebInspiration :=
  flat_map
    (fun c =>
       match web c with
       | Some w =>
           if Js.truthy (w_uri w) && Js.truthy (w_title w) then [chunkItem P w] else []
       | None => []
       end)
    chunks.

Definition groundedPath (P : Platform) (W : World) (tags : list string)
    (chunks : list GroundingChunk) (count : Z) : M (list WebInspiration) :=
  (let tagMatchers := map Js.toLowerCase tags in
   validated <- mapM_from (validateGrounded P W tagMatchers) 0 (rawCandidates P chunks) ;;
   ret (selectResults validated count))%m.

(** ** Stages 3 and 4: free-text fallback and URL harvesting *)

Definition hostOrSelf (P : Platform) (u : string) : string :=
  match hostname P u with
  | Some h => h
  | None => u
  end.

(** The objects built from the URLs found when the reply is not JSON. *)
Fixpoint urlObjects (P : Platform) (i : nat) (urls : list string) : list JsonElem :=
  match urls with
  | [] => []
  | u :: r =>
      ElemObject
        {| f_url := u; f_uri := ""; f_page := ""; f_pageUrl := "";
           f_title := "Result " ++ dec (Z.of_nat i + 1); f_name := ""; f_pageTitle := "";
           f_source := hostOrSelf P u;
           f_imageUrl := u; f_img := ""; f_image := ""; f_thumbnail := "";
           f_matchReason := ""; f_match := "" |}
      :: urlObjects P (S i) r
  end.

Definition parseFallback (P : Platform) (W : World) (text : string) (count : Z) : JsonValue :=
  let jsonText :=
    match Scan.match_json text with
    | Some m => m
    | None => text
    end in
  match JSON_parse W jsonText with
  | Some v => v
  | None =>
      let urls := Js.uniq (Js.slice0 (Scan.match_urls Scan.stop1 text) count) in
      JsonArray (urlObjects P 0 urls)
  end.

Definition fallbackItem (P : Platform) (o : FallbackItem) : WebInspiration :=
  {| uri := Js.or_str (f_url o) (Js.or_str (f_uri o) (Js.or_str (f_page o) (Js.or_str (f_pageUrl o) "")));
     title := Js.or_str (f_title o) (Js.or_str (f_name o) (Js.or_str (f_pageTitle o) "Inspiration"));
     source :=
       Js.or_str (f_source o)
         match hostname P (Js.or_str (f_url o) (f_uri o)) with
         | Some h => h
         | None => "unknown"
         end;
     previewUrl :=
       Js.or_str (f_imageUrl o) (Js.or_str (f_img o) (Js.or_str (f_image o)
         (Js.or_str (f_thumbnail o)
            (if Js.truthy (f_url o) then "https://i.microlink.io/" ++ f_url o else ""))));
     matchReason := Some (Js.or_str (f_matchReason o) (Js.or_str (f_match o) "")) |}.

(** [parsed.map(item => ...)]: reading a key of [null] throws. *)
Fixpoint mapItems (P : Platform) (elems : list JsonElem) : M (list WebInspiration) :=
  match elems with
  | [] => ret []
  | ElemNull :: _ => throw "Cannot read properties of null"
  | ElemObject o :: r =>
      (rest <- mapItems P r ;;
       ret (fallbackItem P o :: rest))%m
  end.

Definition harvested (P : Platform) (u : string) : Scored :=
  {| s_item := {| uri := u; title := u; source := hostOrSelf P u;
                  previewUrl := u; matchReason := Some "" |};
     s_score := 0 |}.

(** The body of [extraUrls.forEach]. *)
Definition harvestStep (P : Platform) (count : Z) (inspirations : list Scored) (u : string)
  : list Scored :=
  if (count <=? Z.of_nat (List.length inspirations))%Z then inspirations
  else if existsb (fun x => String.eqb (uri (s_item x)) u) inspirations then inspirations
  else (inspirations ++ [harvested P u])%list.

Definition harvest (P : Platform) (text : string) (count : Z) (inspirations : list Scored)
  : list Scored :=
  if (Z.of_nat (List.length inspirations) <? count)%Z then
    let extraUrls :=
      filter Js.truthy (Js.uniq (Js.slice0 (Scan.match_urls Scan.stop2 text) (count * 3))) in
    fold_left (harvestStep P count) extraUrls inspirations
  else inspirations.

(** The candidates of the fallback reply, scored and ranked, before the
    harvest. *)
Definition fallbackCandidates (P : Platform) (tags : list string)
    (items : list WebInspiration) : list Scored :=
  let inspirations := filter (fun i => Js.truthy (uri i)) items in
  let tagMatchers := map Js.toLowerCase tags in
  sortDesc s_score
    (map (fun i => {| s_item := i; s_score := scoreFor P tagMatchers i |}) inspirations).

(** The [try] block of the fallback. *)
Definition fallbackBody (P : Platform) (W : World) (tags : list string) (count : Z)
  : M (list WebInspiration) :=
  (getAI W ;;;
   emit EvFallbackSearch ;;;
   reply <- (fallbackReply W, []) ;;
   let text := Js.trim reply in
   match parseFallback P W text count with
   | JsonOther => ret []
   | JsonArray [] => ret []
   | JsonArray elems =>
       items <- mapItems P elems ;;
       let inspirations := harvest P text count (fallbackCandidates P tags items) in
       validated <- mapM_from (validateFallback P W) 0 inspirations ;;
       ret (selectResults validated count)
   end)%m.

Definition fallbackPath (P : Platform) (W : World) (tags : list string) (count : Z)
  : M (list WebInspiration) :=
  try_catch (fallbackBody P W tags count) (fun _ => ret []).

(** ** The pipeline *)

(** [`${searchQuery} ${attributeTags.join(' ')}`.trim()]. *)
Definition pexQueryOf (intent : SearchIntent) : string :=
  Js.trim (searchQuery intent ++ " " ++ Js.join " " (attributeTags intent)).

(** The [if (pexelsKey) { ... }] block: [Some l] when it returns [l]. *)
Definition stockStage (P : Platform) (W : World) (intent : SearchIntent) (count : Z)
  : M (option (list WebInspiration)) :=
  if Js.truthy (getPexelsKey P) then
    (pexResults <- searchPexels P W (pexQueryOf intent) count ;;
     match pexResults with
     | Some l =>
         if (Z.min 1 count <=? Z.of_nat (List.length l))%Z
         then ret (Some (Js.slice0 l count))
         else ret None
     | None => ret None
     end)%m
  else ret None.

(** What follows the stock-photo block in the outer [try] block: the
    grounded search, then the grounded path or the fallback path. *)
Definition searchStages (P : Platform) (W : World) (tags : list string) (count : Z)
  : M (list WebInspiration) :=
  (getAI W ;;;
   emit EvGroundedSearch ;;;
   chunks <- (groundedReply W, []) ;;
   match chunks with
   | _ :: _ => groundedPath P W tags chunks count
   | [] => fallbackPath P W tags count
   end)%m.

(** The outer [try] block of [findWebInspiration]. *)
Definition findBody (P : Platform) (W : World) (count : Z) : M (list WebInspiration) :=
  (getAI W ;;;
   getAI W ;;;
   emit EvSynthesis ;;;
   descText <- (synthesisReply W, []) ;;
   let intent := parseIntent descText in
   let tags := attributeTags intent in
   stock <- stockStage P W intent count ;;
   match stock with
   | Some l => ret l
   | None => searchStages P W tags count
   end)%m.

(** [findWebInspiration]: the outer [catch] rethrows.  What a collaborator
    rejects with is taken to be an [Error] carrying a message. *)
Definition findWebInspiration (P : Platform) (W : World) (count : Z)
  : M (list WebInspiration) :=
  try_catch (findBody P W count)
    (fun msg => throw ("Failed to find inspiration: " ++ msg)).

(** ** The verification proxy *)

Module VerifyServer.

(** A value of the parsed query: a string, or an array when the key is
    repeated. *)
Inductive QueryValue : Type :=
| QString (s : string)
| QArray (l : list string).

Definition Query : Type := list (string * QueryValue).

(** [q.k]; [None] is [undefined]. *)
Fixpoint lookup (q : Query) (k : string) : option QueryValue :=
  match q with
  | [] => None
  | (k', v) :: r => if String.eqb k k' then Some v else lookup r k
  end.

Definition truthy (v : option QueryValue) : bool :=
  match v with
  | Some (QString s) => Js.truthy s
  | Some (QArray _) => true
  | None => false
  end.

Inductive Json : Type :=
| JBool (b : bool)
| JNumber (n : Z)
| JString (s : string)
| JNull.

(** An object as [JSON.stringify] writes it: its defined keys, in order. *)
Definition JsonObject : Type := list (string * Json).

(** What becomes of the HEAD request. *)
Inductive HeadAttempt : Type :=
| HeadCompleted (statusCode : Z) (contentTypeHeader : string)
| HeadErrored
| HeadTimedOut
| HeadThrew.                        (* url.parse or lib.request throws *)

Definition doHeadCheck (http : string -> Z -> HeadAttempt)
    (targetUrl : string) (timeout : Z) : JsonObject :=
  match http targetUrl timeout with
  | HeadCompleted statusCode ct =>
      [("alive", JBool ((200 <=? statusCode)%Z && (statusCode <? 400)%Z));
       ("status", JNumber statusCode);
       ("contentType", if Js.truthy ct then JString ct else JNull)]
  | HeadErrored => [("alive", JBool false)]
  | HeadTimedOut => [("alive", JBool false)]
  | HeadThrew => [("alive", JBool false)]
  end.

(** The value of key [k] in an object. *)
Fixpoint field (o : JsonObject) (k : string) : option Json :=
  match o with
  | [] => None
  | (k', v) :: r => if String.eqb k k' then Some v else field r k
  end.

Record Response : Type := {
  statusCode : Z;
  body : JsonObject
}.

(** [q.url || q.u]. *)
Definition target (q : Query) : option QueryValue :=
  if truthy (lookup q "url") then lookup q "url" else lookup q "u".

(** The request handler, on the parsed query of [req.url]. *)
Definition server (http : string -> Z -> HeadAttempt) (q : Query) : Response :=
  let target := target q in
  if negb (truthy target) then
    {| statusCode := 400; body := [("error", JString "missing url parameter")] |}
  else
    match target with
    | Some (QString t) =>
        if Re.test_http_prefix t then
          let result := doHeadCheck http t 4000 in
          {| statusCode := 200; body := result |}
        else
          {| statusCode := 400;
             body := [("error", JString "invalid url parameter, must start with http/https")] |}
    | _ =>
        {| statusCode := 400;
           body := [("error", JString "invalid url parameter, must start with http/https")] |}
    end.

End VerifyServer.

(** ** Concrete platforms, networks and replies used by the examples *)

Module Examples.

(** The host part of an [http(s)://host/path] address. *)
Definition hostOf (u : string) : option string :=
  let host (r : string) :=
    match Scan.run (fun c => Ascii.eqb c "/"%char) r with
    | (EmptyString, _) => None
    | (h, _) => Some h
    end in
  match Js.after_prefix "https://" u with
  | Some r => host r
  | None =>
      match Js.after_prefix "http://" u with
      | Some r => host r
      | None => None
      end
  end.

Definition platform (pexelsKey apiflashKey : string) : Platform :=
  {| encodeURIComponent := fun s => s;
     hostname := hostOf;
     VERIFY_SERVER_URL := "";
     APIFLASH_KEY := apiflashKey;
     env_PEXELS_API_KEY := pexelsKey;
     ls_PEXELS_API_KEY := "";
     ls_pexels_api_key := "" |}.

(** A network whose proxy answers every request the same way. *)
Definition proxyNet (a : bool) (ct : string) : Net :=
  {| proxyFetch := fun _ => ProxyAlive a ct;
     headFetch := fun _ => HeadFetchFails |}.

Definition newline : string := String "010"%char EmptyString.

(** The messages V8 gives the [TypeError] of reading a key of [null] and
    of [undefined]. *)
Definition nullRead (k : string) : string :=
  "Cannot read properties of null (reading '" ++ k ++ "')".

Definition undefinedRead (k : string) : string :=
  "Cannot read properties of undefined (reading '" ++ k ++ "')".

Definition description : string :=
  "brutalist concrete apartment tower" ++ newline ++
  "site:dezeen.com, high-resolution" ++ newline ++
  "brutalist, concrete".

Definition world (pexels : PexelsOutcome) (grounded : Res (list GroundingChunk))
    (fallback : Res string) (net : nat -> Slot -> Net) : World :=
  {| apiInitialized := true;
     synthesisReply := Ok description;
     pexelsReply := fun _ => pexels;
     groundedReply := grounded;
     fallbackReply := fallback;
     JSON_parse := fun _ => None;
     netAt := net |}.

Definition chunk (u t img : string) : GroundingChunk :=
  {| web := Some {| w_uri := u; w_title := t; w_image := img; w_imageUrl := "";
                    w_ogImage := ""; w_matchReason := "" |} |}.

Definition photo (u img : string) : PexelsPhoto :=
  {| p_url := u; p_photographer_url := ""; p_alt := "A tower"; p_photographer := "";
     p_src_large := img; p_src_medium := ""; p_src_original := "" |}.

(** The preview is dead, the page is an HTML page that answers, the
    snapshot service serves a JPEG. *)
Definition pageOnlyNet (i : nat) (slot : Slot) : Net :=
  match slot with
  | PreviewCheck => proxyNet false ""
  | PageCheck => proxyNet true "text/html"
  | SnapshotCheck => proxyNet true "image/jpeg"
  end.

(** Every check is answered by the proxy: alive, a JPEG. *)
Definition jpegNet (i : nat) (slot : Slot) : Net := proxyNet true "image/jpeg".

(** Every check is answered by the proxy: alive, a PDF document. *)
Definition pdfNet (i : nat) (slot : Slot) : Net := proxyNet true "application/pdf".

(** Grounded search cites the same page twice. *)
Definition twiceCited : World :=
  world PexNotOk
    (Ok [chunk "https://example.org/tower" "Concrete tower" "https://example.org/tower.jpg";
         chunk "https://example.org/tower" "Concrete tower" "https://example.org/tower.jpg"])
    (Ok "") jpegNet.

(** Grounded search cites two different pages. *)
Definition twoCited : World :=
  world PexNotOk
    (Ok [chunk "https://example.org/tower" "Concrete tower" "https://example.org/tower.jpg";
         chunk "https://example.org/slab" "Concrete slab" "https://example.org/slab.jpg"])
    (Ok "") jpegNet.

(** Grounded search cites a report served as a PDF document. *)
Definition pdfCited : World :=
  world PexNotOk
    (Ok [chunk "https://example.org/report" "Annual report"
           "https://example.org/report.pdf"])
    (Ok "") pdfNet.

(** The grounded search call is rejected. *)
Definition searchRejected : World :=
  world PexNotOk (Throw "quota exceeded") (Ok "") jpegNet.

(** The stock-photo reply holds no photo. *)
Definition noPhotos : World :=
  world (PexPhotos []) (Ok []) (Ok "") jpegNet.

(** The stock-photo reply holds two photos. *)
Definition twoPhotos : World :=
  world
    (PexPhotos [photo "https://www.pexels.com/photo/1" "https://images.pexels.com/1.jpeg";
                photo "https://www.pexels.com/photo/2" "https://images.pexels.com/2.jpeg"])
    (Throw "never asked") (Throw "never asked") jpegNet.

Definition towerItem : WebInspiration :=
  {| uri := "https://example.org/tower"; title := "Brutalist concrete tower";
     source := "example.org";
     previewUrl := "https://example.org/tower.jpg";
     matchReason := Some "raw concrete" |}.

(** A page whose preview address has no extension. *)
Definition steelItem : WebInspiration :=
  {| uri := "https://example.org/office"; title := "A tower of steel and glass";
     source := "example.org";
     previewUrl := "https://example.org/office/view";
     matchReason := Some "" |}.

Definition liveJpeg : Liveness :=
  {| l_imageUrl := "https://example.org/tower.jpg"; l_alive := true;
     l_contentType := Some "image/jpeg" |}.

Definition deadUnknown : Liveness :=
  {| l_imageUrl := "https://example.org/tower.jpg"; l_alive := false;
     l_contentType := None |}.

End Examples.

(** ** Attribute normalisation *)

Module Attributes.

(** [attributeOptions]: the categories in the order of the object literal,
    each with its valid options.  The functions below take the table as an
    argument; the table of the source is one such value. *)
Definition Options : Type := list (string * list string).

(** What [data[category]] can be: an array of strings, a string, or
    anything else ([undefined], a number, an array with another kind of
    item, ...). *)
Inductive AttrValue : Type :=
| AvStrings (value : list string)
| AvString (value : string)
| AvOther.

(** The value handed to [normalizeAttributes]: [null], or something whose
    keys can be read (a primitive reads as an object without keys). *)
Inductive JsData : Type :=
| DataNull
| DataObject (fields : list (string * AttrValue)).

(** [DetectedAttributes]: the keys assigned, in order. *)
Definition DetectedAttributes : Type := list (string * list string).

(** [data[category]]; [None] is [undefined]. *)
Fixpoint lookup (fields : list (string * AttrValue)) (k : string) : option AttrValue :=
  match fields with
  | [] => None
  | (k', v) :: r => if String.eqb k k' then Some v else lookup r k
  end.

(** The body of [allCategories.forEach] for one category. *)
Definition normalizeValue (validOptions : list string) (value : option AttrValue)
  : list string :=
  match value with
  | Some (AvStrings value) => filter (fun v => Js.arr_includes validOptions v) value
  | Some (AvString value) =>
      if Js.arr_includes validOptions value then [value] else []
  | _ => []
  end.

(** [normalizeAttributes]: reading a key of [null] throws a [TypeError], at
    the first category.  [nullRead k] is the message the engine gives it
    for the key [k]. *)
Fixpoint normalizeAttributes (nullRead : string -> string) (attributeOptions : Options)
    (data : JsData) : Res DetectedAttributes :=
  match attributeOptions with
  | [] => Ok []
  | (category, validOptions) :: rest =>
      match data with
      | DataNull => Throw (nullRead category)
      | DataObject fields =>
          match normalizeAttributes nullRead rest data with
          | Ok normalized =>
              Ok ((category, normalizeValue validOptions (lookup fields category))
                  :: normalized)
          | Throw msg => Throw msg
          end
      end
  end.

(** The detected attributes read back as data: every key holds an array. *)
Definition asData (attributes : DetectedAttributes) : JsData :=
  DataObject (map (fun kv => (fst kv, AvStrings (snd kv))) attributes).

(** The collaborators of [analyzeImageWithGemini]. *)
Record AnalysisWorld : Type := {
  clientInitialized : bool;
  (** [result.text], or what the call rejects with *)
  analysisReply : Settled string;
  (** [JSON.parse], or the message of the [SyntaxError] it throws *)
  parseData : string -> Res JsData
}.

(** The [try] block of [analyzeImageWithGemini]. *)
Definition analyzeBody (nullRead : string -> string) (attributeOptions : Options)
    (W : AnalysisWorld) : Settled DetectedAttributes :=
  if negb (clientInitialized W) then Rejected notInitialized
  else
    match analysisReply W with
    | Rejected msg => Rejected msg
    | RejectedOther => RejectedOther
    | Fulfilled text =>
        match parseData W text with
        | Throw msg => Rejected msg
        | Ok jsonResponse =>
            match normalizeAttributes nullRead attributeOptions jsonResponse with
            | Ok attributes => Fulfilled attributes
            | Throw msg => Rejected msg
            end
        end
    end.

(** [analyzeImageWithGemini]: the [catch] wraps the message of an [Error]
    and replaces any other thrown value. *)
Definition analyzeImageWithGemini (nullRead : string -> string) (attributeOptions : Options)
    (W : AnalysisWorld) : Res DetectedAttributes :=
  match analyzeBody nullRead attributeOptions W with
  | Fulfilled attributes => Ok attributes
  | Rejected msg => Throw ("Failed to analyze image: " ++ msg)
  | RejectedOther => Throw "An unknown error occurred while analyzing the image."
  end.

End Attributes.

(** ** Generated inspirations *)

Module Generator.

(** An element of [generatedImages]. *)
Inductive GeneratedImage : Type :=
| ImageMissing                          (* [img.image] is undefined *)
| ImageOf (imageBytes : option string). (* [None] when [imageBytes] is undefined *)

(** [`${imageBytes}`]. *)
Definition bytesText (imageBytes : option string) : string :=
  match imageBytes with
  | Some b => b
  | None => "undefined"
  end.

(** The collaborators of [generateInspirationsWithGemini]. *)
Record GeneratorWorld : Type := {
  generatorInitialized : bool;
  (** [descriptionResult.text] (empty when missing), or what the call
      rejects with *)
  descriptionReply : Settled string;
  (** [generatedImages] (none when missing), or what the call, or the
      evaluation of its argument, throws *)
  imagesReply : Settled (list GeneratedImage)
}.

(** [generatedImages.map((img, index) => ...)], from index [i]: reading
    [imageBytes] of a missing image throws a [TypeError], whose message is
    [undefinedRead "imageBytes"]. *)
Fixpoint concepts (undefinedRead : string -> string) (label : string) (i : nat)
    (images : list GeneratedImage) : Res (list WebInspiration) :=
  match images with
  | [] => Ok []
  | ImageMissing :: _ => Throw (undefinedRead "imageBytes")
  | ImageOf imageBytes :: rest =>
      match concepts undefinedRead label (S i) rest with
      | Ok inspirations =>
          Ok ({| uri := "data:image/jpeg;base64," ++ bytesText imageBytes;
                 title := label ++ dec (Z.of_nat i + 1);
                 source := "AI Generated";
                 previewUrl := "";
                 matchReason := None |}
              :: inspirations)
      | Throw msg => Throw msg
      end
  end.

(** The [try] block of [generateInspirationsWithGemini]; [count] is not
    read. *)
Definition generateBody (undefinedRead : string -> string) (W : GeneratorWorld) (count : Z)
  : Settled (list WebInspiration) :=
  if negb (generatorInitialized W) then Rejected notInitialized
  else
    match descriptionReply W with
    | Rejected msg => Rejected msg
    | RejectedOther => RejectedOther
    | Fulfilled artisticPrompt =>
        if negb (Js.truthy artisticPrompt) then
          Rejected "Could not generate a descriptive prompt from the image."
        else
          match imagesReply W with
          | Rejected msg => Rejected msg
          | RejectedOther => RejectedOther
          | Fulfilled generatedImages =>
              if (List.length generatedImages =? 0)%nat then
                Rejected "Image generation failed to produce results."
              else
                match concepts undefinedRead "AI Generated Concept " 0 generatedImages with
                | Ok inspirations => Fulfilled inspirations
                | Throw msg => Rejected msg
                end
          end
    end.

(** [generateInspirationsWithGemini]: the [catch] wraps the message of an
    [Error] and replaces any other thrown value. *)
Definition generateInspirationsWithGemini (undefinedRead : string -> string)
    (W : GeneratorWorld) (count : Z) : Res (list WebInspiration) :=
  match generateBody undefinedRead W count with
  | Fulfilled inspirations => Ok inspirations
  | Rejected msg => Throw ("Failed to generate inspirations: " ++ msg)
  | RejectedOther => Throw "An unknown error occurred while generating inspirations."
  end.

End Generator.

(** ** The toast service *)

Module Toasts.

Inductive ToastType : Type := success | error | info.

Record Toast : Type := {
  id : string;
  type : ToastType;
  message : string
}.

(** A listener is known by its identity. *)
Definition Listener : Type := nat.

Record ToastService : Type := {
  toasts : list Toast;
  listeners : list Listener
}.

(** A call of a listener, with the copy of the list it receives. *)
Definition Notification : Type := (Listener * list Toast)%type.

(** [emit]. *)
Definition emitAll (s : ToastService) : list Notification :=
  map (fun l => (l, toasts s)) (listeners s).

Definition isError (t : ToastType) : bool :=
  match t with
  | error => true
  | _ => false
  end.

(** What a call of [show] leaves: the id it returns, the service, the
    listeners called, and the removal it has scheduled. *)
Record Shown : Type := {
  returned : string;
  after : ToastService;
  notified : list Notification;
  scheduled : option (string * Z)
}.

(** [show(type, message, timeout)]; [newId] is what [makeId] gives. *)
Definition show (s : ToastService) (newId : string) (type : ToastType)
    (message : string) (timeout : Z) : Shown :=
  if isError type && String.eqb message "Failed to save image to history" then
    {| returned := ""; after := s; notified := []; scheduled := None |}
  else
    let t := {| id := newId; type := type; message := message |} in
    let s' := {| toasts := (toasts s ++ [t])%list; listeners := listeners s |} in
    {| returned := newId; after := s'; notified := emitAll s';
       scheduled := if (0 <? timeout)%Z then Some (newId, timeout) else None |}.

(** [toasts.splice(idx, 1)] at the first toast with that id. *)
Fixpoint removeFirst (i : string) (l : list Toast) : option (list Toast) :=
  match l with
  | [] => None
  | t :: r =>
      if String.eqb (id t) i then Some r
      else match removeFirst i r with
           | Some r' => Some (t :: r')
           | None => None
           end
  end.

(** [remove(id)]. *)
Definition remove (s : ToastService) (i : string) : ToastService * list Notification :=
  match removeFirst i (toasts s) with
  | Some l =>
      let s' := {| toasts := l; listeners := listeners s |} in
      (s', emitAll s')
  | None => (s, [])
  end.

(** [subscribe(fn)]: the service after it and the call of [fn]. *)
Definition subscribe (s : ToastService) (fn : Listener) : ToastService * list Notification :=
  ({| toasts := toasts s; listeners := (listeners s ++ [fn])%list |}, [(fn, toasts s)]).

(** The function [subscribe] returns. *)
Definition unsubscribe (s : ToastService) (fn : Listener) : ToastService :=
  {| toasts := toasts s;
     listeners := filter (fun l => negb (Nat.eqb l fn)) (listeners s) |}.

End Toasts.

(** ** The caller in the application *)

Module App.

Inductive AppStep : Type :=
| uploading | choosePath | findingInspiration | showingInspiration | analyzed.

(** The state a handler closes over, as far as the handlers below read it. *)
Record View : Type := {
  hasUploadedImage : bool;
  hasDetectedAttributes : bool;
  hasInspirationImages : bool;
  multiImageCount : nat
}.

(** The calls of the state setters, in order. *)
Inductive Update : Type :=
| setAppStep (step : AppStep)
| setIsLoading (b : bool)
| setLoadingMessage (m : string)
| setError (m : option string)
| setInspirationImages (l : list WebInspiration).

(** What is caught: an abort, an [Error] with its message, or another
    value. *)
Inductive Caught : Type :=
| AbortError
| ErrorWith (message : string)
| OtherValue.

Definition quotaMessage : string :=
  "You've exceeded your free API quota. Please wait and try again later, or reduce the number of requested inspirations in the 'AI Model Configuration' tab.".

(** [handleError(err, defaultMessage)]. *)
Definition handleError (v : View) (err : Caught) (defaultMessage : string) : list Update :=
  match err with
  | AbortError => []
  | _ =>
      let message :=
        match err with
        | ErrorWith m => m
        | _ => defaultMessage
        end in
      let message :=
        if Js.includes message "RESOURCE_EXHAUSTED" || Js.includes message "429"
        then quotaMessage else message in
      [setError (Some message);
       setIsLoading false;
       setAppStep
         (if hasDetectedAttributes v then analyzed
          else if hasInspirationImages v then showingInspiration
          else if hasUploadedImage v || (0 <? multiImageCount v)%nat then choosePath
          else uploading)]
  end.

(** [handleFindInspiration]: [searching] is the localised loader message,
    [aborted] what [controller.signal.aborted] reads after the search. *)
Definition handleFindInspiration (v : View) (searching : string) (aborted : bool)
    (P : Platform) (W : World) : list Update :=
  if negb (hasUploadedImage v) then []
  else
    ([setAppStep findingInspiration; setIsLoading true; setLoadingMessage searching;
      setError None]
     ++ match fst (findWebInspiration P W 3) with
        | Ok inspirations =>
            if aborted then []
            else if (List.length inspirations =? 0)%nat then
              [setError (Some "Could not find any inspiration images. Please try analyzing your image directly.");
               setAppStep choosePath]
            else [setInspirationImages inspirations; setAppStep showingInspiration]
        | Throw msg => handleError v (ErrorWith msg) "Failed to find web inspiration."
        end
     ++ [setIsLoading false])%list.

End App.

(** ** Concrete replies, services and views used by the examples *)

Module Samples.

Definition timeAndSky : Attributes.Options :=
  [("time", ["Day"; "Night"]); ("sky", ["Cloudy"])].

(** The model answers an object with an option that does not exist and a
    string where an array is expected. *)
Definition looseAnswer : Attributes.AnalysisWorld :=
  {| Attributes.clientInitialized := true;
     Attributes.analysisReply := Fulfilled "{}";
     Attributes.parseData :=
       fun _ =>
         Ok (Attributes.DataObject
               [("time", Attributes.AvStrings ["Noon"; "Night"]);
                ("sky", Attributes.AvString "Red")]) |}.

(** The model answers the JSON [null]. *)
Definition nullAnswer : Attributes.AnalysisWorld :=
  {| Attributes.clientInitialized := true;
     Attributes.analysisReply := Fulfilled "null";
     Attributes.parseData := fun _ => Ok Attributes.DataNull |}.

(** Two images are generated. *)
Definition twoImages : Generator.GeneratorWorld :=
  {| Generator.generatorInitialized := true;
     Generator.descriptionReply := Fulfilled "a concrete tower";
     Generator.imagesReply :=
       Fulfilled [Generator.ImageOf (Some "AAAA"); Generator.ImageOf (Some "BBBB")] |}.

Definition twoConcepts : list WebInspiration :=
  [{| uri := "data:image/jpeg;base64,AAAA"; title := "AI Generated Concept 1";
      source := "AI Generated"; previewUrl := ""; matchReason := None |};
   {| uri := "data:image/jpeg;base64,BBBB"; title := "AI Generated Concept 2";
      source := "AI Generated"; previewUrl := ""; matchReason := None |}].

(** The second generated image has no [image] part. *)
Definition brokenImage : Generator.GeneratorWorld :=
  {| Generator.generatorInitialized := true;
     Generator.descriptionReply := Fulfilled "a concrete tower";
     Generator.imagesReply :=
       Fulfilled [Generator.ImageOf (Some "AAAA"); Generator.ImageMissing] |}.

Definition toast (i m : string) : Toasts.Toast :=
  {| Toasts.id := i; Toasts.type := Toasts.info; Toasts.message := m |}.

(** Three toasts, two of them with the same id, and two listeners. *)
Definition threeToasts : Toasts.ToastService :=
  {| Toasts.toasts := [toast "a" "first"; toast "b" "second"; toast "b" "third"];
     Toasts.listeners := [7; 9] |}.

(** An image is uploaded and nothing else is loaded. *)
Definition imageOnly : App.View :=
  {| App.hasUploadedImage := true; App.hasDetectedAttributes := false;
     App.hasInspirationImages := false; App.multiImageCount := 0 |}.

End Samples.

(** * Notions used by the statements *)

(** [s] contains [kw] when letter case is ignored. *)
Definition containsIgnoringCase (s kw : string) : Prop :=
  exists pre mid post, s = pre ++ mid ++ post /\ Js.toLowerCase mid = kw.

(** ** Scores in closed form *)

Definition b2z (b : bool) : Z := if b then 1%Z else 0%Z.

Definition count {A} (l : list A) : Z := Z.of_nat (List.length l).

(** The tags found in the haystack, and the words of the tags found in it. *)
Definition tagsFound (hay : string) (tagMatchers : list string) : list string :=
  filter (fun tag => Js.truthy tag && Js.includes hay tag) tagMatchers.

Definition wordsFound (hay : string) (tagMatchers : list string) : list string :=
  flat_map
    (fun tag =>
       filter (fun p => Js.truthy p && Js.includes hay p) (Js.split " "%char tag))
    tagMatchers.

(** The host of the page is one of the preferred ones. *)
Definition preferredHost (P : Platform) (item : WebInspiration) : bool :=
  match hostname P (uri item) with
  | Some host => existsb (fun h => Js.includes host h) preferredHosts
  | None => false
  end.

(** The score the specification words for C7: tags found, the words of the
    found tags that have several words, and one bonus of each other kind. *)
Definition claimedScore (wordBonus : Z) (P : Platform) (tagMatchers : list string)
    (item : WebInspiration) (lv : Liveness) : Z :=
  (20 * count (tagsFound (hayOf item) tagMatchers)
   + wordBonus
     * count (wordsFound (hayOf item)
                (filter (fun tag => (1 <? List.length (Js.split " "%char tag))%nat)
                   (tagsFound (hayOf item) tagMatchers)))
   + 12 * b2z (isLikelyImageUrl (l_imageUrl lv))
   + 15 * b2z (isImageType (l_contentType lv))
   + 15 * b2z (preferredHost P item)
   + 20 * b2z (l_alive lv))%Z.

(** ** Scores as sums of doubles *)

(** One contribution, made when its condition holds. *)
Definition bonus (b : bool) (k : float) : list float := if b then [k] else [].

(** What one tag contributes, in the order of the additions: 2 when the
    tag is not empty and found in the haystack, then [wordBonus] for each
    of its words found there. *)
Definition tagContributions (wordBonus : float) (hay tag : string) : list float :=
  (bonus (Js.truthy tag && Js.includes hay tag) 2
   ++ repeat wordBonus (List.length (wordsFound hay [tag])))%list.

(** The contributions added one after the other to [start], each addition
    rounded as IEEE 754 has it. *)
Definition ieeeSum (start : float) (contributions : list float) : float :=
  fold_left PrimFloat.add contributions start.

(** [enlarges tags tags']: [tags'] is [tags] with further tags inserted. *)
Inductive enlarges : list string -> list string -> Prop :=
| enlarges_nil : enlarges [] []
| enlarges_keep (t : string) (l l' : list string) :
    enlarges l l' -> enlarges (t :: l) (t :: l')
| enlarges_add (t : string) (l l' : list string) :
    enlarges l l' -> enlarges l (t :: l').

(** ** The steps of the liveness block *)

(** The page is checked when the preview is dead and there is a page. *)
Definition pageNeeded (item : WebInspiration) (r1 : CheckResult) : bool :=
  negb (alive r1) && Js.truthy (uri item).

Definition aliveAfterPage (item : WebInspiration) (r1 r2 : CheckResult) : bool :=
  if pageNeeded item r1 then alive r2 else alive r1.

Definition typeAfterPage (item : WebInspiration) (r1 r2 : CheckResult) : option string :=
  if pageNeeded item r1 then Js.or_opt (contentType r1) (contentType r2)
  else contentType r1.

(** The snapshot is checked when both are dead and the key is set. *)
Definition snapshotNeeded (P : Platform) (item : WebInspiration) (r1 r2 : CheckResult)
  : bool :=
  negb (aliveAfterPage item r1 r2) && Js.truthy (uri item) && Js.truthy (APIFLASH_KEY P).

(** ** Return paths of the pipeline *)

Definition suri (c : Scored) : string := uri (s_item c).

(** The items the stock-photo search yields: those of the reply to the
    request made that have both URLs; none when the request fails. *)
Definition stockItems (P : Platform) (W : World) (intent : SearchIntent) (count : Z)
  : list WebInspiration :=
  match pexelsReply W (pexelsRequestUrl P (pexQueryOf intent) count) with
  | PexPhotos photos => pexelsMapped photos
  | _ => []
  end.

(** How the fallback path returns: with nothing, or with the selection
    among the validated candidates of the reply. *)
Definition fallbackReturn (P : Platform) (W : World) (tags : list string) (count : Z)
    (l : list WebInspiration) : Prop :=
  l = [] \/
  exists reply elems items validated t,
    fallbackReply W = Ok reply /\
    parseFallback P W (Js.trim reply) count = JsonArray elems /\
    mapItems P elems = (Ok items, []) /\
    mapM_from (validateFallback P W) 0
      (harvest P (Js.trim reply) count (fallbackCandidates P tags items))
    = (Ok validated, t) /\
    map (fun v => uri (v_item v)) validated
    = map (fun c => uri (s_item c))
        (harvest P (Js.trim reply) count (fallbackCandidates P tags items)) /\
    l = selectResults validated count.

(** How [findWebInspiration] returns: from the stock-photo stage, from the
    grounded path, or from the fallback path. *)
Definition returnsVia (P : Platform) (W : World) (count : Z)
    (l : list WebInspiration) : Prop :=
  exists text,
    apiInitialized W = true /\
    synthesisReply W = Ok text /\
    ((Js.truthy (getPexelsKey P) = true /\
      stockItems P W (parseIntent text) count <> [] /\
      l = Js.slice0 (Js.slice0 (stockItems P W (parseIntent text) count) count) count)
     \/
     (exists chunks validated t,
        groundedReply W = Ok chunks /\ chunks <> [] /\
        mapM_from (validateGrounded P W
                     (map Js.toLowerCase (attributeTags (parseIntent text))))
          0 (rawCandidates P chunks) = (Ok validated, t) /\
        map (fun v => uri (v_item v)) validated = map uri (rawCandidates P chunks) /\
        l = selectResults validated count)
     \/
     (groundedReply W = Ok [] /\
      fallbackReturn P W (attributeTags (parseIntent text)) count l)).

(** ** Traces of the liveness checker *)

(** The address asked of the verify server for [url]. *)
Definition verifyRequest (P : Platform) (url : string) : string :=
  Js.or_str (VERIFY_SERVER_URL P) "http://localhost:4001/verify" ++ "?url=" ++
  encodeURIComponent P url.

(** The network requests of a trace, and the number of liveness checks. *)
Definition networkRequests (t : list Event) : list Event := filter isNetworkRequest t.

Definition isCheckCall (e : Event) : bool :=
  match e with
  | EvCheckUrlAlive _ => true
  | _ => false
  end.

Definition checkCalls (t : list Event) : nat := List.length (filter isCheckCall t).

(** ** Well-formed candidates *)

(** A stock-photo item as [searchPexels] hands it over. *)
Definition stockItemOk (i : WebInspiration) : Prop :=
  Js.truthy (uri i) = true /\ Js.truthy (previewUrl i) = true /\
  source i = "pexels.com" /\ matchReason i = None.

(** A candidate of the grounded path before validation. *)
Definition groundedCandidateOk (i : WebInspiration) : Prop :=
  Js.truthy (uri i) = true /\ Js.truthy (title i) = true /\
  Js.truthy (previewUrl i) = true /\ matchReason i <> None.

(** A candidate appended by the harvest. *)
Definition harvestedOk (c : Scored) : Prop :=
  s_score c = 0%Z /\ Js.truthy (uri (s_item c)) = true /\
  previewUrl (s_item c) = uri (s_item c) /\ title (s_item c) = uri (s_item c) /\
  matchReason (s_item c) = Some "".

(** The text handed to [JSON.parse] for a fallback reply. *)
Definition jsonTextOf (text : string) : string :=
  match Scan.match_json text with
  | Some m => m
  | None => text
  end.

(** ** Ranked lists *)

(** Scores never increase along the list. *)
Fixpoint descending {A} (score : A -> Z) (l : list A) : Prop :=
  match l with
  | [] => True
  | x :: r => Forall (fun y => (score y <= score x)%Z) r /\ descending score r
  end.

(** The entries of [l] whose score is [k], in the order of [l]. *)
Definition withScore {A} (score : A -> Z) (k : Z) (l : list A) : list A :=
  filter (fun x => (score x =? k)%Z) l.

(** [x] is the candidate [c] as validation leaves it: the same entry, with
    its preview URL or the snapshot of its page. *)
Definition madeFrom (P : Platform) (c x : WebInspiration) : Prop :=
  uri x = uri c /\ title x = title c /\ source x = source c /\
  matchReason x = matchReason c /\
  (previewUrl x = previewUrl c \/ previewUrl x = snapshotUrl P (uri c)).

(** ** Stages in a trace *)

(** The events of a liveness check. *)
Definition isCheckEvent (e : Event) : bool :=
  match e with
  | EvCheckUrlAlive _ | EvProxyGet _ | EvHead _ => true
  | _ => false
  end.

Definition onlyChecks (t : list Event) : Prop :=
  Forall (fun e => isCheckEvent e = true) t.

(** The calls to the collaborators that an invocation can have made, in
    the order it makes them; [px] is the stock-photo request. *)
Definition stageSequences (px : string) : list (list Event) :=
  [[];
   [EvSynthesis];
   [EvSynthesis; EvPexels px];
   [EvSynthesis; EvGroundedSearch];
   [EvSynthesis; EvPexels px; EvGroundedSearch];
   [EvSynthesis; EvGroundedSearch; EvFallbackSearch];
   [EvSynthesis; EvPexels px; EvGroundedSearch; EvFallbackSearch]].

(** ** Lines of the description *)

(** The [n]-th line of the description among those that are not blank,
    trimmed; empty when there is no such line. *)
Definition descriptionLine (n : nat) (text : string) : string :=
  nth n (filter Js.truthy (map Js.trim (Js.split "010"%char (Js.trim text)))) "".

(** The modifiers read from the second line, or the default ones when the
    description has no second line. *)
Definition modifiersRead (text : string) : list string :=
  if Js.truthy (descriptionLine 1 text) then commaList (descriptionLine 1 text)
  else defaultModifiers.

(** ** Normalised attributes *)

(** [attributes] has the categories of the table, in its order, each with
    values taken among the valid options of the category. *)
Definition validFor (attributeOptions : Attributes.Options)
    (attributes : Attributes.DetectedAttributes) : Prop :=
  Forall2 (fun o kv => fst kv = fst o /\ incl (snd kv) (snd o)) attributeOptions attributes.

(** ** The last step set *)

(** The step of the last [setAppStep] among the updates. *)
Fixpoint finalStep (us : list App.Update) : option App.AppStep :=
  match us with
  | [] => None
  | u :: r =>
      match finalStep r with
      | Some s => Some s
      | None =>
          match u with
          | App.setAppStep s => Some s
          | _ => None
          end
      end
  end.

(** * Properties *)

(** The tests on strings are kept folded when a goal is simplified. *)
Arguments Re.test_dead : simpl never.
Arguments Re.test_image_ext : simpl never.
Arguments Re.test_image_ext_nogif : simpl never.
Arguments Re.test_image_type : simpl never.
Arguments Re.test_pdf : simpl never.
Arguments Re.test_http_prefix : simpl never.
Arguments Js.includes : simpl never.
Arguments Js.toLowerCase : simpl never.
Arguments Js.truthy : simpl never.
Arguments isLikelyImageUrl : simpl never.

(** ** Strings *)

Lemma toLowerCase_app (a b : string) :
  Js.toLowerCase (a ++ b) = Js.toLowerCase a ++ Js.toLowerCase b.
Proof.
  induction a as [|c a IH]; [reflexivity|].
  change (String c a ++ b) with (String c (a ++ b)).
  unfold Js.toLowerCase; fold Js.toLowerCase. now rewrite IH.
Qed.

Lemma prefix_app (p s : string) : prefix p (p ++ s) = true.
Proof.
  induction p as [|c p IH]; simpl.
  - now destruct s.
  - destruct (ascii_dec c c) as [_|n]; [exact IH | now elim n].
Qed.

Lemma includes_unfold (s p : string) :
  Js.includes s p =
  prefix p s || match s with
                | EmptyString => false
                | String _ r => Js.includes r p
                end.
Proof. destruct s; reflexivity. Qed.

Lemma includes_of_prefix (s p : string) : prefix p s = true -> Js.includes s p = true.
Proof.
  intros H. rewrite includes_unfold, H. reflexivity.
Qed.

Lemma includes_middle (a p c : string) : Js.includes (a ++ p ++ c) p = true.
Proof.
  induction a as [|x a IH].
  - change ("" ++ p ++ c) with (p ++ c).
    apply includes_of_prefix, prefix_app.
  - change (String x a ++ p ++ c) with (String x (a ++ p ++ c)).
    rewrite includes_unfold, IH. apply orb_true_r.
Qed.

Lemma includes_ignoring_case (s kw : string) :
  containsIgnoringCase s kw -> Js.includes (Js.toLowerCase s) kw = true.
Proof.
  intros (pre & mid & post & -> & <-).
  rewrite !toLowerCase_app. apply includes_middle.
Qed.

(** ** The scanners terminate within their fuel *)

Lemma after_prefix_length (p s r : string) :
  Js.after_prefix p s = Some r -> String.length s = (String.length p + String.length r)%nat.
Proof.
  revert s. induction p as [|a p IH]; intros [|b s]; cbn; try discriminate.
  - intros H. now injection H as <-.
  - intros H. now injection H as <-.
  - destruct (Ascii.eqb a b); [|discriminate]. intros H. now rewrite (IH s H).
Qed.

Lemma run_length (stop : ascii -> bool) (s : string) :
  (String.length (snd (Scan.run stop s)) <= String.length s)%nat.
Proof.
  induction s as [|a s IH]; cbn; [lia|].
  destruct (stop a); cbn; [lia|].
  destruct (Scan.run stop s) as [m rest]. cbn in *. lia.
Qed.

Lemma scheme_here_shorter (stop : ascii -> bool) (scheme s m rest : string) :
  scheme <> "" ->
  Scan.scheme_here stop scheme s = Some (m, rest) ->
  (String.length rest < String.length s)%nat.
Proof.
  intros Hne. unfold Scan.scheme_here.
  destruct (Js.after_prefix scheme s) as [r|] eqn:E; [|discriminate].
  apply after_prefix_length in E.
  pose proof (run_length stop r) as Hr.
  destruct (Scan.run stop r) as [[|a m0] rest0]; [discriminate|].
  intros H. injection H as _ <-. cbn in Hr.
  destruct scheme; [now elim Hne|]. cbn in E. lia.
Qed.

Lemma url_here_shorter (stop : ascii -> bool) (s m rest : string) :
  Scan.url_here stop s = Some (m, rest) ->
  (String.length rest < String.length s)%nat.
Proof.
  unfold Scan.url_here.
  destruct (Scan.scheme_here stop "https://" s) as [[m1 rest1]|] eqn:E1.
  - intros H. injection H as <- <-.
    apply (scheme_here_shorter stop "https://" s m1 rest1); [discriminate | exact E1].
  - apply scheme_here_shorter. discriminate.
Qed.

(** More fuel than the length of the text changes nothing: the scan of
    [match_urls] always reaches the end of the text. *)
Lemma match_urls_fuel_enough (stop : ascii -> bool) (fuel fuel' : nat) (s : string) :
  (String.length s < fuel)%nat -> (String.length s < fuel')%nat ->
  Scan.match_urls_fuel fuel stop s = Scan.match_urls_fuel fuel' stop s.
Proof.
  revert fuel' s. induction fuel as [|fuel IH]; intros fuel' s H H'; [lia|].
  destruct fuel' as [|fuel']; [lia|].
  cbn [Scan.match_urls_fuel].
  destruct s as [|a s]; [reflexivity|].
  destruct (Scan.url_here stop (String a s)) as [[m rest]|] eqn:E.
  - apply url_here_shorter in E. f_equal. apply IH; lia.
  - cbn [String.length] in *. apply IH; lia.
Qed.

(** ** The embedding on sample texts *)

Example image_ext_query : Re.test_image_ext "https://cdn.example.org/A.JPEG?w=800" = true.
Proof. reflexivity. Qed.

Example image_ext_inside_word : Re.test_image_ext "https://example.org/a.jpegs" = false.
Proof. reflexivity. Qed.

Example gif_only_in_the_checker :
  Re.test_image_ext "https://example.org/a.gif" = true /\
  Re.test_image_ext_nogif "https://example.org/a.gif" = false.
Proof. split; reflexivity. Qed.

Example dead_keyword_in_title :
  Re.test_dead "https://blog.example.org/404-Error-architecture.jpg" = true.
Proof. reflexivity. Qed.

Example json_inside_commentary :
  Scan.match_json "Here you go: ```json [ {x} ] ``` enjoy" = Some "[ {x} ]".
Proof. reflexivity. Qed.

Example urls_of_text :
  Scan.match_urls Scan.stop1 "see https://a.example/x.jpg, (http://b.example/y) ftp://c"
  = ["https://a.example/x.jpg"; "http://b.example/y)"] /\
  Scan.match_urls Scan.stop2 "see https://a.example/x.jpg, (http://b.example/y) ftp://c"
  = ["https://a.example/x.jpg"; "http://b.example/y"].
Proof. split; reflexivity. Qed.

Example intent_of_three_lines :
  parseIntent Examples.description
  = {| searchQuery := "brutalist concrete apartment tower";
       modifiers :=
         ["site:dezeen.com"; "high-resolution"; "modern"; "minimalist"; "concrete";
          "residential"; "exterior"; "facade"; "architecture"; "real photo"];
       attributeTags := ["brutalist"; "concrete"] |}.
Proof. reflexivity. Qed.

Example slice_negative_end : Js.slice0 [1; 2; 3]%Z (-1) = [1; 2]%Z.
Proof. reflexivity. Qed.

Example sort_is_stable :
  sortDesc snd [("a", 1); ("b", 3); ("c", 1); ("d", 3)]%Z
  = [("b", 3); ("d", 3); ("a", 1); ("c", 1)]%Z.
Proof. reflexivity. Qed.

(** ** The liveness checker *)

Lemma checkUrlAlive_total (P : Platform) (net : Net) (url : string) :
  exists r t, checkUrlAlive P net url = (Ok r, EvCheckUrlAlive url :: t).
Proof.
  unfold checkUrlAlive. cbn.
  destruct (Js.truthy url); cbn; [|eauto].
  destruct (Re.test_dead url); cbn; [eauto|].
  destruct (proxyFetch net _); cbn; eauto;
    destruct (headFetch net url); cbn; eauto.
Qed.

(** C4.  A URL that contains, in any letter case, one of [404], [notfound],
    [error], [page-not-found] is reported not alive, and the trace of the
    call holds no network request, whatever the proxy and the direct check
    would answer. *)
Theorem checkUrlAlive_dead_keyword (P : Platform) (net : Net) (url kw : string) :
  kw = "404" \/ kw = "notfound" \/ kw = "error" \/ kw = "page-not-found" ->
  containsIgnoringCase url kw ->
  fst (checkUrlAlive P net url) = Ok {| alive := false; contentType := None |} /\
  filter isNetworkRequest (snd (checkUrlAlive P net url)) = [].
Proof.
  intros Hkw Hin.
  assert (Hdead : Re.test_dead url = true).
  { apply includes_ignoring_case in Hin.
    unfold Re.test_dead, Re.deadKeywords. cbn [existsb].
    destruct Hkw as [-> | [-> | [-> | ->]]]; rewrite Hin;
      rewrite ?orb_true_r; reflexivity. }
  unfold checkUrlAlive. cbn.
  destruct (Js.truthy url); cbn; [rewrite Hdead; cbn|]; split; reflexivity.
Qed.

Lemma checkUrlAlive_dead_keyword_witness :
  fst (checkUrlAlive (Examples.platform "" "") (Examples.proxyNet true "image/jpeg")
         "https://example.com/Page-Not-Found/tower.jpg")
  = Ok {| alive := false; contentType := None |} /\
  filter isNetworkRequest
    (snd (checkUrlAlive (Examples.platform "" "") (Examples.proxyNet true "image/jpeg")
            "https://example.com/Page-Not-Found/tower.jpg")) = [].
Proof.
  apply (checkUrlAlive_dead_keyword _ _ _ "page-not-found").
  - right; right; right; reflexivity.
  - exists "https://example.com/", "Page-Not-Found", "/tower.jpg".
    split; reflexivity.
Defined.

(** ** The verification proxy *)

Section VerifyContract.

Import VerifyServer.

Variable http : string -> Z -> HeadAttempt.

Lemma http_prefix_truthy (t : string) :
  Re.test_http_prefix t = true -> Js.truthy t = true.
Proof. destruct t; [discriminate | reflexivity]. Qed.

Lemma doHeadCheck_alive (t : string) (timeout : Z) :
  field (doHeadCheck http t timeout) "alive" = Some (JBool true) <->
  exists code ct, http t timeout = HeadCompleted code ct /\ (200 <= code < 400)%Z.
Proof.
  unfold doHeadCheck. split.
  - destruct (http t timeout) as [code ct| | |]; cbn; try discriminate.
    intros H. exists code, ct. split; [reflexivity|].
    destruct (200 <=? code)%Z eqn:E1; destruct (code <? 400)%Z eqn:E2;
      cbn in H; try discriminate. lia.
  - intros (code & ct & -> & Hc). cbn.
    replace (200 <=? code)%Z with true by (symmetry; apply Z.leb_le; lia).
    replace (code <? 400)%Z with true by (symmetry; apply Z.ltb_lt; lia).
    reflexivity.
Qed.

(** C9, as the handler has it.  The target is the [url] parameter or, when
    that one is missing or empty, the [u] parameter.  A missing target, a
    repeated one, or one that does not start with [http://] or [https://]
    in any letter case, is answered 400 with an object holding [error]
    only.  Any other target is answered 200 with the object of the HEAD
    check: its [alive] is true exactly when the request completed with a
    status in [200, 400); it then also holds [status] and [contentType]; on
    an error or a timeout the object is [alive: false] alone. *)
Theorem verify_server_contract (q : Query) :
  ((truthy (target q) = false \/
    (forall t, target q = Some (QString t) -> Re.test_http_prefix t = false)) ->
   statusCode (server http q) = 400%Z /\
   exists msg, body (server http q) = [("error", JString msg)])
  /\
  (forall t, target q = Some (QString t) -> Re.test_http_prefix t = true ->
   statusCode (server http q) = 200%Z /\
   body (server http q) = doHeadCheck http t 4000 /\
   (field (body (server http q)) "alive" = Some (JBool true) <->
    exists code ct, http t 4000 = HeadCompleted code ct /\ (200 <= code < 400)%Z) /\
   (forall code ct, http t 4000 = HeadCompleted code ct ->
    body (server http q) =
    [("alive", JBool ((200 <=? code)%Z && (code <? 400)%Z));
     ("status", JNumber code);
     ("contentType", if Js.truthy ct then JString ct else JNull)]) /\
   (http t 4000 = HeadErrored \/ http t 4000 = HeadTimedOut ->
    body (server http q) = [("alive", JBool false)])).
Proof.
  split.
  - intros H. unfold server.
    destruct (truthy (target q)) eqn:Ht; cbn [negb].
    + destruct H as [H|H]; [discriminate|].
      destruct (target q) as [[t|l]|]; cbn; eauto.
      rewrite (H t eq_refl). cbn; eauto.
    + cbn; eauto.
  - intros t Ht Hp.
    assert (Hb : server http q =
                 {| statusCode := 200; body := doHeadCheck http t 4000 |}).
    { unfold server. rewrite Ht. cbn [truthy].
      rewrite (http_prefix_truthy t Hp). cbn [negb]. rewrite Hp. reflexivity. }
    rewrite Hb. cbn [statusCode body].
    repeat split.
    + apply doHeadCheck_alive.
    + apply doHeadCheck_alive.
    + intros code ct E. unfold doHeadCheck. rewrite E. reflexivity.
    + intros [E|E]; unfold doHeadCheck; rewrite E; reflexivity.
Qed.

End VerifyContract.

Lemma verify_server_contract_witness :
  VerifyServer.statusCode
    (VerifyServer.server (fun _ _ => VerifyServer.HeadCompleted 404 "text/html")
       [("url", VerifyServer.QString "HTTPS://example.com/tower.jpg")]) = 200%Z /\
  VerifyServer.field
    (VerifyServer.body
       (VerifyServer.server (fun _ _ => VerifyServer.HeadCompleted 404 "text/html")
          [("url", VerifyServer.QString "HTTPS://example.com/tower.jpg")])) "alive"
  = Some (VerifyServer.JBool false) /\
  VerifyServer.statusCode
    (VerifyServer.server (fun _ _ => VerifyServer.HeadCompleted 200 "image/jpeg")
       [("url", VerifyServer.QString "ftp://example.com/tower.jpg")]) = 400%Z.
Proof.
  pose proof (verify_server_contract
                (fun _ _ => VerifyServer.HeadCompleted 404 "text/html")
                [("url", VerifyServer.QString "HTTPS://example.com/tower.jpg")]) as [_ Hok].
  specialize (Hok "HTTPS://example.com/tower.jpg" eq_refl eq_refl).
  destruct Hok as (Hs & _ & _ & Hbody & _).
  pose proof (verify_server_contract
                (fun _ _ => VerifyServer.HeadCompleted 200 "image/jpeg")
                [("url", VerifyServer.QString "ftp://example.com/tower.jpg")]) as [Hbad _].
  split; [exact Hs|]. split.
  - rewrite (Hbody 404%Z "text/html" eq_refl). reflexivity.
  - apply Hbad. right. intros t E. injection E as <-. reflexivity.
Defined.

(** The claim C9 as worded fails: with no [url] parameter at all the
    request is still served when [u] carries the target. *)
Lemma verify_server_url_absent_served :
  VerifyServer.lookup [("u", VerifyServer.QString "https://example.com/tower.jpg")] "url"
  = None /\
  VerifyServer.statusCode
    (VerifyServer.server (fun _ _ => VerifyServer.HeadCompleted 200 "image/jpeg")
       [("u", VerifyServer.QString "https://example.com/tower.jpg")]) = 200%Z /\
  VerifyServer.body
    (VerifyServer.server (fun _ _ => VerifyServer.HeadErrored)
       [("u", VerifyServer.QString "https://example.com/tower.jpg")])
  = [("alive", VerifyServer.JBool false)].
Proof. repeat split. Qed.

(** ** Scores *)

Lemma words_fold (wordBonus : Z) (hay : string) (parts : list string) (score : Z) :
  fold_left
    (fun score p =>
       if Js.truthy p && Js.includes hay p then (score + wordBonus)%Z else score)
    parts score
  = (score + wordBonus
             * count (filter (fun p => Js.truthy p && Js.includes hay p) parts))%Z.
Proof.
  unfold count. revert score.
  induction parts as [|p parts IH]; intros score; cbn [fold_left filter].
  - cbn. lia.
  - rewrite IH. destruct (Js.truthy p && Js.includes hay p); cbn [List.length]; lia.
Qed.

Lemma split_empty (tag hay : string) :
  Js.truthy tag = false ->
  filter (fun p => Js.truthy p && Js.includes hay p) (Js.split " "%char tag) = [].
Proof.
  destruct tag; [|discriminate]. reflexivity.
Qed.

Lemma tagStep_closed (wordBonus : Z) (hay : string) (score : Z) (tag : string) :
  tagStep wordBonus hay score tag
  = (score + 20 * count (tagsFound hay [tag])
     + wordBonus * count (wordsFound hay [tag]))%Z.
Proof.
  unfold tagStep, tagsFound, wordsFound, count.
  cbn [filter flat_map]. rewrite app_nil_r.
  destruct (Js.truthy tag) eqn:Ht; cbn [negb andb].
  - rewrite words_fold. unfold count.
    destruct (Js.includes hay tag); cbn [List.length]; lia.
  - rewrite (split_empty tag hay Ht). cbn. lia.
Qed.

Lemma tagScore_closed (wordBonus : Z) (hay : string) (tagMatchers : list string) (score : Z) :
  tagScore wordBonus hay tagMatchers score
  = (score + 20 * count (tagsFound hay tagMatchers)
     + wordBonus * count (wordsFound hay tagMatchers))%Z.
Proof.
  unfold tagScore. revert score.
  induction tagMatchers as [|tag l IH]; intros score; cbn [fold_left].
  - cbn. lia.
  - rewrite IH, tagStep_closed.
    unfold tagsFound, wordsFound, count in *.
    cbn [filter flat_map]. rewrite app_nil_r, length_app.
    destruct (Js.truthy tag && Js.includes hay tag); cbn [List.length]; lia.
Qed.

Lemma hostStep_closed (P : Platform) (item : WebInspiration) (score : Z) :
  hostStep P item score = (score + 15 * b2z (preferredHost P item))%Z.
Proof.
  unfold hostStep, preferredHost.
  destruct (hostname P (uri item)) as [host|]; [|cbn; lia].
  destruct (existsb _ preferredHosts); cbn; lia.
Qed.

Lemma if_add (b : bool) (score k : Z) :
  (if b then (score + k)%Z else score) = (score + k * b2z b)%Z.
Proof. destruct b; cbn; lia. Qed.

Lemma scoreGrounded_closed (P : Platform) (tagMatchers : list string)
    (item : WebInspiration) (lv : Liveness) :
  v_score (scoreGrounded P tagMatchers item lv)
  = (20 * count (tagsFound (hayOf item) tagMatchers)
     + 5 * count (wordsFound (hayOf item) tagMatchers)
     + 12 * b2z (isLikelyImageUrl (l_imageUrl lv))
     + 15 * b2z (isImageType (l_contentType lv))
     + 15 * b2z (preferredHost P item)
     + 20 * b2z (l_alive lv))%Z.
Proof.
  unfold scoreGrounded. cbn [v_score].
  rewrite hostStep_closed, tagScore_closed, !if_add. lia.
Qed.

Lemma scoreFor_closed (P : Platform) (tagMatchers : list string) (item : WebInspiration) :
  scoreFor P tagMatchers item
  = (20 * count (tagsFound (hayOf item) tagMatchers)
     + 6 * count (wordsFound (hayOf item) tagMatchers)
     + 10 * b2z (Js.truthy (previewUrl item) && Re.test_image_ext_nogif (previewUrl item))
     + 15 * b2z (preferredHost P item))%Z.
Proof.
  unfold scoreFor. rewrite hostStep_closed, tagScore_closed, !if_add. lia.
Qed.

Lemma scoreFallback_closed (it : Scored) (lv : Liveness) :
  v_score (scoreFallback it lv)
  = (s_score it
     + 12 * b2z (isLikelyImageUrl (l_imageUrl lv))
     + 15 * b2z (isImageType (l_contentType lv))
     + 20 * b2z (l_alive lv))%Z.
Proof.
  unfold scoreFallback. cbn [v_score]. rewrite !if_add. lia.
Qed.

Lemma bonus_step (b : bool) (k score : float) :
  (if b then (score + k)%float else score) = ieeeSum score (bonus b k).
Proof. now destruct b. Qed.

Lemma ieeeSum_app (start : float) (l l' : list float) :
  ieeeSum start (l ++ l')%list = ieeeSum (ieeeSum start l) l'.
Proof. apply fold_left_app. Qed.

Lemma words_ieeeSum (wordBonus : float) (hay : string) (parts : list string) (score : float) :
  fold_left
    (fun score p =>
       if Js.truthy p && Js.includes hay p then (score + wordBonus)%float else score)
    parts score
  = ieeeSum score
      (repeat wordBonus
         (List.length (filter (fun p => Js.truthy p && Js.includes hay p) parts))).
Proof.
  revert score. induction parts as [|p parts IH]; intros score; cbn [fold_left filter].
  - reflexivity.
  - rewrite IH. now destruct (Js.truthy p && Js.includes hay p).
Qed.

Lemma tagStep_ieeeSum (wordBonus : float) (hay : string) (score : float) (tag : string) :
  Number.tagStep wordBonus hay score tag
  = ieeeSum score (tagContributions wordBonus hay tag).
Proof.
  unfold Number.tagStep, tagContributions, wordsFound.
  cbn [flat_map]. rewrite app_nil_r.
  destruct (Js.truthy tag) eqn:Ht; cbn [negb andb].
  - rewrite words_ieeeSum, ieeeSum_app, <- bonus_step. reflexivity.
  - now rewrite (split_empty tag hay Ht).
Qed.

Lemma tagScore_ieeeSum (wordBonus : float) (hay : string) (tags : list string)
    (score : float) :
  Number.tagScore wordBonus hay tags score
  = ieeeSum score (flat_map (tagContributions wordBonus hay) tags).
Proof.
  unfold Number.tagScore. revert score.
  induction tags as [|tag l IH]; intros score; cbn [fold_left flat_map].
  - reflexivity.
  - now rewrite IH, tagStep_ieeeSum, ieeeSum_app.
Qed.

Lemma hostStep_ieeeSum (P : Platform) (item : WebInspiration) (score : float) :
  Number.hostStep P item score = ieeeSum score (bonus (preferredHost P item) 1.5).
Proof.
  unfold Number.hostStep, preferredHost.
  destruct (hostname P (uri item)) as [host|]; [|reflexivity].
  now destruct (existsb _ preferredHosts).
Qed.

(** C7, as the code computes it.  The score is a double: the sum, carried
    out from left to right with the rounding of IEEE 754, of these
    contributions and no others.  On the grounded path, from 0: for each
    lower-cased tag in turn, 2 when the tag is not empty and is found in
    the lower-cased text of the candidate, then 0.5 for each non-empty word
    of the tag found there, whether or not the tag was; then 1.2 for an
    image extension of the final preview URL, 1.5 for an image content
    type, 1.5 for a preferred host and 2 for liveness.  On the fallback
    path [scoreFor] adds, from 0, the same for the tags with 0.6 for each
    word, 1 for a jpg, jpeg, png or webp extension of the candidate's own
    preview URL and 1.5 for a preferred host; validation then adds 1.2, 1.5
    and 2 as above to [item._score || 0], which is 0 for a harvested URL.
    The statement holds whatever [toLowerCase] folds. *)
Theorem score_breakdown (toLowerCase : string -> string) (P : Platform)
    (attributeTags : list string) (item : WebInspiration) (lv : Liveness) (itemScore : float) :
  Number.scoreGrounded toLowerCase P attributeTags item lv
  = ieeeSum 0
      (flat_map (tagContributions 0.5 (Number.hayOf toLowerCase item))
         (map toLowerCase attributeTags)
       ++ bonus (isLikelyImageUrl (l_imageUrl lv)) 1.2
       ++ bonus (isImageType (l_contentType lv)) 1.5
       ++ bonus (preferredHost P item) 1.5
       ++ bonus (l_alive lv) 2)%list
  /\
  Number.scoreFor toLowerCase P attributeTags item
  = ieeeSum 0
      (flat_map (tagContributions 0.6 (Number.hayOf toLowerCase item))
         (map toLowerCase attributeTags)
       ++ bonus (Js.truthy (previewUrl item) && Re.test_image_ext_nogif (previewUrl item)) 1
       ++ bonus (preferredHost P item) 1.5)%list
  /\
  Number.scoreFallback itemScore lv
  = ieeeSum (Number.orZero itemScore)
      (bonus (isLikelyImageUrl (l_imageUrl lv)) 1.2
       ++ bonus (isImageType (l_contentType lv)) 1.5
       ++ bonus (l_alive lv) 2)%list
  /\
  Number.scoreFallback 0 lv
  = ieeeSum 0
      (bonus (isLikelyImageUrl (l_imageUrl lv)) 1.2
       ++ bonus (isImageType (l_contentType lv)) 1.5
       ++ bonus (l_alive lv) 2)%list.
Proof.
  unfold Number.scoreGrounded, Number.scoreFor, Number.scoreFallback, Number.tagMatchers.
  rewrite !ieeeSum_app, <- !hostStep_ieeeSum, <- !bonus_step, <- !tagScore_ieeeSum.
  repeat split; reflexivity.
Qed.

(** The additions round: three words found at 0.6 each come to
    1.7999999999999998, as in JavaScript, where the pipeline's count in
    tenths has 1.8. *)
Example scoreFor_rounds :
  Number.scoreFor Js.toLowerCase (Examples.platform "" "") ["Glass Steel Tower"]
    Examples.steelItem
  = 1.7999999999999998%float
  /\ scoreFor (Examples.platform "" "") (map Js.toLowerCase ["Glass Steel Tower"])
       Examples.steelItem
     = 18%Z.
Proof. split; reflexivity. Qed.

(** Counterexample for C7: on the fallback path a dead candidate with a
    [.jpg] preview and no tag scores 1 + 1.2, not a single 1.2; on the
    grounded path a one-word tag found in the title scores 2 + 0.5. *)
Lemma score_extension_counted_twice :
  v_score (scoreFallback
             {| s_item := Examples.towerItem;
                s_score := scoreFor (Examples.platform "" "") [] Examples.towerItem |}
             Examples.deadUnknown) = 22%Z /\
  claimedScore 6 (Examples.platform "" "") [] Examples.towerItem Examples.deadUnknown
  = 12%Z /\
  v_score (scoreGrounded (Examples.platform "" "") ["tower"] Examples.towerItem
             Examples.deadUnknown) = 37%Z /\
  claimedScore 5 (Examples.platform "" "") ["tower"] Examples.towerItem
    Examples.deadUnknown = 32%Z.
Proof. vm_compute. repeat split. Qed.

Lemma enlarges_map (f : string -> string) (l l' : list string) :
  enlarges l l' -> enlarges (map f l) (map f l').
Proof.
  induction 1; cbn [map]; constructor; assumption.
Qed.

Lemma count_nonneg {A} (l : list A) : (0 <= count l)%Z.
Proof. unfold count. lia. Qed.

Lemma count_app {A} (l l' : list A) : count (l ++ l')%list = (count l + count l')%Z.
Proof. unfold count. rewrite length_app. lia. Qed.

Lemma tagsFound_enlarges (hay : string) (l l' : list string) :
  enlarges l l' -> (count (tagsFound hay l) <= count (tagsFound hay l'))%Z.
Proof.
  unfold tagsFound.
  induction 1 as [|t l l' _ IH|t l l' _ IH]; cbn [filter].
  - lia.
  - destruct (Js.truthy t && Js.includes hay t); unfold count in *;
      cbn [List.length]; lia.
  - destruct (Js.truthy t && Js.includes hay t); unfold count in *;
      cbn [List.length]; lia.
Qed.

Lemma wordsFound_enlarges (hay : string) (l l' : list string) :
  enlarges l l' -> (count (wordsFound hay l) <= count (wordsFound hay l'))%Z.
Proof.
  unfold wordsFound.
  induction 1 as [|t l l' _ IH|t l l' _ IH]; cbn [flat_map].
  - lia.
  - rewrite !count_app. lia.
  - rewrite count_app.
    pose proof (count_nonneg
                  (filter (fun p => Js.truthy p && Js.includes hay p)
                     (Js.split " "%char t))).
    lia.
Qed.

(** C8.  With the candidate's text, liveness, content type and host fixed,
    the score never decreases when the tag list is enlarged, on the
    grounded path and on the fallback path alike. *)
Theorem score_monotone_in_tags (P : Platform) (item : WebInspiration) (lv : Liveness)
    (tags tags' : list string) :
  enlarges tags tags' ->
  (v_score (scoreGrounded P (map Js.toLowerCase tags) item lv)
   <= v_score (scoreGrounded P (map Js.toLowerCase tags') item lv))%Z
  /\
  (v_score (scoreFallback
              {| s_item := item; s_score := scoreFor P (map Js.toLowerCase tags) item |} lv)
   <= v_score (scoreFallback
                 {| s_item := item; s_score := scoreFor P (map Js.toLowerCase tags') item |}
                 lv))%Z.
Proof.
  intros H. apply (enlarges_map Js.toLowerCase) in H.
  pose proof (tagsFound_enlarges (hayOf item) _ _ H) as Ht.
  pose proof (wordsFound_enlarges (hayOf item) _ _ H) as Hw.
  rewrite !scoreGrounded_closed, !scoreFallback_closed.
  cbn [s_score]. rewrite !scoreFor_closed.
  split; lia.
Qed.

Lemma score_monotone_in_tags_witness :
  (v_score (scoreGrounded (Examples.platform "" "") (map Js.toLowerCase ["Concrete"])
              Examples.towerItem Examples.liveJpeg)
   <= v_score (scoreGrounded (Examples.platform "" "")
                 (map Js.toLowerCase ["Brutalist"; "Concrete"])
                 Examples.towerItem Examples.liveJpeg))%Z
  /\
  (v_score (scoreFallback
              {| s_item := Examples.towerItem;
                 s_score := scoreFor (Examples.platform "" "")
                              (map Js.toLowerCase ["Concrete"]) Examples.towerItem |}
              Examples.liveJpeg)
   <= v_score (scoreFallback
                 {| s_item := Examples.towerItem;
                    s_score := scoreFor (Examples.platform "" "")
                                 (map Js.toLowerCase ["Brutalist"; "Concrete"])
                                 Examples.towerItem |}
                 Examples.liveJpeg))%Z.
Proof.
  apply (score_monotone_in_tags (Examples.platform "" "") Examples.towerItem
           Examples.liveJpeg ["Concrete"] ["Brutalist"; "Concrete"]).
  apply enlarges_add, enlarges_keep, enlarges_nil.
Defined.

(** ** Liveness of a candidate *)

Section CandidateLiveness.

Variable P : Platform.
Variable net : Slot -> Net.
Variable item : WebInspiration.
Variables r1 r2 r3 : CheckResult.
Variables t1 t2 t3 : list Event.

Hypothesis previewChecked :
  checkUrlAlive P (net PreviewCheck) (previewUrl item) = (Ok r1, t1).
Hypothesis pageChecked :
  checkUrlAlive P (net PageCheck) (uri item) = (Ok r2, t2).
Hypothesis snapshotChecked :
  checkUrlAlive P (net SnapshotCheck) (snapshotUrl P (uri item)) = (Ok r3, t3).

Lemma checkLiveness_eq :
  checkLiveness P net item =
  (Ok (if snapshotNeeded P item r1 r2 && alive r3 then
         {| l_imageUrl := snapshotUrl P (uri item); l_alive := true;
            l_contentType := Js.or_opt (contentType r3) (typeAfterPage item r1 r2) |}
       else
         {| l_imageUrl := previewUrl item; l_alive := aliveAfterPage item r1 r2;
            l_contentType := typeAfterPage item r1 r2 |}),
   (t1 ++ (if pageNeeded item r1 then t2 else [])
       ++ (if snapshotNeeded P item r1 r2 then t3 else []))%list).
Proof.
  unfold checkLiveness, snapshotNeeded, aliveAfterPage, typeAfterPage, pageNeeded.
  rewrite previewChecked. cbn [bind].
  destruct (negb (alive r1) && Js.truthy (uri item)).
  - rewrite pageChecked. cbn [bind ret fst snd].
    destruct (negb (alive r2) && Js.truthy (uri item) && Js.truthy (APIFLASH_KEY P)).
    + rewrite snapshotChecked. cbn [bind andb].
      destruct (alive r3); cbn [ret]; rewrite !app_nil_r; reflexivity.
    + cbn [ret andb]. rewrite !app_nil_r. reflexivity.
  - cbn [bind ret fst snd].
    destruct (negb (alive r1) && Js.truthy (uri item) && Js.truthy (APIFLASH_KEY P)).
    + rewrite snapshotChecked. cbn [bind andb].
      destruct (alive r3); cbn [ret app]; rewrite ?app_nil_r; reflexivity.
    + cbn [ret andb app]. rewrite ?app_nil_r. reflexivity.
Qed.

End CandidateLiveness.

Lemma validateGrounded_eq (P : Platform) (W : World) (tagMatchers : list string)
    (i : nat) (item : WebInspiration) (lv : Liveness) (t : list Event) :
  checkLiveness P (netAt W i) item = (Ok lv, t) ->
  validateGrounded P W tagMatchers i item = (Ok (scoreGrounded P tagMatchers item lv), t).
Proof.
  intros H. unfold validateGrounded. rewrite H. cbn. now rewrite app_nil_r.
Qed.

Lemma validateFallback_eq (P : Platform) (W : World)
    (i : nat) (it : Scored) (lv : Liveness) (t : list Event) :
  checkLiveness P (netAt W i) (s_item it) = (Ok lv, t) ->
  validateFallback P W i it = (Ok (scoreFallback it lv), t).
Proof.
  intros H. unfold validateFallback. rewrite H. cbn. now rewrite app_nil_r.
Qed.

(** C10.  For the candidate at index [i], with [r1], [r2], [r3] the answers
    of the liveness check for its preview URL, its page and the snapshot of
    its page: (1) when the preview is reported dead and the page alive, the
    candidate is marked alive and keeps its preview URL, with no snapshot
    check, and so does the validated candidate of either path; (2) the
    preview URL is replaced, and then by the snapshot URL, only when both
    checks report dead, the snapshot key is set and the snapshot check
    reports alive; (3) when both report dead and the key is set, the
    snapshot is checked exactly once, after the two, and it replaces the
    preview exactly when that check reports alive. *)
Theorem liveness_fallback_rules (P : Platform) (W : World) (i : nat)
    (item : WebInspiration) (r1 r2 r3 : CheckResult) (t1 t2 t3 : list Event) :
  checkUrlAlive P (netAt W i PreviewCheck) (previewUrl item) = (Ok r1, t1) ->
  checkUrlAlive P (netAt W i PageCheck) (uri item) = (Ok r2, t2) ->
  checkUrlAlive P (netAt W i SnapshotCheck) (snapshotUrl P (uri item)) = (Ok r3, t3) ->
  (alive r1 = false -> alive r2 = true ->
   checkLiveness P (netAt W i) item
   = (Ok {| l_imageUrl := previewUrl item; l_alive := true;
            l_contentType := Js.or_opt (contentType r1) (contentType r2) |},
      (t1 ++ t2)%list) /\
   (forall tagMatchers v t,
      validateGrounded P W tagMatchers i item = (Ok v, t) ->
      previewUrl (v_item v) = previewUrl item /\ t = (t1 ++ t2)%list) /\
   (forall score v t,
      validateFallback P W i {| s_item := item; s_score := score |} = (Ok v, t) ->
      previewUrl (v_item v) = previewUrl item /\ t = (t1 ++ t2)%list))
  /\
  (forall lv t,
     checkLiveness P (netAt W i) item = (Ok lv, t) ->
     l_imageUrl lv <> previewUrl item ->
     alive r1 = false /\ alive r2 = false /\
     Js.truthy (APIFLASH_KEY P) = true /\ alive r3 = true /\
     l_imageUrl lv = snapshotUrl P (uri item) /\ l_alive lv = true /\
     t = (t1 ++ t2 ++ t3)%list)
  /\
  (alive r1 = false -> alive r2 = false ->
   Js.truthy (uri item) = true -> Js.truthy (APIFLASH_KEY P) = true ->
   checkLiveness P (netAt W i) item
   = (Ok (if alive r3 then
            {| l_imageUrl := snapshotUrl P (uri item); l_alive := true;
               l_contentType :=
                 Js.or_opt (contentType r3)
                   (Js.or_opt (contentType r1) (contentType r2)) |}
          else
            {| l_imageUrl := previewUrl item; l_alive := false;
               l_contentType := Js.or_opt (contentType r1) (contentType r2) |}),
      (t1 ++ t2 ++ t3)%list)).
Proof.
  intros H1 H2 H3.
  pose proof (checkLiveness_eq P (netAt W i) item r1 r2 r3 t1 t2 t3 H1 H2 H3) as E.
  unfold snapshotNeeded, aliveAfterPage, typeAfterPage, pageNeeded in E.
  split; [|split].
  - intros D1 A2.
    assert (Hu : Js.truthy (uri item) = true).
    { destruct (Js.truthy (uri item)) eqn:Hu; [reflexivity|].
      destruct (uri item); [|discriminate].
      unfold checkUrlAlive in H2. cbn in H2.
      injection H2 as <- _. discriminate. }
    rewrite D1, Hu, A2 in E. cbn [negb andb] in E. rewrite app_nil_r in E.
    split; [exact E|]. split.
    + intros tm v t Hv.
      rewrite (validateGrounded_eq _ _ _ _ _ _ _ E) in Hv.
      injection Hv as <- <-. split; reflexivity.
    + intros score v t Hv.
      rewrite (validateFallback_eq P W i {| s_item := item; s_score := score |} _ _ E)
        in Hv.
      injection Hv as <- <-. split; reflexivity.
  - intros lv t Hlv Hne. rewrite E in Hlv. clear E.
    destruct (alive r1) eqn:A1; cbn [negb andb] in Hlv.
    + injection Hlv as <- _. now elim Hne.
    + destruct (Js.truthy (uri item)) eqn:Hu; cbn [negb andb] in Hlv.
      * destruct (alive r2) eqn:A2; cbn [negb andb] in Hlv.
        { injection Hlv as <- _. now elim Hne. }
        destruct (Js.truthy (APIFLASH_KEY P)) eqn:Hk; cbn [andb] in Hlv.
        2:{ injection Hlv as <- _. now elim Hne. }
        destruct (alive r3) eqn:A3.
        2:{ injection Hlv as <- _. now elim Hne. }
        injection Hlv as <- <-. repeat split; reflexivity.
      * injection Hlv as <- _. now elim Hne.
  - intros D1 D2 Hu Hk.
    rewrite D1, D2, Hu, Hk in E. cbn [negb andb] in E.
    rewrite E. destruct (alive r3); reflexivity.
Qed.

Lemma liveness_fallback_rules_witness :
  checkLiveness (Examples.platform "" "") (Examples.pageOnlyNet 0) Examples.towerItem
  = (Ok {| l_imageUrl := "https://example.org/tower.jpg"; l_alive := true;
           l_contentType := Some "text/html" |},
     (snd (checkUrlAlive (Examples.platform "" "") (Examples.proxyNet false "")
             "https://example.org/tower.jpg")
      ++ snd (checkUrlAlive (Examples.platform "" "") (Examples.proxyNet true "text/html")
                "https://example.org/tower"))%list).
Proof.
  pose proof
    (liveness_fallback_rules (Examples.platform "" "")
       (Examples.world PexNotOk (Ok []) (Ok "") Examples.pageOnlyNet) 0
       Examples.towerItem
       {| alive := false; contentType := None |}
       {| alive := true; contentType := Some "text/html" |}
       {| alive := true; contentType := Some "image/jpeg" |}
       (snd (checkUrlAlive (Examples.platform "" "") (Examples.proxyNet false "")
               "https://example.org/tower.jpg"))
       (snd (checkUrlAlive (Examples.platform "" "") (Examples.proxyNet true "text/html")
               "https://example.org/tower"))
       (snd (checkUrlAlive (Examples.platform "" "") (Examples.proxyNet true "image/jpeg")
               (snapshotUrl (Examples.platform "" "") "https://example.org/tower")))
       eq_refl eq_refl eq_refl) as [H _].
  exact (proj1 (H eq_refl eq_refl)).
Defined.

(** ** Running the validations *)

Lemma checkLiveness_total (P : Platform) (net : Slot -> Net) (item : WebInspiration) :
  exists lv t, checkLiveness P net item = (Ok lv, t).
Proof.
  destruct (checkUrlAlive_total P (net PreviewCheck) (previewUrl item)) as (r1 & t1 & H1).
  destruct (checkUrlAlive_total P (net PageCheck) (uri item)) as (r2 & t2 & H2).
  destruct (checkUrlAlive_total P (net SnapshotCheck) (snapshotUrl P (uri item)))
    as (r3 & t3 & H3).
  rewrite (checkLiveness_eq P net item _ _ _ _ _ _ H1 H2 H3). eauto.
Qed.

Lemma validateGrounded_total (P : Platform) (W : World) (tagMatchers : list string)
    (i : nat) (item : WebInspiration) :
  exists v t, validateGrounded P W tagMatchers i item = (Ok v, t) /\
              uri (v_item v) = uri item.
Proof.
  destruct (checkLiveness_total P (netAt W i) item) as (lv & t & H).
  rewrite (validateGrounded_eq _ _ _ _ _ _ _ H). eauto.
Qed.

Lemma validateFallback_total (P : Platform) (W : World) (i : nat) (it : Scored) :
  exists v t, validateFallback P W i it = (Ok v, t) /\
              uri (v_item v) = uri (s_item it).
Proof.
  destruct (checkLiveness_total P (netAt W i) (s_item it)) as (lv & t & H).
  rewrite (validateFallback_eq _ _ _ _ _ _ H). eauto.
Qed.

(** [Promise.all] over callbacks that all resolve: it resolves, to one
    result per element, in order. *)
Lemma mapM_from_total {A B} (f : nat -> A -> M B) (R : A -> B -> Prop) :
  (forall i x, exists y t, f i x = (Ok y, t) /\ R x y) ->
  forall l i, exists ys t, mapM_from f i l = (Ok ys, t) /\ Forall2 R l ys.
Proof.
  intros Hf. induction l as [|x l IH]; intros i; cbn [mapM_from].
  - exists [], []. split; [reflexivity | constructor].
  - destruct (Hf i x) as (y & t & E & Hr).
    destruct (IH (S i)) as (ys & t' & E' & Hrs).
    rewrite E. cbn [bind]. rewrite E'. cbn.
    eexists; eexists; split; [reflexivity|]. constructor; assumption.
Qed.

Lemma Forall2_map_eq {A B K} (f : A -> K) (g : B -> K) (l : list A) (l' : list B) :
  Forall2 (fun x y => g y = f x) l l' -> map g l' = map f l.
Proof.
  induction 1 as [|x y l l' E _ IH]; cbn [map]; [reflexivity|].
  now rewrite E, IH.
Qed.

Lemma validated_grounded (P : Platform) (W : World) (tagMatchers : list string)
    (cands : list WebInspiration) :
  exists validated t,
    mapM_from (validateGrounded P W tagMatchers) 0 cands = (Ok validated, t) /\
    map (fun v => uri (v_item v)) validated = map uri cands.
Proof.
  destruct (mapM_from_total (validateGrounded P W tagMatchers)
              (fun x v => uri (v_item v) = uri x)
              (validateGrounded_total P W tagMatchers) cands 0) as (vs & t & E & F).
  exists vs, t. split; [exact E|]. now apply Forall2_map_eq.
Qed.

Lemma validated_fallback (P : Platform) (W : World) (cands : list Scored) :
  exists validated t,
    mapM_from (validateFallback P W) 0 cands = (Ok validated, t) /\
    map (fun v => uri (v_item v)) validated = map (fun c => uri (s_item c)) cands.
Proof.
  destruct (mapM_from_total (validateFallback P W)
              (fun x v => uri (v_item v) = uri (s_item x))
              (validateFallback_total P W) cands 0) as (vs & t & E & F).
  exists vs, t. split; [exact E|].
  now apply (Forall2_map_eq (fun c => uri (s_item c)) (fun v => uri (v_item v))).
Qed.

(** ** Ranking and selection *)

Lemma insertDesc_perm {A} (score : A -> Z) (x : A) (l : list A) :
  Permutation (x :: l) (insertDesc score x l).
Proof.
  induction l as [|y l IH]; cbn [insertDesc]; [reflexivity|].
  destruct (score x <? score y)%Z; [|reflexivity].
  rewrite perm_swap. now constructor.
Qed.

Lemma sortDesc_perm {A} (score : A -> Z) (l : list A) :
  Permutation l (sortDesc score l).
Proof.
  induction l as [|x l IH]; cbn [sortDesc fold_right]; [constructor|].
  rewrite <- insertDesc_perm. now constructor.
Qed.

Lemma slice0_length {A} (l : list A) (n : Z) :
  (0 <= n)%Z -> (Z.of_nat (List.length (Js.slice0 l n)) <= n)%Z.
Proof.
  intros Hn. unfold Js.slice0.
  destruct (n <? 0)%Z eqn:E; [apply Z.ltb_lt in E; lia|].
  rewrite length_firstn. lia.
Qed.

Lemma slice0_idem {A} (l : list A) (n : Z) :
  (0 <= n)%Z -> Js.slice0 (Js.slice0 l n) n = Js.slice0 l n.
Proof.
  intros Hn. pose proof (slice0_length l n Hn) as Hl.
  unfold Js.slice0 at 1.
  destruct (n <? 0)%Z eqn:E; [apply Z.ltb_lt in E; lia|].
  apply firstn_all2. lia.
Qed.

Lemma In_firstn {A} (x : A) (n : nat) (l : list A) :
  In x (firstn n l) -> In x l.
Proof.
  revert n. induction l as [|y l IH]; intros [|n]; cbn; try tauto.
  intros [E|H]; [now left | right; eauto].
Qed.

Lemma NoDup_map_firstn {A K} (f : A -> K) (n : nat) (l : list A) :
  NoDup (map f l) -> NoDup (map f (firstn n l)).
Proof.
  revert n. induction l as [|x l IH]; intros [|n] H; cbn; try constructor.
  - inversion H as [|? ? Hx Hl]; subst.
    intros Hin. apply Hx. apply in_map_iff in Hin as (y & <- & Hy).
    apply in_map. now apply (In_firstn y n l).
  - inversion H; subst. now apply IH.
Qed.

Lemma NoDup_map_filter {A K} (f : A -> K) (p : A -> bool) (l : list A) :
  NoDup (map f l) -> NoDup (map f (filter p l)).
Proof.
  induction l as [|x l IH]; intros H; cbn [filter map]; [constructor|].
  inversion H as [|? ? Hx Hl]; subst.
  destruct (p x); cbn [map]; [|now apply IH].
  constructor; [|now apply IH].
  intros Hin. apply Hx. apply in_map_iff in Hin as (y & <- & Hy).
  apply in_map. now apply filter_In in Hy.
Qed.

Lemma NoDup_map_sortDesc {A K} (f : A -> K) (score : A -> Z) (l : list A) :
  NoDup (map f l) -> NoDup (map f (sortDesc score l)).
Proof.
  apply Permutation_NoDup, Permutation_map, sortDesc_perm.
Qed.

Lemma NoDup_map_slice0 {A K} (f : A -> K) (l : list A) (n : Z) :
  NoDup (map f l) -> NoDup (map f (Js.slice0 l n)).
Proof. apply NoDup_map_firstn. Qed.

Lemma selectResults_length (validated : list Validated) (n : Z) :
  (0 <= n)%Z -> (Z.of_nat (List.length (selectResults validated n)) <= n)%Z.
Proof.
  intros Hn. unfold selectResults. rewrite length_map. now apply slice0_length.
Qed.

Lemma selectResults_NoDup (validated : list Validated) (n : Z) :
  NoDup (map (fun v => uri (v_item v)) validated) ->
  NoDup (map uri (selectResults validated n)).
Proof.
  intros H. unfold selectResults. rewrite map_map.
  now apply NoDup_map_slice0, NoDup_map_sortDesc, NoDup_map_filter.
Qed.

(** ** The stages of the pipeline *)

Lemma bind_ok {A B} (m : M A) (f : A -> M B) (a : A) (t : list Event) :
  m = (Ok a, t) -> bind m f = (fst (f a), (t ++ snd (f a))%list).
Proof. intros ->. unfold bind. now destruct (f a). Qed.

Lemma bind_throw {A B} (m : M A) (f : A -> M B) (msg : string) (t : list Event) :
  m = (Throw msg, t) -> bind m f = (Throw msg, t).
Proof. now intros ->. Qed.

Lemma stockStage_nokey (P : Platform) (W : World) (intent : SearchIntent) (count : Z) :
  Js.truthy (getPexelsKey P) = false ->
  stockStage P W intent count = (Ok None, []).
Proof. intros H. unfold stockStage. now rewrite H. Qed.

Lemma stockStage_key (P : Platform) (W : World) (intent : SearchIntent) (count : Z) :
  Js.truthy (getPexelsKey P) = true ->
  stockStage P W intent count
  = (Ok (match stockItems P W intent count with
         | [] => None
         | items =>
             if (Z.min 1 count <=? Z.of_nat (List.length (Js.slice0 items count)))%Z
             then Some (Js.slice0 (Js.slice0 items count) count)
             else None
         end),
     [EvPexels (pexelsRequestUrl P (pexQueryOf intent) count)]).
Proof.
  intros H. unfold stockStage, searchPexels, stockItems. rewrite H. cbn [negb].
  destruct (pexelsReply W _) as [| | |photos]; try reflexivity.
  destruct (pexelsMapped photos) as [|x items]; [reflexivity|].
  cbn [List.length Nat.eqb bind emit ret].
  destruct (Z.min 1 count <=? _)%Z; reflexivity.
Qed.

Lemma try_catch_empty {A} (m : M (list A)) :
  exists l t, try_catch m (fun _ => ret []) = (Ok l, t).
Proof.
  destruct m as [[l|msg] t]; cbn; eauto.
Qed.

Lemma groundedPath_total (P : Platform) (W : World) (tags : list string)
    (chunks : list GroundingChunk) (count : Z) :
  exists validated t,
    mapM_from (validateGrounded P W (map Js.toLowerCase tags)) 0 (rawCandidates P chunks)
    = (Ok validated, t) /\
    map (fun v => uri (v_item v)) validated = map uri (rawCandidates P chunks) /\
    groundedPath P W tags chunks count = (Ok (selectResults validated count), t).
Proof.
  destruct (validated_grounded P W (map Js.toLowerCase tags) (rawCandidates P chunks))
    as (vs & t & E & Hu).
  exists vs, t. repeat split; try assumption.
  unfold groundedPath. rewrite E. cbn. now rewrite app_nil_r.
Qed.

Lemma findBody_eq (P : Platform) (W : World) (count : Z) (text : string) :
  apiInitialized W = true ->
  synthesisReply W = Ok text ->
  findBody P W count
  = (emit EvSynthesis ;;;
     stock <- stockStage P W (parseIntent text) count ;;
     match stock with
     | Some l => ret l
     | None => searchStages P W (attributeTags (parseIntent text)) count
     end)%m.
Proof.
  intros Hi Hs. unfold findBody, getAI. rewrite Hi, Hs.
  cbn [bind ret emit app].
  destruct (stockStage P W (parseIntent text) count) as [[[l|]|msg] t];
    cbn [bind ret emit app]; try reflexivity.
  destruct (searchStages P W _ count) as [? ?]; reflexivity.
Qed.

Lemma searchStages_throw (P : Platform) (W : World) (tags : list string) (count : Z)
    (msg : string) :
  apiInitialized W = true ->
  groundedReply W = Throw msg ->
  searchStages P W tags count = (Throw msg, [EvGroundedSearch]).
Proof. intros Hi H. unfold searchStages, getAI. rewrite Hi, H. reflexivity. Qed.

Lemma mapItems_trace (P : Platform) (elems : list JsonElem) :
  snd (mapItems P elems) = [].
Proof.
  induction elems as [|[|o] elems IH]; cbn [mapItems]; try reflexivity.
  destruct (mapItems P elems) as [[items|msg] t]; cbn in *; subst; reflexivity.
Qed.

Lemma fallbackPath_cases (P : Platform) (W : World) (tags : list string) (count : Z) :
  exists l t,
    fallbackPath P W tags count = (Ok l, t) /\ fallbackReturn P W tags count l.
Proof.
  unfold fallbackPath, fallbackBody, getAI, fallbackReturn.
  destruct (apiInitialized W); [|cbn; eauto].
  destruct (fallbackReply W) as [reply|msg] eqn:Er; [|cbn; eauto].
  cbn [bind emit ret app].
  destruct (parseFallback P W (Js.trim reply) count) as [[|e elems]|] eqn:Ep;
    [cbn; eauto| |cbn; eauto].
  pose proof (mapItems_trace P (e :: elems)) as Ht.
  destruct (mapItems P (e :: elems)) as [[items|msg] ti] eqn:Em;
    cbn in Ht; subst ti; [|cbn; eauto].
  cbn [bind app].
  destruct (validated_fallback P W
              (harvest P (Js.trim reply) count (fallbackCandidates P tags items)))
    as (vs & t & Ev & Hu).
  rewrite Ev. cbn [bind ret app try_catch].
  eexists; eexists; split; [reflexivity|]. right.
  exists reply, (e :: elems), items, vs, t. repeat split; assumption.
Qed.

Lemma searchStages_returns (P : Platform) (W : World) (tags : list string) (count : Z)
    (l : list WebInspiration) (t : list Event) :
  searchStages P W tags count = (Ok l, t) ->
  (exists chunks validated tv,
     groundedReply W = Ok chunks /\ chunks <> [] /\
     mapM_from (validateGrounded P W (map Js.toLowerCase tags)) 0 (rawCandidates P chunks)
     = (Ok validated, tv) /\
     map (fun v => uri (v_item v)) validated = map uri (rawCandidates P chunks) /\
     l = selectResults validated count)
  \/
  (groundedReply W = Ok [] /\ fallbackReturn P W tags count l).
Proof.
  unfold searchStages, getAI.
  destruct (apiInitialized W); [|discriminate].
  destruct (groundedReply W) as [[|c cs]|msg] eqn:Eg; cbn [bind emit ret app].
  - destruct (fallbackPath_cases P W tags count) as (l' & t' & E & Hf).
    rewrite E. cbn. intros H. injection H as <- _. right. split; [reflexivity | exact Hf].
  - destruct (groundedPath_total P W tags (c :: cs) count) as (vs & tv & Ev & Hu & Eg').
    rewrite Eg'. cbn. intros H. injection H as <- _. left.
    exists (c :: cs), vs, tv. repeat split; try assumption. discriminate.
  - discriminate.
Qed.

Lemma findWebInspiration_body (P : Platform) (W : World) (count : Z)
    (l : list WebInspiration) (t : list Event) :
  findWebInspiration P W count = (Ok l, t) -> findBody P W count = (Ok l, t).
Proof.
  unfold findWebInspiration.
  destruct (findBody P W count) as [[l'|msg] t']; cbn; [trivial | discriminate].
Qed.

Lemma findWebInspiration_returns (P : Platform) (W : World) (count : Z)
    (l : list WebInspiration) :
  fst (findWebInspiration P W count) = Ok l -> returnsVia P W count l.
Proof.
  destruct (findWebInspiration P W count) as [r t] eqn:E. cbn [fst]. intros ->.
  apply findWebInspiration_body in E.
  destruct (apiInitialized W) eqn:Hi.
  2:{ unfold findBody, getAI in E. rewrite Hi in E. discriminate. }
  destruct (synthesisReply W) as [text|msg] eqn:Hs.
  2:{ unfold findBody, getAI in E. rewrite Hi, Hs in E. discriminate. }
  rewrite (findBody_eq P W count text Hi Hs) in E.
  exists text. split; [assumption|]. split; [assumption|].
  assert (Hsearch : forall t',
             searchStages P W (attributeTags (parseIntent text)) count = (Ok l, t') ->
             (exists chunks validated tv,
                groundedReply W = Ok chunks /\ chunks <> [] /\
                mapM_from (validateGrounded P W
                             (map Js.toLowerCase (attributeTags (parseIntent text))))
                  0 (rawCandidates P chunks) = (Ok validated, tv) /\
                map (fun v => uri (v_item v)) validated = map uri (rawCandidates P chunks) /\
                l = selectResults validated count)
             \/
             (groundedReply W = Ok [] /\
              fallbackReturn P W (attributeTags (parseIntent text)) count l)).
  { intros t'. apply searchStages_returns. }
  destruct (Js.truthy (getPexelsKey P)) eqn:Hk.
  - rewrite (stockStage_key P W _ count Hk) in E.
    destruct (stockItems P W (parseIntent text) count) as [|x items] eqn:Hitems.
    + cbn [bind emit app] in E.
      destruct (searchStages P W _ count) as [[l'|msg] t'] eqn:Es; [|discriminate].
      injection E as <- _. right. eapply Hsearch; eauto.
    + cbv zeta in E.
      destruct (Z.min 1 count <=? Z.of_nat (List.length (Js.slice0 (x :: items) count)))%Z.
      * cbn in E. injection E as <- _. left. repeat split. discriminate.
      * cbn [bind emit app] in E.
        destruct (searchStages P W _ count) as [[l'|msg] t'] eqn:Es; [|discriminate].
        injection E as <- _. right. eapply Hsearch; eauto.
  - rewrite (stockStage_nokey P W _ count Hk) in E. cbn [bind emit app] in E.
    destruct (searchStages P W _ count) as [[l'|msg] t'] eqn:Es; [|discriminate].
    injection E as <- _. right. eapply Hsearch; eauto.
Qed.

(** ** The length of the result *)

(** C5.  For a requested count [count >= 0], a list that
    [findWebInspiration] returns has between 0 and [count] entries, whether
    it comes from the stock-photo stage, the grounded path or the fallback
    path. *)
Theorem result_length_bounded (P : Platform) (W : World) (count : Z)
    (l : list WebInspiration) :
  (0 <= count)%Z ->
  fst (findWebInspiration P W count) = Ok l ->
  (0 <= Z.of_nat (List.length l) <= count)%Z.
Proof.
  intros Hn H. split; [lia|].
  apply findWebInspiration_returns in H.
  destruct H as (text & _ & _ & [(_ & _ & ->) | [(chunks & vs & t & _ & _ & _ & _ & ->) | (_ & Hf)]]).
  - now apply slice0_length.
  - now apply selectResults_length.
  - destruct Hf as [-> | (reply & elems & items & vs & t & _ & _ & _ & _ & _ & ->)].
    + cbn. lia.
    + now apply selectResults_length.
Qed.

Lemma result_length_bounded_witness :
  (0 <= 1)%Z /\
  (0 <= Z.of_nat
          (List.length
             [{| uri := "https://example.org/tower"; title := "Concrete tower";
                 source := "example.org";
                 previewUrl := "https://example.org/tower.jpg";
                 matchReason := Some "" |}]) <= 1)%Z.
Proof.
  split; [lia|].
  apply (result_length_bounded (Examples.platform "" "") Examples.twiceCited 1);
    [lia | reflexivity].
Defined.

(** ** The uris of the result *)

Lemma existsb_uri_false (l : list Scored) (u : string) :
  existsb (fun x => String.eqb (uri (s_item x)) u) l = false ->
  ~ In u (map suri l).
Proof.
  induction l as [|x l IH]; cbn [existsb map]; [tauto|].
  intros H. apply orb_false_iff in H as [Hx Hl].
  intros [E|Hin]; [|now apply IH].
  unfold suri in E. rewrite E, String.eqb_refl in Hx. discriminate.
Qed.

Lemma harvestStep_NoDup (P : Platform) (count : Z) (l : list Scored) (u : string) :
  NoDup (map suri l) -> NoDup (map suri (harvestStep P count l u)).
Proof.
  intros H. unfold harvestStep.
  destruct (count <=? Z.of_nat (List.length l))%Z; [exact H|].
  destruct (existsb _ l) eqn:E; [exact H|].
  rewrite map_app. cbn [map].
  apply (Permutation_NoDup (Permutation_cons_append (map suri l) (suri (harvested P u)))).
  constructor; [|exact H]. now apply existsb_uri_false.
Qed.

Lemma harvest_NoDup (P : Platform) (text : string) (count : Z) (l : list Scored) :
  NoDup (map suri l) -> NoDup (map suri (harvest P text count l)).
Proof.
  unfold harvest. destruct (_ <? count)%Z; [|trivial].
  generalize (filter Js.truthy
                (Js.uniq (Js.slice0 (Scan.match_urls Scan.stop2 text) (count * 3)))).
  intros urls. revert l.
  induction urls as [|u urls IH]; intros l H; cbn [fold_left]; [exact H|].
  apply IH. now apply harvestStep_NoDup.
Qed.

Lemma fallbackCandidates_NoDup (P : Platform) (tags : list string)
    (items : list WebInspiration) :
  NoDup (map uri (filter (fun i => Js.truthy (uri i)) items)) ->
  NoDup (map suri (fallbackCandidates P tags items)).
Proof.
  intros H. unfold fallbackCandidates.
  apply NoDup_map_sortDesc. rewrite map_map. exact H.
Qed.

(** C1, as the code has it.  [findWebInspiration] removes no duplicate:
    the returned list has no two entries with the same [uri] provided the
    candidates of the stage it comes from have pairwise distinct uris (the
    stock-photo items that have both URLs; the usable grounding chunks; the
    parsed fallback items that have a uri).  The harvest of the fallback
    path never adds a URL that is already there. *)
Theorem result_uris_distinct (P : Platform) (W : World) (count : Z)
    (l : list WebInspiration) :
  (forall text, synthesisReply W = Ok text ->
     NoDup (map uri (stockItems P W (parseIntent text) count))) ->
  (forall chunks, groundedReply W = Ok chunks ->
     NoDup (map uri (rawCandidates P chunks))) ->
  (forall reply elems items,
     fallbackReply W = Ok reply ->
     parseFallback P W (Js.trim reply) count = JsonArray elems ->
     mapItems P elems = (Ok items, []) ->
     NoDup (map uri (filter (fun i => Js.truthy (uri i)) items))) ->
  fst (findWebInspiration P W count) = Ok l ->
  NoDup (map uri l).
Proof.
  intros Hstock Hgrounded Hfallback H.
  apply findWebInspiration_returns in H.
  destruct H as (text & _ & Hs & [(_ & _ & ->) | [(chunks & vs & t & Eg & _ & _ & Hu & ->) | (_ & Hf)]]).
  - now apply NoDup_map_slice0, NoDup_map_slice0, Hstock.
  - apply selectResults_NoDup. rewrite Hu. now apply Hgrounded.
  - destruct Hf as [-> | (reply & elems & items & vs & t & Er & Ep & Em & _ & Hu & ->)].
    + constructor.
    + apply selectResults_NoDup. rewrite Hu.
      apply harvest_NoDup, fallbackCandidates_NoDup.
      eapply Hfallback; eassumption.
Qed.

Lemma result_uris_distinct_witness :
  NoDup
    (map uri
       [{| uri := "https://example.org/tower"; title := "Concrete tower";
           source := "example.org"; previewUrl := "https://example.org/tower.jpg";
           matchReason := Some "" |};
        {| uri := "https://example.org/slab"; title := "Concrete slab";
           source := "example.org"; previewUrl := "https://example.org/slab.jpg";
           matchReason := Some "" |}]).
Proof.
  apply (result_uris_distinct (Examples.platform "" "") Examples.twoCited 3).
  - intros text _. constructor.
  - intros chunks H. injection H as <-. vm_compute.
    repeat constructor; cbn; intuition discriminate.
  - intros reply elems items H1 H2 H3. injection H1 as <-.
    vm_compute in H2. injection H2 as <-.
    cbn in H3. injection H3 as <-. constructor.
  - reflexivity.
Defined.

(** Counterexample for C1: a page cited twice by the grounded search is
    returned twice. *)
Lemma result_uris_repeated :
  exists x,
    fst (findWebInspiration (Examples.platform "" "") Examples.twiceCited 3) = Ok [x; x] /\
    ~ NoDup (map uri [x; x]).
Proof.
  eexists. split; [reflexivity|].
  intros H. inversion H as [|? ? Hin _]; subst. apply Hin. now left.
Qed.

(** ** Errors of the stages *)

Lemma stockStage_total (P : Platform) (W : World) (intent : SearchIntent) (count : Z) :
  exists r t, stockStage P W intent count = (Ok r, t).
Proof.
  destruct (Js.truthy (getPexelsKey P)) eqn:Hk.
  - rewrite (stockStage_key P W intent count Hk). eauto.
  - rewrite (stockStage_nokey P W intent count Hk). eauto.
Qed.

Lemma searchStages_ok (P : Platform) (W : World) (tags : list string) (count : Z)
    (chunks : list GroundingChunk) :
  apiInitialized W = true ->
  groundedReply W = Ok chunks ->
  exists l t, searchStages P W tags count = (Ok l, t).
Proof.
  intros Hi Eg. unfold searchStages, getAI. rewrite Hi, Eg. cbn [bind emit ret app].
  destruct chunks as [|c cs].
  - destruct (fallbackPath_cases P W tags count) as (l & t & E & _).
    rewrite E. cbn. eauto.
  - destruct (groundedPath_total P W tags (c :: cs) count) as (vs & t & _ & _ & E).
    rewrite E. cbn. eauto.
Qed.

Lemma fallbackPath_rejected (P : Platform) (W : World) (tags : list string) (count : Z)
    (msg : string) :
  apiInitialized W = true ->
  fallbackReply W = Throw msg ->
  fallbackPath P W tags count = (Ok [], [EvFallbackSearch]).
Proof.
  intros Hi Hf. unfold fallbackPath, fallbackBody, getAI. rewrite Hi, Hf. reflexivity.
Qed.

Lemma findWebInspiration_of_body (P : Platform) (W : World) (count : Z) :
  fst (findWebInspiration P W count)
  = match fst (findBody P W count) with
    | Ok l => Ok l
    | Throw msg => Throw ("Failed to find inspiration: " ++ msg)
    end.
Proof.
  unfold findWebInspiration.
  destruct (findBody P W count) as [[l|msg] t]; reflexivity.
Qed.

(** C3, as the code has it.  Once the query is synthesised: the
    stock-photo stage never throws, and yields nothing when its request
    fails; if the grounded search call itself does not reject,
    [findWebInspiration] returns normally whatever the stock-photo request,
    the fallback call, the parsing and the liveness checks do, and it
    returns the empty list when the fallback call is the one that rejects;
    but when the stock-photo stage has not returned and the grounded search
    call rejects with [msg], the call throws
    ["Failed to find inspiration: " ++ msg]. *)
Theorem stage_errors_recovered (P : Platform) (W : World) (count : Z) (text : string) :
  apiInitialized W = true ->
  synthesisReply W = Ok text ->
  (exists r, fst (stockStage P W (parseIntent text) count) = Ok r) /\
  (stockItems P W (parseIntent text) count = [] ->
   fst (stockStage P W (parseIntent text) count) = Ok None) /\
  (forall chunks, groundedReply W = Ok chunks ->
   exists l, fst (findWebInspiration P W count) = Ok l) /\
  (forall msg, groundedReply W = Ok [] -> fallbackReply W = Throw msg ->
   fst (stockStage P W (parseIntent text) count) = Ok None ->
   fst (findWebInspiration P W count) = Ok []) /\
  (forall msg, groundedReply W = Throw msg ->
   fst (stockStage P W (parseIntent text) count) = Ok None ->
   fst (findWebInspiration P W count) = Throw ("Failed to find inspiration: " ++ msg)).
Proof.
  intros Hi Hs.
  pose proof (findBody_eq P W count text Hi Hs) as Eb.
  destruct (stockStage_total P W (parseIntent text) count) as (r & ts & Est).
  rewrite Est in Eb. cbn [bind emit app] in Eb.
  split; [|split; [|split; [|split]]].
  - exists r. now rewrite Est.
  - intros Hnone.
    destruct (Js.truthy (getPexelsKey P)) eqn:Hk.
    + rewrite (stockStage_key P W _ count Hk), Hnone. reflexivity.
    + rewrite (stockStage_nokey P W _ count Hk). reflexivity.
  - intros chunks Eg. rewrite findWebInspiration_of_body, Eb.
    destruct r as [l|]; [cbn; eauto|].
    destruct (searchStages_ok P W (attributeTags (parseIntent text)) count chunks Hi Eg)
      as (l & t & E).
    rewrite E. cbn. eauto.
  - intros msg Eg Ef Hnone. rewrite Est in Hnone. cbn in Hnone.
    injection Hnone as ->.
    rewrite findWebInspiration_of_body, Eb.
    unfold searchStages, getAI. rewrite Hi, Eg. cbn [bind emit ret app].
    rewrite (fallbackPath_rejected P W _ count msg Hi Ef). reflexivity.
  - intros msg Eg Hnone. rewrite Est in Hnone. cbn in Hnone.
    injection Hnone as ->.
    rewrite findWebInspiration_of_body, Eb.
    rewrite (searchStages_throw P W _ count msg Hi Eg). reflexivity.
Qed.

Lemma stage_errors_recovered_witness :
  fst (findWebInspiration (Examples.platform "key" "")
         (Examples.world PexFetchFails (Ok []) (Throw "model overloaded") Examples.jpegNet)
         3) = Ok [].
Proof.
  destruct (stage_errors_recovered (Examples.platform "key" "")
              (Examples.world PexFetchFails (Ok []) (Throw "model overloaded")
                 Examples.jpegNet)
              3 Examples.description eq_refl eq_refl) as (_ & _ & _ & H & _).
  exact (H "model overloaded" eq_refl eq_refl eq_refl).
Defined.

(** Counterexample for C3: the query is synthesised, the grounded search
    call is rejected, and the caller gets the error. *)
Lemma grounded_error_propagates :
  apiInitialized Examples.searchRejected = true /\
  synthesisReply Examples.searchRejected = Ok Examples.description /\
  groundedReply Examples.searchRejected = Throw "quota exceeded" /\
  findWebInspiration (Examples.platform "" "") Examples.searchRejected 3
  = (Throw "Failed to find inspiration: quota exceeded", [EvSynthesis; EvGroundedSearch]).
Proof. repeat split. Qed.

(** ** The stock-photo stage *)

Lemma slice0_length_eq {A} (l : list A) (n : Z) :
  (0 <= n)%Z ->
  Z.of_nat (List.length (Js.slice0 l n)) = Z.min n (Z.of_nat (List.length l)).
Proof.
  intros Hn. unfold Js.slice0.
  destruct (n <? 0)%Z eqn:E; [apply Z.ltb_lt in E; lia|].
  rewrite length_firstn. lia.
Qed.

(** C6, as the code has it.  When a stock-photo key is configured and the
    search yields at least one item that has both URLs, then, for a count
    [count >= 0], [findWebInspiration] returns those items cut to [count],
    and its trace holds the synthesis call and the stock-photo request
    only: no grounded search, no fallback call, no liveness check. *)
Theorem stock_stage_short_circuits (P : Platform) (W : World) (count : Z) (text : string) :
  apiInitialized W = true ->
  synthesisReply W = Ok text ->
  Js.truthy (getPexelsKey P) = true ->
  (0 <= count)%Z ->
  (1 <= Z.of_nat (List.length (stockItems P W (parseIntent text) count)))%Z ->
  findWebInspiration P W count
  = (Ok (Js.slice0 (stockItems P W (parseIntent text) count) count),
     [EvSynthesis; EvPexels (pexelsRequestUrl P (pexQueryOf (parseIntent text)) count)]).
Proof.
  intros Hi Hs Hk Hn Hlen.
  unfold findWebInspiration.
  rewrite (findBody_eq P W count text Hi Hs), (stockStage_key P W _ count Hk).
  pose proof (slice0_length_eq (stockItems P W (parseIntent text) count) count Hn) as Hl.
  destruct (stockItems P W (parseIntent text) count) as [|x items] eqn:Hitems.
  - cbn in Hlen. lia.
  - cbv zeta.
    replace (Z.min 1 count <=? Z.of_nat (List.length (Js.slice0 (x :: items) count)))%Z
      with true by (symmetry; apply Z.leb_le; lia).
    rewrite (slice0_idem (x :: items) count Hn). reflexivity.
Qed.

Lemma stock_stage_short_circuits_witness :
  findWebInspiration (Examples.platform "key" "") Examples.twoPhotos 1
  = (Ok (Js.slice0
           (stockItems (Examples.platform "key" "") Examples.twoPhotos
              (parseIntent Examples.description) 1) 1),
     [EvSynthesis;
      EvPexels (pexelsRequestUrl (Examples.platform "key" "")
                  (pexQueryOf (parseIntent Examples.description)) 1)]).
Proof.
  apply (stock_stage_short_circuits (Examples.platform "key" "") Examples.twoPhotos 1
           Examples.description);
    try reflexivity; vm_compute; discriminate.
Defined.

(** Counterexample for C6: with a key configured, a count of 0 and a reply
    without photos, the search yields min(1, 0) = 0 items, yet the grounded
    search and the fallback call are made. *)
Lemma stock_stage_empty_falls_through :
  Js.truthy (getPexelsKey (Examples.platform "key" "")) = true /\
  (Z.min 1 0
   <= Z.of_nat (List.length (stockItems (Examples.platform "key" "") Examples.noPhotos
                               (parseIntent Examples.description) 0)))%Z /\
  In EvGroundedSearch
    (snd (findWebInspiration (Examples.platform "key" "") Examples.noPhotos 0)) /\
  In EvFallbackSearch
    (snd (findWebInspiration (Examples.platform "key" "") Examples.noPhotos 0)).
Proof.
  split; [reflexivity|]. split; [vm_compute; discriminate|].
  vm_compute. tauto.
Qed.

(** ** Documents among the results *)

Lemma b2z_nonneg (b : bool) : (0 <= b2z b)%Z.
Proof. destruct b; cbn; lia. Qed.

(** A candidate reported alive is accepted on the grounded path, whatever
    its content type: its score has the 2 of liveness in it when the filter
    reads it, also when [_alive] has been cleared for a PDF. *)
Lemma alive_accepted_grounded (P : Platform) (tagMatchers : list string)
    (item : WebInspiration) (lv : Liveness) :
  l_alive lv = true -> accepted (scoreGrounded P tagMatchers item lv) = true.
Proof.
  intros Ha. unfold accepted.
  replace (20 <=? v_score (scoreGrounded P tagMatchers item lv))%Z with true.
  - rewrite orb_true_r. reflexivity.
  - symmetry. apply Z.leb_le. rewrite scoreGrounded_closed, Ha.
    pose proof (count_nonneg (tagsFound (hayOf item) tagMatchers)).
    pose proof (count_nonneg (wordsFound (hayOf item) tagMatchers)).
    pose proof (b2z_nonneg (isLikelyImageUrl (l_imageUrl lv))).
    pose proof (b2z_nonneg (isImageType (l_contentType lv))).
    pose proof (b2z_nonneg (preferredHost P item)).
    cbn [b2z]. lia.
Qed.

Lemma alive_accepted_fallback (it : Scored) (lv : Liveness) :
  (0 <= s_score it)%Z -> l_alive lv = true -> accepted (scoreFallback it lv) = true.
Proof.
  intros Hs Ha. unfold accepted.
  replace (20 <=? v_score (scoreFallback it lv))%Z with true.
  - rewrite orb_true_r. reflexivity.
  - symmetry. apply Z.leb_le. rewrite scoreFallback_closed, Ha.
    pose proof (b2z_nonneg (isLikelyImageUrl (l_imageUrl lv))).
    pose proof (b2z_nonneg (isImageType (l_contentType lv))).
    cbn [b2z]. lia.
Qed.

(** C2 fails on the code.  The grounded search cites a report whose
    preview is served alive as [application/pdf]: the validated candidate
    has a PDF content type and [_alive] cleared, its score is the 2 of
    liveness, the filter accepts it on that score, and it is returned. *)
Theorem pdf_candidate_returned :
  exists v t,
    mapM_from
      (validateGrounded (Examples.platform "" "") Examples.pdfCited
         (map Js.toLowerCase (attributeTags (parseIntent Examples.description))))
      0
      (rawCandidates (Examples.platform "" "")
         [Examples.chunk "https://example.org/report" "Annual report"
            "https://example.org/report.pdf"])
    = (Ok [v], t) /\
    v_contentType v = Some "application/pdf" /\
    isPdf (v_contentType v) = true /\
    v_alive v = false /\
    v_score v = 20%Z /\
    accepted v = true /\
    fst (findWebInspiration (Examples.platform "" "") Examples.pdfCited 3)
    = Ok [v_item v].
Proof.
  eexists. eexists. split; [vm_compute; reflexivity|].
  repeat split.
Qed.

(** * Further properties of the code *)

(** ** The liveness checker on its own *)

(** X1.  When the verify server answers with an [alive] field, that answer
    is the result and the direct HEAD request is not made: the result and
    the trace are the same whatever the direct request would give. *)
Theorem checkUrlAlive_proxy_authoritative (P : Platform) (net net' : Net) (url : string)
    (a : bool) (ct : string) :
  proxyFetch net (verifyRequest P url) = ProxyAlive a ct ->
  proxyFetch net' (verifyRequest P url) = ProxyAlive a ct ->
  checkUrlAlive P net url = checkUrlAlive P net' url /\
  ~ In (EvHead url) (snd (checkUrlAlive P net url)) /\
  (Js.truthy url = true -> Re.test_dead url = false ->
   fst (checkUrlAlive P net url) = Ok {| alive := a; contentType := Js.or_null ct |}).
Proof.
  intros H H'. unfold checkUrlAlive. fold (verifyRequest P url).
  destruct (Js.truthy url); cbn [negb].
  - destruct (Re.test_dead url).
    + split; [reflexivity|]. split; [|discriminate].
      cbn. intros [E|[]]; discriminate.
    + rewrite H, H'. split; [reflexivity|]. split; [|reflexivity].
      cbn. intros [E|[E|[]]]; discriminate.
  - split; [reflexivity|]. split; [|discriminate].
    cbn. intros [E|[]]; discriminate.
Qed.

Lemma checkUrlAlive_proxy_authoritative_witness :
  checkUrlAlive (Examples.platform "" "") (Examples.proxyNet false "text/html")
    "https://example.org/tower.jpg"
  = checkUrlAlive (Examples.platform "" "")
      {| proxyFetch := fun _ => ProxyAlive false "text/html";
         headFetch := fun _ => HeadResponse true "image/jpeg" |}
      "https://example.org/tower.jpg".
Proof.
  exact (proj1 (checkUrlAlive_proxy_authoritative (Examples.platform "" "")
                  (Examples.proxyNet false "text/html")
                  {| proxyFetch := fun _ => ProxyAlive false "text/html";
                     headFetch := fun _ => HeadResponse true "image/jpeg" |}
                  "https://example.org/tower.jpg" false "text/html" eq_refl eq_refl)).
Defined.

Lemma checkUrlAlive_trace (P : Platform) (net : Net) (url : string) :
  snd (checkUrlAlive P net url) = [EvCheckUrlAlive url] \/
  snd (checkUrlAlive P net url)
  = [EvCheckUrlAlive url; EvProxyGet (verifyRequest P url)] \/
  snd (checkUrlAlive P net url)
  = [EvCheckUrlAlive url; EvProxyGet (verifyRequest P url); EvHead url].
Proof.
  unfold checkUrlAlive. fold (verifyRequest P url).
  destruct (Js.truthy url); cbn [negb]; [|left; reflexivity].
  destruct (Re.test_dead url); [left; reflexivity|].
  destruct (proxyFetch net (verifyRequest P url));
    try (right; left; reflexivity);
    destruct (headFetch net url); right; right; reflexivity.
Qed.

Lemma checkUrlAlive_counts (P : Platform) (net : Net) (url : string) :
  checkCalls (snd (checkUrlAlive P net url)) = 1%nat /\
  (List.length (networkRequests (snd (checkUrlAlive P net url))) <= 2)%nat.
Proof.
  destruct (checkUrlAlive_trace P net url) as [E|[E|E]]; rewrite E; cbn; lia.
Qed.

(** X2.  One call of [checkUrlAlive] makes no request, or the GET to the
    verify server alone, or that GET followed by one direct HEAD; and it
    makes none for an empty URL, which is reported dead. *)
Theorem checkUrlAlive_request_budget (P : Platform) (net : Net) (url : string) :
  (networkRequests (snd (checkUrlAlive P net url)) = [] \/
   networkRequests (snd (checkUrlAlive P net url)) = [EvProxyGet (verifyRequest P url)] \/
   networkRequests (snd (checkUrlAlive P net url))
   = [EvProxyGet (verifyRequest P url); EvHead url]) /\
  checkUrlAlive P net ""
  = (Ok {| alive := false; contentType := None |}, [EvCheckUrlAlive ""]).
Proof.
  split; [|reflexivity].
  destruct (checkUrlAlive_trace P net url) as [E|[E|E]]; rewrite E; cbn; tauto.
Qed.

(** ** The liveness block *)

Lemma checkCalls_app (t t' : list Event) :
  checkCalls (t ++ t')%list = (checkCalls t + checkCalls t')%nat.
Proof. unfold checkCalls. now rewrite filter_app, length_app. Qed.

Lemma networkRequests_app (t t' : list Event) :
  networkRequests (t ++ t')%list = (networkRequests t ++ networkRequests t')%list.
Proof. unfold networkRequests. apply filter_app. Qed.

(** X3.  A candidate whose preview URL is reported alive costs one check:
    neither its page nor a snapshot is checked, and it keeps its preview URL
    with the content type of that check. *)
Theorem checkLiveness_alive_preview (P : Platform) (net : Slot -> Net)
    (item : WebInspiration) (r1 : CheckResult) (t1 : list Event) :
  checkUrlAlive P (net PreviewCheck) (previewUrl item) = (Ok r1, t1) ->
  alive r1 = true ->
  checkLiveness P net item
  = (Ok {| l_imageUrl := previewUrl item; l_alive := true;
           l_contentType := contentType r1 |}, t1) /\
  checkCalls t1 = 1%nat.
Proof.
  intros H1 Ha. split.
  - unfold checkLiveness. rewrite H1. cbn [bind]. rewrite Ha. cbn. now rewrite app_nil_r.
  - pose proof (checkUrlAlive_counts P (net PreviewCheck) (previewUrl item)) as [Hc _].
    now rewrite H1 in Hc.
Qed.

Lemma checkLiveness_alive_preview_witness :
  checkLiveness (Examples.platform "" "key") (Examples.jpegNet 0) Examples.towerItem
  = (Ok {| l_imageUrl := "https://example.org/tower.jpg"; l_alive := true;
           l_contentType := Some "image/jpeg" |},
     snd (checkUrlAlive (Examples.platform "" "key") (Examples.proxyNet true "image/jpeg")
            "https://example.org/tower.jpg")).
Proof.
  exact (proj1 (checkLiveness_alive_preview (Examples.platform "" "key")
                  (Examples.jpegNet 0) Examples.towerItem
                  {| alive := true; contentType := Some "image/jpeg" |}
                  (snd (checkUrlAlive (Examples.platform "" "key")
                          (Examples.proxyNet true "image/jpeg")
                          "https://example.org/tower.jpg"))
                  eq_refl eq_refl)).
Defined.

(** X4.  Validating one candidate makes between one and three liveness
    checks, hence at most six network requests; without a snapshot key it
    makes at most two checks and never changes the preview URL. *)
Theorem checkLiveness_budget (P : Platform) (net : Slot -> Net) (item : WebInspiration)
    (lv : Liveness) (t : list Event) :
  checkLiveness P net item = (Ok lv, t) ->
  (1 <= checkCalls t <= 3)%nat /\
  (List.length (networkRequests t) <= 6)%nat /\
  (Js.truthy (APIFLASH_KEY P) = false ->
   (checkCalls t <= 2)%nat /\ l_imageUrl lv = previewUrl item).
Proof.
  destruct (checkUrlAlive_total P (net PreviewCheck) (previewUrl item)) as (r1 & t1 & H1).
  destruct (checkUrlAlive_total P (net PageCheck) (uri item)) as (r2 & t2 & H2).
  destruct (checkUrlAlive_total P (net SnapshotCheck) (snapshotUrl P (uri item)))
    as (r3 & t3 & H3).
  pose proof (checkUrlAlive_counts P (net PreviewCheck) (previewUrl item)) as [C1 N1].
  pose proof (checkUrlAlive_counts P (net PageCheck) (uri item)) as [C2 N2].
  pose proof (checkUrlAlive_counts P (net SnapshotCheck) (snapshotUrl P (uri item)))
    as [C3 N3].
  rewrite H1 in C1, N1. rewrite H2 in C2, N2. rewrite H3 in C3, N3. cbn [snd] in *.
  rewrite (checkLiveness_eq P net item _ _ _ _ _ _ H1 H2 H3).
  remember (EvCheckUrlAlive (previewUrl item) :: t1) as T1.
  remember (EvCheckUrlAlive (uri item) :: t2) as T2.
  remember (EvCheckUrlAlive (snapshotUrl P (uri item)) :: t3) as T3.
  intros E. injection E as <- <-.
  rewrite !checkCalls_app, !networkRequests_app, !length_app.
  unfold snapshotNeeded.
  destruct (pageNeeded item r1); destruct (aliveAfterPage item r1 r2);
    destruct (Js.truthy (uri item)); destruct (Js.truthy (APIFLASH_KEY P));
    cbn [negb andb]; cbn [checkCalls networkRequests filter List.length];
    repeat split; try lia; try discriminate; intros _; split; try lia; reflexivity.
Qed.

Lemma checkLiveness_budget_witness :
  (1 <= checkCalls
          (snd (checkLiveness (Examples.platform "" "") (Examples.pageOnlyNet 0)
                  Examples.towerItem)) <= 3)%nat.
Proof.
  exact (proj1 (checkLiveness_budget (Examples.platform "" "") (Examples.pageOnlyNet 0)
                  Examples.towerItem
                  {| l_imageUrl := "https://example.org/tower.jpg"; l_alive := true;
                     l_contentType := Some "text/html" |}
                  (snd (checkLiveness (Examples.platform "" "") (Examples.pageOnlyNet 0)
                          Examples.towerItem))
                  eq_refl)).
Defined.

(** ** Candidates of the retrieval stages *)

Lemma Forall_firstn_of {A} (Q : A -> Prop) (n : nat) (l : list A) :
  Forall Q l -> Forall Q (firstn n l).
Proof.
  intros H. apply Forall_forall. intros x Hx.
  apply In_firstn in Hx. revert x Hx. now apply Forall_forall.
Qed.

Lemma pexelsMapped_ok (photos : list PexelsPhoto) :
  Forall stockItemOk (pexelsMapped photos).
Proof.
  apply Forall_forall. intros i Hi. unfold pexelsMapped in Hi.
  apply filter_In in Hi as [Hin Hf]. apply andb_true_iff in Hf as [Hp Hu].
  apply in_map_iff in Hin as (p & <- & _).
  repeat split; assumption.
Qed.

(** X5.  [searchPexels] makes no request without a key.  When it yields a
    list, every item has a page URL and a preview URL, comes from
    [pexels.com], and the list has at most [perPage] items (for
    [perPage >= 0]) and at least one (for [perPage >= 1]). *)
Theorem searchPexels_items (P : Platform) (W : World) (query : string) (perPage : Z) :
  (Js.truthy (getPexelsKey P) = false ->
   searchPexels P W query perPage = (Ok None, [])) /\
  (forall l, fst (searchPexels P W query perPage) = Ok (Some l) ->
   Forall stockItemOk l /\
   ((0 <= perPage)%Z -> (Z.of_nat (List.length l) <= perPage)%Z) /\
   ((1 <= perPage)%Z -> l <> [])).
Proof.
  unfold searchPexels. split.
  - intros ->. reflexivity.
  - intros l. destruct (Js.truthy (getPexelsKey P)); cbn [negb]; [|discriminate].
    cbn [bind emit].
    destruct (pexelsReply W _) as [| | |photos]; try discriminate.
    pose proof (pexelsMapped_ok photos) as Hok.
    destruct (pexelsMapped photos) as [|x items] eqn:E; [discriminate|].
    cbn. intros H. injection H as <-.
    split; [|split].
    + unfold Js.slice0. now apply Forall_firstn_of.
    + apply slice0_length.
    + intros Hp Hnil.
      pose proof (slice0_length_eq (x :: items) perPage ltac:(lia)) as Hl.
      rewrite Hnil in Hl. cbn [List.length] in Hl. lia.
Qed.

Lemma searchPexels_items_witness :
  Forall stockItemOk
    [{| uri := "https://www.pexels.com/photo/1"; title := "A tower";
        source := "pexels.com"; previewUrl := "https://images.pexels.com/1.jpeg";
        matchReason := None |}].
Proof.
  exact (proj1 (proj2 (searchPexels_items (Examples.platform "key" "") Examples.twoPhotos
                         "tower" 1) _ eq_refl)).
Defined.

Lemma truthy_literal_app (c : ascii) (s r : string) : Js.truthy (String c s ++ r) = true.
Proof. reflexivity. Qed.

(** X6.  Every candidate built from the grounding chunks has a page URL, a
    title and a preview URL (the embedded image, else a snapshot or
    screenshot address of the page), and there are no more candidates than
    chunks. *)
Theorem rawCandidates_wellformed (P : Platform) (chunks : list GroundingChunk) :
  Forall groundedCandidateOk (rawCandidates P chunks) /\
  (List.length (rawCandidates P chunks) <= List.length chunks)%nat.
Proof.
  unfold rawCandidates.
  induction chunks as [|c chunks [IHf IHl]]; cbn [flat_map].
  { split; [constructor | reflexivity]. }
  destruct (web c) as [w|]; [|cbn; split; [assumption | lia]].
  destruct (Js.truthy (w_uri w) && Js.truthy (w_title w)) eqn:E;
    [|cbn; split; [assumption | lia]].
  apply andb_true_iff in E as [Hu Ht].
  cbn [app List.length]. split; [|lia].
  constructor; [|assumption].
  unfold groundedCandidateOk, chunkItem. cbn [uri title previewUrl matchReason].
  repeat split; try assumption; [|discriminate].
  destruct (Js.truthy (Js.or_str (w_image w) (Js.or_str (w_imageUrl w) (w_ogImage w))))
    eqn:Ei; [exact Ei|].
  destruct (Js.truthy (APIFLASH_KEY P)); reflexivity.
Qed.

(** ** The harvest of the fallback path *)

Lemma harvestStep_appends (P : Platform) (count : Z) (l : list Scored) (u : string) :
  Js.truthy u = true ->
  exists extra,
    harvestStep P count l u = (l ++ extra)%list /\
    Forall harvestedOk extra /\
    (Z.of_nat (List.length (harvestStep P count l u))
     <= Z.max count (Z.of_nat (List.length l)))%Z.
Proof.
  intros Hu. unfold harvestStep.
  destruct (count <=? Z.of_nat (List.length l))%Z eqn:E.
  - exists []. rewrite app_nil_r. repeat split; [constructor | lia].
  - apply Z.leb_gt in E.
    destruct (existsb _ l).
    + exists []. rewrite app_nil_r. repeat split; [constructor | lia].
    + exists [harvested P u]. split; [reflexivity|]. split.
      * constructor; [|constructor]. repeat split. exact Hu.
      * rewrite length_app. cbn [List.length]. lia.
Qed.

Lemma harvest_shape (P : Platform) (text : string) (count : Z) (l : list Scored) :
  exists extra,
    harvest P text count l = (l ++ extra)%list /\
    Forall harvestedOk extra /\
    (Z.of_nat (List.length (harvest P text count l))
     <= Z.max count (Z.of_nat (List.length l)))%Z.
Proof.
  unfold harvest.
  destruct (Z.of_nat (List.length l) <? count)%Z eqn:E.
  2:{ exists []. rewrite app_nil_r. repeat split; [constructor | lia]. }
  assert (Hurls : Forall (fun u => Js.truthy u = true)
                    (filter Js.truthy
                       (Js.uniq (Js.slice0 (Scan.match_urls Scan.stop2 text) (count * 3))))).
  { apply Forall_forall. intros u Hu. now apply filter_In in Hu. }
  revert Hurls.
  generalize (filter Js.truthy
                (Js.uniq (Js.slice0 (Scan.match_urls Scan.stop2 text) (count * 3)))).
  intros urls Hurls. clear E. revert l.
  induction Hurls as [|u urls Hu _ IH]; intros l0; cbn [fold_left].
  - exists []. rewrite app_nil_r. repeat split; [constructor | lia].
  - destruct (harvestStep_appends P count l0 u Hu) as (e1 & E1 & F1 & L1).
    destruct (IH (harvestStep P count l0 u)) as (e2 & E2 & F2 & L2).
    exists (e1 ++ e2)%list.
    split; [rewrite E2, E1, app_assoc; reflexivity|].
    split; [apply Forall_app; split; assumption | lia].
Qed.

(** X7.  The harvest only appends: it keeps the ranked candidates as they
    are and adds, after them, candidates made of a bare URL with score 0;
    it never brings the list beyond [count] entries, and it adds nothing
    when the list already has [count] of them. *)
Theorem harvest_appends (P : Platform) (text : string) (count : Z) (l : list Scored) :
  (exists extra,
     harvest P text count l = (l ++ extra)%list /\ Forall harvestedOk extra) /\
  (Z.of_nat (List.length (harvest P text count l))
   <= Z.max count (Z.of_nat (List.length l)))%Z /\
  ((count <= Z.of_nat (List.length l))%Z -> harvest P text count l = l).
Proof.
  destruct (harvest_shape P text count l) as (extra & E & F & L).
  split; [exists extra; split; assumption|]. split; [exact L|].
  intros Hc. unfold harvest.
  replace (Z.of_nat (List.length l) <? count)%Z with false; [reflexivity|].
  symmetry. apply Z.ltb_ge. lia.
Qed.

Lemma harvest_appends_witness :
  harvest (Examples.platform "" "") "see https://example.org/slab.jpg" 1
    [{| s_item := Examples.towerItem; s_score := 0 |}]
  = [{| s_item := Examples.towerItem; s_score := 0 |}].
Proof.
  apply (proj2 (proj2 (harvest_appends (Examples.platform "" "")
                         "see https://example.org/slab.jpg" 1
                         [{| s_item := Examples.towerItem; s_score := 0 |}]))).
  cbn. lia.
Defined.

(** X8.  Every candidate the fallback path validates has a page URL: the
    parsed items without one are dropped, and the harvest adds none. *)
Theorem fallback_candidates_have_uri (P : Platform) (tags : list string) (text : string)
    (count : Z) (items : list WebInspiration) :
  Forall (fun c => Js.truthy (uri (s_item c)) = true)
    (harvest P text count (fallbackCandidates P tags items)).
Proof.
  destruct (harvest_shape P text count (fallbackCandidates P tags items))
    as (extra & -> & F & _).
  apply Forall_app. split.
  - unfold fallbackCandidates.
    eapply Permutation_Forall; [apply sortDesc_perm|].
    apply Forall_forall. intros c Hc.
    apply in_map_iff in Hc as (i & <- & Hi).
    apply filter_In in Hi as [_ Hi]. exact Hi.
  - eapply Forall_impl; [|exact F]. intros c (_ & Hu & _). exact Hu.
Qed.

(** ** A fallback reply that is not JSON *)

Lemma arr_includes_In (l : list string) (x : string) :
  Js.arr_includes l x = true <-> In x l.
Proof.
  unfold Js.arr_includes. rewrite existsb_exists. split.
  - intros (y & Hy & E). apply String.eqb_eq in E. now subst.
  - intros H. exists x. split; [exact H | apply String.eqb_refl].
Qed.

Lemma uniq_aux_spec (seen l : list string) :
  NoDup (Js.uniq_aux seen l) /\
  forall x, In x (Js.uniq_aux seen l) <-> In x l /\ ~ In x seen.
Proof.
  revert seen. induction l as [|y l IH]; intros seen; cbn [Js.uniq_aux].
  - split; [constructor | cbn; tauto].
  - destruct (Js.arr_includes seen y) eqn:E.
    + apply arr_includes_In in E. destruct (IH seen) as [Hn Hi].
      split; [exact Hn|]. intros x. rewrite Hi. cbn [In].
      split; [tauto|]. intros [[<-|H] Hs]; tauto.
    + assert (Hy : ~ In y seen).
      { intros H. apply arr_includes_In in H. congruence. }
      destruct (IH (y :: seen)) as [Hn Hi].
      split.
      * constructor; [|exact Hn]. rewrite Hi. cbn [In]. tauto.
      * intros x. cbn [In]. rewrite Hi. cbn [In].
        destruct (string_dec y x) as [<-|Hne]; tauto.
Qed.

Lemma uniq_NoDup (l : list string) : NoDup (Js.uniq l).
Proof. apply uniq_aux_spec. Qed.

Lemma uniq_In (l : list string) (x : string) : In x (Js.uniq l) <-> In x l.
Proof.
  unfold Js.uniq. destruct (uniq_aux_spec [] l) as [_ H]. rewrite H. cbn. tauto.
Qed.

Lemma scheme_here_truthy (stop : ascii -> bool) (scheme s m rest : string) :
  scheme <> "" ->
  Scan.scheme_here stop scheme s = Some (m, rest) -> Js.truthy m = true.
Proof.
  intros Hne. unfold Scan.scheme_here.
  destruct (Js.after_prefix scheme s); [|discriminate].
  destruct (Scan.run stop s0) as [[|a m0] r]; [discriminate|].
  intros H. injection H as <- _. destruct scheme; [now elim Hne | reflexivity].
Qed.

Lemma match_urls_truthy (stop : ascii -> bool) (s : string) :
  Forall (fun u => Js.truthy u = true) (Scan.match_urls stop s).
Proof.
  unfold Scan.match_urls. generalize (S (String.length s)). intros fuel.
  revert s. induction fuel as [|fuel IH]; intros s; cbn [Scan.match_urls_fuel];
    [constructor|].
  destruct s as [|a s]; [constructor|].
  destruct (Scan.url_here stop (String a s)) as [[m rest]|] eqn:E; [|apply IH].
  constructor; [|apply IH].
  unfold Scan.url_here in E.
  destruct (Scan.scheme_here stop "https://" (String a s)) as [[m1 r1]|] eqn:E1.
  - injection E as <- _.
    apply (scheme_here_truthy stop "https://" _ _ _ ltac:(discriminate) E1).
  - apply (scheme_here_truthy stop "http://" _ _ _ ltac:(discriminate) E).
Qed.

Lemma mapItems_urlObjects (P : Platform) (i : nat) (urls : list string) :
  Forall (fun u => Js.truthy u = true) urls ->
  exists items,
    mapItems P (urlObjects P i urls) = (Ok items, []) /\
    map uri items = urls.
Proof.
  intros H. revert i. induction H as [|u urls Hu _ IH]; intros i; cbn [urlObjects mapItems].
  - exists []. split; reflexivity.
  - destruct (IH (S i)) as (items & E & Hm). rewrite E. cbn [bind ret app].
    eexists. split; [reflexivity|]. cbn [map]. rewrite Hm. f_equal.
    unfold fallbackItem. cbn [uri f_url]. unfold Js.or_str. now rewrite Hu.
Qed.

Lemma filter_all {A} (p : A -> bool) (l : list A) :
  Forall (fun x => p x = true) l -> filter p l = l.
Proof.
  induction 1 as [|x l Hx _ IH]; cbn [filter]; [reflexivity|]. now rewrite Hx, IH.
Qed.

(** X9.  When the text of the fallback reply cannot be parsed as JSON, the
    list the fallback path returns has no two entries with the same [uri],
    whatever the text holds and however often it repeats a URL. *)
Theorem fallback_plain_text_distinct (P : Platform) (W : World) (tags : list string)
    (count : Z) (l : list WebInspiration) :
  (forall reply, fallbackReply W = Ok reply ->
     JSON_parse W (jsonTextOf (Js.trim reply)) = None) ->
  fst (fallbackPath P W tags count) = Ok l ->
  NoDup (map uri l).
Proof.
  intros Hparse Hl.
  destruct (fallbackPath_cases P W tags count) as (l' & t & E & Hf).
  rewrite E in Hl. cbn in Hl. injection Hl as ->.
  destruct Hf as [-> | (reply & elems & items & vs & tv & Er & Ep & Em & _ & Hu & ->)];
    [constructor|].
  apply selectResults_NoDup. rewrite Hu.
  apply harvest_NoDup, fallbackCandidates_NoDup.
  unfold parseFallback in Ep. fold (jsonTextOf (Js.trim reply)) in Ep.
  rewrite (Hparse reply Er) in Ep. injection Ep as <-.
  set (urls := Js.uniq (Js.slice0 (Scan.match_urls Scan.stop1 (Js.trim reply)) count)) in *.
  assert (Ht : Forall (fun u => Js.truthy u = true) urls).
  { apply Forall_forall. intros u Hin. unfold urls in Hin.
    apply (proj1 (uniq_In _ u)) in Hin.
    unfold Js.slice0 in Hin. apply In_firstn in Hin.
    pose proof (match_urls_truthy Scan.stop1 (Js.trim reply)) as Hall.
    rewrite Forall_forall in Hall. now apply Hall. }
  destruct (mapItems_urlObjects P 0 urls Ht) as (items' & Em' & Hm).
  rewrite Em in Em'. injection Em' as <-.
  rewrite filter_all.
  - rewrite Hm. apply uniq_NoDup.
  - apply Forall_forall. intros x Hx.
    assert (Hin : In (uri x) urls) by (rewrite <- Hm; now apply in_map).
    rewrite Forall_forall in Ht. now apply Ht.
Qed.

Lemma fallback_plain_text_distinct_witness :
  NoDup
    (map uri
       [{| uri := "https://example.org/a.jpg"; title := "Result 1";
           source := "example.org"; previewUrl := "https://example.org/a.jpg";
           matchReason := Some "" |}]).
Proof.
  apply (fallback_plain_text_distinct (Examples.platform "" "")
           (Examples.world PexNotOk (Ok [])
              (Ok "try https://example.org/a.jpg and https://example.org/a.jpg again")
              Examples.jpegNet)
           [] 3).
  - intros reply _. reflexivity.
  - vm_compute. reflexivity.
Defined.

(** ** Ranking *)

Lemma insertDesc_descending {A} (score : A -> Z) (x : A) (l : list A) :
  descending score l -> descending score (insertDesc score x l).
Proof.
  induction l as [|y l IH]; cbn [insertDesc descending]; [intros _; split; [constructor | exact I]|].
  intros [Hy Hl].
  destruct (score x <? score y)%Z eqn:E.
  - apply Z.ltb_lt in E. cbn [descending]. split; [|now apply IH].
    eapply Permutation_Forall; [apply insertDesc_perm|].
    constructor; [lia | exact Hy].
  - apply Z.ltb_ge in E. cbn [descending]. split; [|split; assumption].
    constructor; [exact E|].
    eapply Forall_impl; [|exact Hy]. cbn. intros z Hz. lia.
Qed.

Lemma sortDesc_descending {A} (score : A -> Z) (l : list A) :
  descending score (sortDesc score l).
Proof.
  induction l as [|x l IH]; cbn [sortDesc fold_right]; [exact I|].
  now apply insertDesc_descending.
Qed.

Lemma descending_split {A} (score : A -> Z) (l1 l2 : list A) :
  descending score (l1 ++ l2)%list ->
  descending score l1 /\
  forall a b, In a l1 -> In b l2 -> (score b <= score a)%Z.
Proof.
  induction l1 as [|x l1 IH]; cbn [app descending].
  - intros _. split; [exact I | intros a b []].
  - intros [Hx Hl]. apply Forall_app in Hx as [Hx1 Hx2].
    destruct (IH Hl) as [Hd Hc]. split; [split; assumption|].
    intros a b [<-|Ha] Hb; [|now apply Hc].
    rewrite Forall_forall in Hx2. now apply Hx2.
Qed.

(** X10.  The list returned after validation is ranked: it is the image,
    without the internal fields, of a list [vs] of accepted candidates
    whose scores never increase, and every accepted candidate left out
    scores no more than any returned one. *)
Theorem selectResults_ranked (validated : list Validated) (count : Z) :
  exists vs rest,
    selectResults validated count = map v_item vs /\
    Permutation (filter accepted validated) (vs ++ rest)%list /\
    descending v_score vs /\
    Forall (fun v => accepted v = true) vs /\
    (forall a b, In a vs -> In b rest -> (v_score b <= v_score a)%Z).
Proof.
  unfold selectResults, Js.slice0.
  set (sorted := sortDesc v_score (filter accepted validated)).
  set (n := Z.to_nat _).
  exists (firstn n sorted), (skipn n sorted).
  pose proof (sortDesc_descending v_score (filter accepted validated)) as Hd.
  fold sorted in Hd. rewrite <- (firstn_skipn n sorted) in Hd.
  apply descending_split in Hd as [Hd Hc].
  split; [reflexivity|]. split; [|split; [exact Hd|split; [|exact Hc]]].
  - rewrite firstn_skipn. apply sortDesc_perm.
  - apply Forall_firstn_of.
    eapply Permutation_Forall; [apply sortDesc_perm|].
    apply Forall_forall. intros v Hv. now apply filter_In in Hv.
Qed.

Lemma selectResults_ranked_witness :
  exists vs rest,
    selectResults
      [scoreGrounded (Examples.platform "" "") [] Examples.towerItem Examples.deadUnknown;
       scoreGrounded (Examples.platform "" "") [] Examples.towerItem Examples.liveJpeg] 1
    = map v_item vs /\
    Permutation
      (filter accepted
         [scoreGrounded (Examples.platform "" "") [] Examples.towerItem Examples.deadUnknown;
          scoreGrounded (Examples.platform "" "") [] Examples.towerItem Examples.liveJpeg])
      (vs ++ rest)%list /\
    descending v_score vs /\
    Forall (fun v => accepted v = true) vs /\
    (forall a b, In a vs -> In b rest -> (v_score b <= v_score a)%Z).
Proof.
  exact (selectResults_ranked
           [scoreGrounded (Examples.platform "" "") [] Examples.towerItem
              Examples.deadUnknown;
            scoreGrounded (Examples.platform "" "") [] Examples.towerItem
              Examples.liveJpeg] 1).
Defined.

Lemma withScore_insertDesc {A} (score : A -> Z) (k : Z) (x : A) (l : list A) :
  withScore score k (insertDesc score x l) = withScore score k (x :: l).
Proof.
  unfold withScore.
  induction l as [|y l IH]; cbn [insertDesc]; [reflexivity|].
  destruct (score x <? score y)%Z eqn:E; [|reflexivity].
  apply Z.ltb_lt in E. cbn [filter] in *. rewrite IH.
  destruct (score x =? k)%Z eqn:Ex; destruct (score y =? k)%Z eqn:Ey; try reflexivity.
  apply Z.eqb_eq in Ex, Ey. lia.
Qed.

(** X11.  Ranking keeps the retrieval order among equal scores: for every
    score, the candidates with that score come in the ranked list in the
    order they had before. *)
Theorem sortDesc_stable {A} (score : A -> Z) (k : Z) (l : list A) :
  withScore score k (sortDesc score l) = withScore score k l.
Proof.
  induction l as [|x l IH]; cbn [sortDesc fold_right]; [reflexivity|].
  rewrite withScore_insertDesc. fold (sortDesc score l).
  unfold withScore in *. cbn [filter]. now rewrite IH.
Qed.

(** ** The filter *)

Lemma scoreFor_nonneg (P : Platform) (tagMatchers : list string) (item : WebInspiration) :
  (0 <= scoreFor P tagMatchers item)%Z.
Proof.
  rewrite scoreFor_closed.
  pose proof (count_nonneg (tagsFound (hayOf item) tagMatchers)).
  pose proof (count_nonneg (wordsFound (hayOf item) tagMatchers)).
  pose proof (b2z_nonneg (Js.truthy (previewUrl item)
                          && Re.test_image_ext_nogif (previewUrl item))).
  pose proof (b2z_nonneg (preferredHost P item)).
  lia.
Qed.

Lemma accepted_threshold (v : Validated) (wasAlive : bool) :
  (wasAlive = true -> (20 <= v_score v)%Z) ->
  (v_alive v = true -> wasAlive = true) ->
  accepted v = (20 <=? v_score v)%Z.
Proof.
  intros Hs Ha. unfold accepted.
  destruct (20 <=? v_score v)%Z eqn:E; [now rewrite orb_true_r|].
  apply Z.leb_gt in E.
  destruct (v_alive v); [|cbn; now rewrite andb_false_r].
  specialize (Hs (Ha eq_refl)). lia.
Qed.

(** X12.  On both validating paths the filter comes down to the score: a
    validated candidate is kept exactly when its score is at least 2.  A
    candidate reported alive always is, since liveness alone gives 2. *)
Theorem accepted_is_threshold (P : Platform) (tagMatchers : list string)
    (item : WebInspiration) (lv : Liveness) (u : string) :
  accepted (scoreGrounded P tagMatchers item lv)
  = (20 <=? v_score (scoreGrounded P tagMatchers item lv))%Z /\
  accepted (scoreFallback {| s_item := item; s_score := scoreFor P tagMatchers item |} lv)
  = (20 <=? v_score (scoreFallback
                       {| s_item := item; s_score := scoreFor P tagMatchers item |} lv))%Z /\
  accepted (scoreFallback (harvested P u) lv)
  = (20 <=? v_score (scoreFallback (harvested P u) lv))%Z /\
  (l_alive lv = true ->
   accepted (scoreGrounded P tagMatchers item lv) = true /\
   accepted (scoreFallback {| s_item := item; s_score := scoreFor P tagMatchers item |} lv)
   = true /\
   accepted (scoreFallback (harvested P u) lv) = true).
Proof.
  pose proof (scoreFor_nonneg P tagMatchers item) as Hs.
  assert (Hg : l_alive lv = true ->
               (20 <= v_score (scoreGrounded P tagMatchers item lv))%Z).
  { intros Ha. rewrite scoreGrounded_closed, Ha.
    pose proof (count_nonneg (tagsFound (hayOf item) tagMatchers)).
    pose proof (count_nonneg (wordsFound (hayOf item) tagMatchers)).
    pose proof (b2z_nonneg (isLikelyImageUrl (l_imageUrl lv))).
    pose proof (b2z_nonneg (isImageType (l_contentType lv))).
    pose proof (b2z_nonneg (preferredHost P item)).
    cbn [b2z]. lia. }
  assert (Hf : forall it, (0 <= s_score it)%Z -> l_alive lv = true ->
               (20 <= v_score (scoreFallback it lv))%Z).
  { intros it H0 Ha. rewrite scoreFallback_closed, Ha.
    pose proof (b2z_nonneg (isLikelyImageUrl (l_imageUrl lv))).
    pose proof (b2z_nonneg (isImageType (l_contentType lv))).
    cbn [b2z]. lia. }
  assert (Hva : forall v, v_alive v = (if isPdf (l_contentType lv) then false else l_alive lv) ->
                v_alive v = true -> l_alive lv = true).
  { intros v -> H. destruct (isPdf (l_contentType lv)); [discriminate | exact H]. }
  split; [|split; [|split]].
  - apply (accepted_threshold _ (l_alive lv)); [exact Hg | now apply Hva].
  - apply (accepted_threshold _ (l_alive lv)); [now apply Hf | now apply Hva].
  - apply (accepted_threshold _ (l_alive lv)); [apply Hf; cbn; lia | now apply Hva].
  - intros Ha. split; [now apply alive_accepted_grounded|].
    split; apply alive_accepted_fallback; cbn [s_score harvested]; try lia; assumption.
Qed.

Lemma accepted_is_threshold_witness :
  accepted (scoreGrounded (Examples.platform "" "") [] Examples.towerItem Examples.liveJpeg)
  = true.
Proof.
  exact (proj1 (proj2 (proj2 (proj2
           (accepted_is_threshold (Examples.platform "" "") [] Examples.towerItem
              Examples.liveJpeg ""))) eq_refl)).
Defined.

(** ** Where the results come from *)

Lemma checkLiveness_imageUrl (P : Platform) (net : Slot -> Net) (item : WebInspiration) :
  exists lv t,
    checkLiveness P net item = (Ok lv, t) /\
    (l_imageUrl lv = previewUrl item \/ l_imageUrl lv = snapshotUrl P (uri item)).
Proof.
  destruct (checkUrlAlive_total P (net PreviewCheck) (previewUrl item)) as (r1 & t1 & H1).
  destruct (checkUrlAlive_total P (net PageCheck) (uri item)) as (r2 & t2 & H2).
  destruct (checkUrlAlive_total P (net SnapshotCheck) (snapshotUrl P (uri item)))
    as (r3 & t3 & H3).
  rewrite (checkLiveness_eq P net item _ _ _ _ _ _ H1 H2 H3).
  eexists. eexists. split; [reflexivity|].
  destruct (snapshotNeeded P item r1 r2 && alive r3); cbn; tauto.
Qed.

Lemma validateGrounded_madeFrom (P : Platform) (W : World) (tagMatchers : list string)
    (i : nat) (item : WebInspiration) :
  exists v t, validateGrounded P W tagMatchers i item = (Ok v, t) /\
              madeFrom P item (v_item v).
Proof.
  destruct (checkLiveness_imageUrl P (netAt W i) item) as (lv & t & H & Hu).
  rewrite (validateGrounded_eq _ _ _ _ _ _ _ H).
  eexists. eexists. split; [reflexivity|]. repeat split. exact Hu.
Qed.

Lemma validateFallback_madeFrom (P : Platform) (W : World) (i : nat) (it : Scored) :
  exists v t, validateFallback P W i it = (Ok v, t) /\
              madeFrom P (s_item it) (v_item v).
Proof.
  destruct (checkLiveness_imageUrl P (netAt W i) (s_item it)) as (lv & t & H & Hu).
  rewrite (validateFallback_eq _ _ _ _ _ _ H).
  eexists. eexists. split; [reflexivity|]. repeat split. exact Hu.
Qed.

Lemma Forall2_In_r {A B} (R : A -> B -> Prop) (l : list A) (l' : list B) (y : B) :
  Forall2 R l l' -> In y l' -> exists x, In x l /\ R x y.
Proof.
  induction 1 as [|x y' l l' Hr _ IH]; [intros []|].
  intros [<-|Hy].
  - exists x. split; [now left | exact Hr].
  - destruct (IH Hy) as (x' & Hx & Hr'). exists x'. split; [now right | exact Hr'].
Qed.

Lemma selectResults_In (validated : list Validated) (count : Z) (x : WebInspiration) :
  In x (selectResults validated count) ->
  exists v, In v validated /\ x = v_item v /\ accepted v = true.
Proof.
  unfold selectResults, Js.slice0. intros H.
  apply in_map_iff in H as (v & <- & Hv).
  apply In_firstn in Hv.
  apply (Permutation_in _ (Permutation_sym (sortDesc_perm v_score _))) in Hv.
  apply filter_In in Hv as [Hv Ha].
  exists v. repeat split; assumption.
Qed.

(** X13.  The validating paths return nothing they were not given: every
    returned entry is one of the candidates of the path, with its own
    [uri], [title], [source] and [matchReason], and with either its own
    preview URL or the snapshot of its page. *)
Theorem results_made_from_candidates (P : Platform) (W : World) (count : Z)
    (validated : list Validated) (t : list Event) :
  (forall tagMatchers cands,
     mapM_from (validateGrounded P W tagMatchers) 0 cands = (Ok validated, t) ->
     Forall (fun x => exists c, In c cands /\ madeFrom P c x)
       (selectResults validated count)) /\
  (forall cands,
     mapM_from (validateFallback P W) 0 cands = (Ok validated, t) ->
     Forall (fun x => exists c, In c cands /\ madeFrom P (s_item c) x)
       (selectResults validated count)).
Proof.
  split.
  - intros tms cands H.
    destruct (mapM_from_total (validateGrounded P W tms)
                (fun c v => madeFrom P c (v_item v))
                (validateGrounded_madeFrom P W tms) cands 0) as (vs & t' & E & F).
    rewrite H in E. injection E as <- _.
    apply Forall_forall. intros x Hx.
    apply selectResults_In in Hx as (v & Hv & -> & _).
    apply (Forall2_In_r _ _ _ v F Hv).
  - intros cands H.
    destruct (mapM_from_total (validateFallback P W)
                (fun c v => madeFrom P (s_item c) (v_item v))
                (validateFallback_madeFrom P W) cands 0) as (vs & t' & E & F).
    rewrite H in E. injection E as <- _.
    apply Forall_forall. intros x Hx.
    apply selectResults_In in Hx as (v & Hv & -> & _).
    apply (Forall2_In_r _ _ _ v F Hv).
Qed.

Lemma results_made_from_candidates_witness :
  Forall (fun x => exists c, In c [Examples.towerItem] /\
                             madeFrom (Examples.platform "" "") c x)
    (selectResults
       [scoreGrounded (Examples.platform "" "") [] Examples.towerItem Examples.liveJpeg] 3).
Proof.
  apply (proj1 (results_made_from_candidates (Examples.platform "" "") Examples.twoCited 3
                  [scoreGrounded (Examples.platform "" "") [] Examples.towerItem
                     Examples.liveJpeg]
                  (snd (checkUrlAlive (Examples.platform "" "")
                          (Examples.proxyNet true "image/jpeg")
                          "https://example.org/tower.jpg")))
           [] [Examples.towerItem]).
  reflexivity.
Defined.

(** ** Failures before retrieval *)

(** X14.  Without an initialised client [findWebInspiration] throws at once
    and calls nobody; when the synthesis call is rejected with [msg] it
    throws ["Failed to find inspiration: " ++ msg] and no retrieval stage
    has been called. *)
Theorem findWebInspiration_early_failures (P : Platform) (W : World) (count : Z) :
  (apiInitialized W = false ->
   findWebInspiration P W count
   = (Throw ("Failed to find inspiration: " ++ notInitialized), [])) /\
  (forall msg, apiInitialized W = true -> synthesisReply W = Throw msg ->
   findWebInspiration P W count
   = (Throw ("Failed to find inspiration: " ++ msg), [EvSynthesis])).
Proof.
  split.
  - intros Hi. unfold findWebInspiration, findBody, getAI. rewrite Hi. reflexivity.
  - intros msg Hi Hs. unfold findWebInspiration, findBody, getAI.
    rewrite Hi, Hs. reflexivity.
Qed.

Lemma findWebInspiration_early_failures_witness :
  findWebInspiration (Examples.platform "key" "key")
    {| apiInitialized := true; synthesisReply := Throw "RESOURCE_EXHAUSTED";
       pexelsReply := fun _ => PexPhotos []; groundedReply := Ok [];
       fallbackReply := Ok ""; JSON_parse := fun _ => None;
       netAt := Examples.jpegNet |} 3
  = (Throw "Failed to find inspiration: RESOURCE_EXHAUSTED", [EvSynthesis]).
Proof.
  exact (proj2 (findWebInspiration_early_failures (Examples.platform "key" "key")
                  {| apiInitialized := true; synthesisReply := Throw "RESOURCE_EXHAUSTED";
                     pexelsReply := fun _ => PexPhotos []; groundedReply := Ok [];
                     fallbackReply := Ok ""; JSON_parse := fun _ => None;
                     netAt := Examples.jpegNet |} 3)
           "RESOURCE_EXHAUSTED" eq_refl eq_refl).
Defined.

(** ** The order of the stages *)

Lemma checkUrlAlive_onlyChecks (P : Platform) (net : Net) (url : string) :
  onlyChecks (snd (checkUrlAlive P net url)).
Proof.
  destruct (checkUrlAlive_trace P net url) as [E|[E|E]]; rewrite E;
    repeat constructor.
Qed.

Lemma checkLiveness_onlyChecks (P : Platform) (net : Slot -> Net) (item : WebInspiration) :
  onlyChecks (snd (checkLiveness P net item)).
Proof.
  pose proof (checkUrlAlive_onlyChecks P (net PreviewCheck) (previewUrl item)) as C1.
  pose proof (checkUrlAlive_onlyChecks P (net PageCheck) (uri item)) as C2.
  pose proof (checkUrlAlive_onlyChecks P (net SnapshotCheck) (snapshotUrl P (uri item)))
    as C3.
  destruct (checkUrlAlive P (net PreviewCheck) (previewUrl item)) as [[r1|m1] t1] eqn:H1;
    [|pose proof (checkUrlAlive_total P (net PreviewCheck) (previewUrl item))
        as (? & ? & E); congruence].
  destruct (checkUrlAlive P (net PageCheck) (uri item)) as [[r2|m2] t2] eqn:H2;
    [|pose proof (checkUrlAlive_total P (net PageCheck) (uri item))
        as (? & ? & E); congruence].
  destruct (checkUrlAlive P (net SnapshotCheck) (snapshotUrl P (uri item)))
    as [[r3|m3] t3] eqn:H3;
    [|pose proof (checkUrlAlive_total P (net SnapshotCheck) (snapshotUrl P (uri item)))
        as (? & ? & E); congruence].
  rewrite (checkLiveness_eq P net item _ _ _ _ _ _ H1 H2 H3). cbn [snd] in *.
  unfold onlyChecks.
  destruct (pageNeeded item r1); destruct (snapshotNeeded P item r1 r2);
    repeat (apply Forall_app; split); try assumption; constructor.
Qed.

Lemma mapM_from_onlyChecks {A B} (f : nat -> A -> M B) (l : list A) (i : nat) :
  (forall j x, onlyChecks (snd (f j x))) -> onlyChecks (snd (mapM_from f i l)).
Proof.
  intros Hf. revert i. induction l as [|x l IH]; intros i; cbn [mapM_from];
    [constructor|].
  specialize (Hf i x). specialize (IH (S i)).
  destruct (f i x) as [[y|m] t]; cbn [bind snd] in *; [|exact Hf].
  destruct (mapM_from f (S i) l) as [[ys|m] t']; cbn [bind ret snd] in *;
    unfold onlyChecks; rewrite ?app_nil_r; apply Forall_app; split; assumption.
Qed.

Lemma validateGrounded_onlyChecks (P : Platform) (W : World) (tms : list string)
    (i : nat) (item : WebInspiration) :
  onlyChecks (snd (validateGrounded P W tms i item)).
Proof.
  pose proof (checkLiveness_onlyChecks P (netAt W i) item) as H.
  unfold validateGrounded.
  destruct (checkLiveness P (netAt W i) item) as [[lv|m] t]; cbn in *;
    rewrite ?app_nil_r; exact H.
Qed.

Lemma validateFallback_onlyChecks (P : Platform) (W : World) (i : nat) (it : Scored) :
  onlyChecks (snd (validateFallback P W i it)).
Proof.
  pose proof (checkLiveness_onlyChecks P (netAt W i) (s_item it)) as H.
  unfold validateFallback.
  destruct (checkLiveness P (netAt W i) (s_item it)) as [[lv|m] t]; cbn in *;
    rewrite ?app_nil_r; exact H.
Qed.

Lemma groundedPath_onlyChecks (P : Platform) (W : World) (tags : list string)
    (chunks : list GroundingChunk) (count : Z) :
  onlyChecks (snd (groundedPath P W tags chunks count)).
Proof.
  pose proof (mapM_from_onlyChecks (validateGrounded P W (map Js.toLowerCase tags))
                (rawCandidates P chunks) 0
                (validateGrounded_onlyChecks P W (map Js.toLowerCase tags))) as H.
  unfold groundedPath.
  destruct (mapM_from _ 0 (rawCandidates P chunks)) as [[vs|m] t]; cbn in *;
    rewrite ?app_nil_r; exact H.
Qed.

Lemma fallbackPath_trace (P : Platform) (W : World) (tags : list string) (count : Z) :
  apiInitialized W = true ->
  exists checks,
    snd (fallbackPath P W tags count) = EvFallbackSearch :: checks /\ onlyChecks checks.
Proof.
  intros Hi. unfold fallbackPath, fallbackBody, getAI. rewrite Hi.
  destruct (fallbackReply W) as [reply|msg]; [|exists []; split; [reflexivity | constructor]].
  cbn [bind emit ret app].
  destruct (parseFallback P W (Js.trim reply) count) as [[|e elems]|];
    try (exists []; split; [reflexivity | constructor]).
  pose proof (mapItems_trace P (e :: elems)) as Ht.
  destruct (mapItems P (e :: elems)) as [[items|msg] ti]; cbn [snd] in Ht; subst ti;
    [|exists []; split; [reflexivity | constructor]].
  cbn [bind app].
  pose proof (mapM_from_onlyChecks (validateFallback P W)
                (harvest P (Js.trim reply) count (fallbackCandidates P tags items)) 0
                (validateFallback_onlyChecks P W)) as H.
  destruct (mapM_from (validateFallback P W) 0 _) as [[vs|m] t]; cbn in *;
    rewrite ?app_nil_r; eexists; (split; [reflexivity | exact H]).
Qed.

Lemma searchStages_trace (P : Platform) (W : World) (tags : list string) (count : Z) :
  apiInitialized W = true ->
  exists checks,
    onlyChecks checks /\
    (snd (searchStages P W tags count) = EvGroundedSearch :: checks \/
     (groundedReply W = Ok [] /\
      snd (searchStages P W tags count) = EvGroundedSearch :: EvFallbackSearch :: checks)).
Proof.
  intros Hi. unfold searchStages, getAI. rewrite Hi.
  destruct (groundedReply W) as [[|c cs]|msg] eqn:Eg; cbn [bind emit ret app].
  - destruct (fallbackPath_trace P W tags count Hi) as (checks & E & Hc).
    exists checks. split; [exact Hc|]. right. split; [reflexivity|].
    destruct (fallbackPath P W tags count) as [r t]. cbn in *. now subst.
  - pose proof (groundedPath_onlyChecks P W tags (c :: cs) count) as H.
    destruct (groundedPath P W tags (c :: cs) count) as [r t]. cbn in *.
    exists t. split; [exact H | now left].
  - exists []. split; [constructor | now left].
Qed.

Ltac stage_done :=
  repeat split; try tauto; try assumption; try apply Forall_nil;
  try (intuition discriminate).

(** X15.  The stages run in one fixed order.  The trace of an invocation is
    the calls to the collaborators followed by liveness checks only; the
    calls are the synthesis, then the stock-photo request if a key is
    configured, then the grounded search, then the fallback call, each
    present only if the one before it is; the fallback call is made only
    when the grounded search returned no chunk; and no liveness check is
    made unless the grounded search was called. *)
Theorem stages_in_order (P : Platform) (W : World) (count : Z) :
  exists px stages checks,
    snd (findWebInspiration P W count) = (stages ++ checks)%list /\
    In stages (stageSequences px) /\
    onlyChecks checks /\
    (In (EvPexels px) stages -> Js.truthy (getPexelsKey P) = true) /\
    (In EvFallbackSearch stages -> groundedReply W = Ok []) /\
    (~ In EvGroundedSearch stages -> checks = []).
Proof.
  assert (Hsnd : snd (findWebInspiration P W count) = snd (findBody P W count)).
  { unfold findWebInspiration.
    destruct (findBody P W count) as [[l|msg] t]; cbn; now rewrite ?app_nil_r. }
  rewrite Hsnd. clear Hsnd.
  destruct (apiInitialized W) eqn:Hi.
  2:{ exists "", [], []. unfold findBody, getAI. rewrite Hi. cbn.
      stage_done. }
  destruct (synthesisReply W) as [text|msg] eqn:Hs.
  2:{ exists "", [EvSynthesis], []. unfold findBody, getAI. rewrite Hi, Hs. cbn.
      stage_done. }
  rewrite (findBody_eq P W count text Hi Hs).
  destruct (searchStages_trace P W (attributeTags (parseIntent text)) count Hi)
    as (checks & Hc & Hsearch).
  set (px := pexelsRequestUrl P (pexQueryOf (parseIntent text)) count).
  destruct (Js.truthy (getPexelsKey P)) eqn:Hk.
  - rewrite (stockStage_key P W _ count Hk). fold px.
    cbn [bind emit app].
    destruct (match stockItems P W (parseIntent text) count with
              | [] => None
              | i :: items0 => _
              end) as [l|].
    + exists px, [EvSynthesis; EvPexels px], []. cbn.
      stage_done.
    + destruct (searchStages P W _ count) as [r t]. cbn [snd fst] in *.
      destruct Hsearch as [-> | [Eg ->]].
      * exists px, [EvSynthesis; EvPexels px; EvGroundedSearch], checks. cbn. stage_done.
      * exists px, [EvSynthesis; EvPexels px; EvGroundedSearch; EvFallbackSearch], checks.
        cbn. stage_done.
  - rewrite (stockStage_nokey P W _ count Hk). cbn [bind emit app].
    destruct (searchStages P W _ count) as [r t]. cbn [snd fst] in *.
    destruct Hsearch as [-> | [Eg ->]].
    + exists px, [EvSynthesis; EvGroundedSearch], checks. cbn.
      stage_done.
    + exists px, [EvSynthesis; EvGroundedSearch; EvFallbackSearch], checks. cbn.
      stage_done.
Qed.

Lemma stages_in_order_witness :
  exists px stages checks,
    snd (findWebInspiration (Examples.platform "" "") Examples.twoCited 3)
    = (stages ++ checks)%list /\
    In stages (stageSequences px) /\
    onlyChecks checks /\
    (In (EvPexels px) stages -> Js.truthy (getPexelsKey (Examples.platform "" "")) = true) /\
    (In EvFallbackSearch stages -> groundedReply Examples.twoCited = Ok []) /\
    (~ In EvGroundedSearch stages -> checks = []).
Proof.
  exact (stages_in_order (Examples.platform "" "") Examples.twoCited 3).
Defined.

(** ** The search intent *)

Lemma add_missing_spec (extra base : list string) :
  let result :=
    fold_left
      (fun ms tag => if Js.arr_includes ms tag then ms else (ms ++ [tag])%list)
      extra base in
  (exists added, result = (base ++ added)%list /\ incl added extra) /\
  (forall tag, In tag extra -> In tag result).
Proof.
  cbn zeta. revert base. induction extra as [|tag extra IH]; intros base; cbn [fold_left].
  - split; [exists []; rewrite app_nil_r; split; [reflexivity | intros x []]|intros t []].
  - destruct (Js.arr_includes base tag) eqn:E.
    + destruct (IH base) as [(added & Ea & Hi) Hall]. split.
      * exists added. split; [exact Ea | intros x Hx; right; now apply Hi].
      * intros t [<-|Ht]; [|now apply Hall].
        rewrite Ea. apply in_or_app. left. now apply arr_includes_In.
    + destruct (IH (base ++ [tag])%list) as [(added & Ea & Hi) Hall]. split.
      * exists (tag :: added). rewrite Ea, <- app_assoc. split; [reflexivity|].
        intros x [<-|Hx]; [now left | right; now apply Hi].
      * intros t [<-|Ht]; [|now apply Hall].
        rewrite Ea. apply in_or_app. left. apply in_or_app. right. now left.
Qed.

Lemma commaList_truthy (line : string) :
  Forall (fun s => Js.truthy s = true) (commaList line).
Proof.
  apply Forall_forall. intros s Hs. unfold commaList in Hs. now apply filter_In in Hs.
Qed.

Lemma add_missing_closed (extra base : list string) :
  NoDup extra ->
  fold_left
    (fun ms tag => if Js.arr_includes ms tag then ms else (ms ++ [tag])%list)
    extra base
  = (base ++ filter (fun tag => negb (Js.arr_includes base tag)) extra)%list.
Proof.
  intros Hn. revert base.
  induction Hn as [|tag extra Hnot _ IH]; intros base; cbn [fold_left filter].
  - now rewrite app_nil_r.
  - destruct (Js.arr_includes base tag) eqn:E; cbn [negb]; [apply IH|].
    rewrite IH, <- app_assoc. cbn [app]. do 2 f_equal.
    apply filter_ext_in. intros x Hx. f_equal.
    unfold Js.arr_includes. rewrite existsb_app. cbn [existsb].
    destruct (String.eqb x tag) eqn:Ex; [|now rewrite !orb_false_r].
    apply String.eqb_eq in Ex. subst. contradiction.
Qed.

Lemma extraTags_NoDup : NoDup extraTags.
Proof.
  unfold extraTags.
  repeat (constructor; [cbn [In]; intuition discriminate|]). constructor.
Qed.

(** X16.  Whatever the description is, the modifiers of the search intent
    are the modifiers read from its second line, or the three default ones
    when it has none, followed by the supplemental tags that are not among
    them already, in the order of the supplemental list.  So every
    supplemental tag is a modifier, and neither the modifiers nor the tags
    hold an empty string. *)
Theorem parseIntent_modifiers (text : string) :
  modifiers (parseIntent text)
  = (modifiersRead text
     ++ filter (fun tag => negb (Js.arr_includes (modifiersRead text) tag)) extraTags)%list /\
  (forall tag, In tag extraTags -> In tag (modifiers (parseIntent text))) /\
  Forall (fun s => Js.truthy s = true) (modifiers (parseIntent text)) /\
  Forall (fun s => Js.truthy s = true) (attributeTags (parseIntent text)).
Proof.
  unfold parseIntent. cbn [modifiers attributeTags].
  fold (descriptionLine 1 text). fold (descriptionLine 2 text). fold (modifiersRead text).
  assert (Hb : Forall (fun s => Js.truthy s = true) (modifiersRead text)).
  { unfold modifiersRead. destruct (Js.truthy (descriptionLine 1 text));
      [apply commaList_truthy | repeat constructor]. }
  destruct (add_missing_spec extraTags (modifiersRead text)) as [(added & Ea & Hi) Hall].
  cbn zeta in Ea, Hall.
  split; [apply add_missing_closed, extraTags_NoDup|].
  split; [exact Hall|]. split.
  - rewrite Ea. apply Forall_app. split; [exact Hb|].
    apply Forall_forall. intros s Hs. apply Hi in Hs.
    assert (He : Forall (fun s => Js.truthy s = true) extraTags) by repeat constructor.
    rewrite Forall_forall in He. now apply He.
  - destruct (Js.truthy (descriptionLine 2 text)); [apply commaList_truthy | constructor].
Qed.

Lemma parseIntent_modifiers_witness :
  modifiers (parseIntent Examples.description)
  = ["site:dezeen.com"; "high-resolution"; "modern"; "minimalist"; "concrete";
     "residential"; "exterior"; "facade"; "architecture"; "real photo"].
Proof.
  rewrite (proj1 (parseIntent_modifiers Examples.description)). reflexivity.
Defined.

Lemma trimEnd_idem (s : string) : Js.trimEnd (Js.trimEnd s) = Js.trimEnd s.
Proof.
  induction s as [|c s IH]; [reflexivity|].
  cbn [Js.trimEnd].
  destruct (Js.trimEnd s) as [|c' s'] eqn:E.
  - destruct (Js.isSpace c) eqn:Ec; [reflexivity|]. cbn [Js.trimEnd]. now rewrite Ec.
  - cbn [Js.trimEnd]. cbn [Js.trimEnd] in IH. rewrite IH. reflexivity.
Qed.

Lemma trimStart_head (s : string) :
  match Js.trimStart s with
  | EmptyString => True
  | String c _ => Js.isSpace c = false
  end.
Proof.
  induction s as [|c s IH]; cbn [Js.trimStart]; [exact I|].
  destruct (Js.isSpace c) eqn:E; [exact IH | exact E].
Qed.

Lemma trim_idem (s : string) : Js.trim (Js.trim s) = Js.trim s.
Proof.
  unfold Js.trim. pose proof (trimStart_head s) as H.
  destruct (Js.trimStart s) as [|c r]; [reflexivity|].
  assert (Hs : Js.trimStart (Js.trimEnd (String c r)) = Js.trimEnd (String c r)).
  { cbn [Js.trimEnd]. destruct (Js.trimEnd r); rewrite ?H; cbn [Js.trimStart];
      now rewrite H. }
  rewrite Hs. apply trimEnd_idem.
Qed.

Lemma split_without_separator (sep : ascii) (s cur : string) :
  ~ In sep (list_ascii_of_string s) -> Js.split_aux sep s cur = [cur ++ s].
Proof.
  revert cur. induction s as [|c s IH]; intros cur Hn; cbn [Js.split_aux].
  - f_equal. clear. induction cur as [|a cur IH]; cbn; [reflexivity | now rewrite <- IH].
  - cbn [list_ascii_of_string In] in Hn.
    destruct (Ascii.eqb c sep) eqn:E; [apply Ascii.eqb_eq in E; tauto|].
    rewrite IH by tauto. f_equal.
    clear. induction cur as [|a cur IH]; cbn; [reflexivity | now rewrite IH].
Qed.

(** X17.  A description of one line gives the default search: the query is
    the trimmed description, the modifiers are the three default ones
    followed by the supplemental tags, and there is no tag. *)
Theorem parseIntent_single_line (text : string) :
  ~ In "010"%char (list_ascii_of_string (Js.trim text)) ->
  parseIntent text
  = {| searchQuery := Js.trim text;
       modifiers := (defaultModifiers ++ extraTags)%list;
       attributeTags := [] |}.
Proof.
  intros Hn. unfold parseIntent, Js.split.
  rewrite (split_without_separator _ _ "" Hn). cbn [append map]. rewrite trim_idem.
  cbn [filter].
  destruct (Js.truthy (Js.trim text)) eqn:E; cbn [nth].
  - unfold Js.or_str. rewrite E. reflexivity.
  - unfold Js.or_str. cbn. reflexivity.
Qed.

Lemma parseIntent_single_line_witness :
  parseIntent "  brutalist concrete tower "
  = {| searchQuery := "brutalist concrete tower";
       modifiers := (defaultModifiers ++ extraTags)%list;
       attributeTags := [] |}.
Proof.
  apply (parseIntent_single_line "  brutalist concrete tower ").
  vm_compute. intuition discriminate.
Defined.

(** ** The verification proxy and the network *)

(** X18.  The proxy makes no request for a target it rejects, and for a
    target it accepts it makes the one HEAD request to that target, with a
    timeout of 4000 ms: its response depends on nothing else. *)
Theorem verify_server_requests (http http' : string -> Z -> VerifyServer.HeadAttempt)
    (q : VerifyServer.Query) :
  ((VerifyServer.truthy (VerifyServer.target q) = false \/
    (forall t, VerifyServer.target q = Some (VerifyServer.QString t) ->
               Re.test_http_prefix t = false)) ->
   VerifyServer.server http q = VerifyServer.server http' q) /\
  (forall t, VerifyServer.target q = Some (VerifyServer.QString t) ->
   http t 4000%Z = http' t 4000%Z ->
   VerifyServer.server http q = VerifyServer.server http' q).
Proof.
  unfold VerifyServer.server. split.
  - intros [H|H].
    + now rewrite H.
    + destruct (VerifyServer.truthy (VerifyServer.target q)); [|reflexivity].
      destruct (VerifyServer.target q) as [[t|l]|]; try reflexivity.
      now rewrite (H t eq_refl).
  - intros t Ht E. rewrite Ht.
    destruct (negb _); [reflexivity|].
    destruct (Re.test_http_prefix t); [|reflexivity].
    unfold VerifyServer.doHeadCheck. now rewrite E.
Qed.

Lemma verify_server_requests_witness :
  VerifyServer.server (fun _ _ => VerifyServer.HeadCompleted 200 "image/png")
    [("url", VerifyServer.QString "file:///etc/passwd")]
  = VerifyServer.server (fun _ _ => VerifyServer.HeadErrored)
      [("url", VerifyServer.QString "file:///etc/passwd")].
Proof.
  apply (proj1 (verify_server_requests
                  (fun _ _ => VerifyServer.HeadCompleted 200 "image/png")
                  (fun _ _ => VerifyServer.HeadErrored)
                  [("url", VerifyServer.QString "file:///etc/passwd")])).
  right. intros t E. injection E as <-. reflexivity.
Defined.

(** ** Attribute normalisation *)

Lemma normalizeValue_valid (validOptions : list string) (value : option Attributes.AttrValue) :
  incl (Attributes.normalizeValue validOptions value) validOptions.
Proof.
  intros x Hx. unfold Attributes.normalizeValue in Hx.
  destruct value as [[l|s|]|]; try contradiction.
  - apply filter_In in Hx as [_ Hx]. now apply arr_includes_In.
  - destruct (Js.arr_includes validOptions s) eqn:E; [|contradiction].
    destruct Hx as [<-|[]]. now apply arr_includes_In.
Qed.

Lemma normalizeAttributes_object (nullRead : string -> string)
    (attributeOptions : Attributes.Options) (fields : list (string * Attributes.AttrValue)) :
  Attributes.normalizeAttributes nullRead attributeOptions (Attributes.DataObject fields)
  = Ok (map (fun o => (fst o,
                       Attributes.normalizeValue (snd o) (Attributes.lookup fields (fst o))))
          attributeOptions).
Proof.
  induction attributeOptions as [|[c opts] rest IH]; cbn [Attributes.normalizeAttributes map];
    [reflexivity|].
  now rewrite IH.
Qed.

Lemma normalizeAttributes_valid (nullRead : string -> string)
    (attributeOptions : Attributes.Options)
    (data : Attributes.JsData) (r : Attributes.DetectedAttributes) :
  Attributes.normalizeAttributes nullRead attributeOptions data = Ok r ->
  validFor attributeOptions r.
Proof.
  destruct data as [|fields].
  - destruct attributeOptions as [|[c opts] rest]; cbn; [|discriminate].
    intros H. injection H as <-. constructor.
  - rewrite normalizeAttributes_object. intros H. injection H as <-.
    unfold validFor. induction attributeOptions as [|o rest IH]; cbn [map]; constructor.
    + split; [reflexivity | apply normalizeValue_valid].
    + exact IH.
Qed.

(** X19.  Whatever the model answered, the attributes [normalizeAttributes]
    returns have every category of the table, in its order, and only valid
    options of each category; it returns for every value but [null]. *)
Theorem normalizeAttributes_sound (nullRead : string -> string)
    (attributeOptions : Attributes.Options) (data : Attributes.JsData) :
  (forall r, Attributes.normalizeAttributes nullRead attributeOptions data = Ok r ->
             validFor attributeOptions r) /\
  (forall fields, data = Attributes.DataObject fields ->
                  exists r, Attributes.normalizeAttributes nullRead attributeOptions data = Ok r).
Proof.
  split.
  - intros r. apply normalizeAttributes_valid.
  - intros fields ->. rewrite normalizeAttributes_object. eauto.
Qed.

Lemma normalizeAttributes_sound_witness :
  validFor [("time", ["Day"; "Night"]); ("sky", ["Cloudy"])]
    [("time", ["Night"]); ("sky", [])].
Proof.
  apply (proj1 (normalizeAttributes_sound Examples.nullRead
                  [("time", ["Day"; "Night"]); ("sky", ["Cloudy"])]
                  (Attributes.DataObject
                     [("time", Attributes.AvStrings ["Noon"; "Night"]);
                      ("sky", Attributes.AvString "Red")]))).
  reflexivity.
Defined.

Lemma lookup_asData (attributes : Attributes.DetectedAttributes) (c : string)
    (vals : list string) :
  NoDup (map fst attributes) -> In (c, vals) attributes ->
  Attributes.lookup (map (fun kv => (fst kv, Attributes.AvStrings (snd kv))) attributes) c
  = Some (Attributes.AvStrings vals).
Proof.
  induction attributes as [|[k v] rest IH]; cbn [map fst snd Attributes.lookup];
    [intros _ []|].
  intros Hn [E|Hin].
  - injection E as -> ->. now rewrite String.eqb_refl.
  - inversion Hn as [|? ? Hk Hrest]; subst.
    destruct (String.eqb c k) eqn:E.
    + apply String.eqb_eq in E. subst. elim Hk.
      change k with (fst (k, vals)). now apply in_map.
    + now apply IH.
Qed.

Lemma filter_idem {A} (p : A -> bool) (l : list A) : filter p (filter p l) = filter p l.
Proof.
  apply filter_all. apply Forall_forall. intros x Hx. now apply filter_In in Hx.
Qed.

Lemma normalizeValue_idem (validOptions : list string) (value : option Attributes.AttrValue) :
  Attributes.normalizeValue validOptions
    (Some (Attributes.AvStrings (Attributes.normalizeValue validOptions value)))
  = Attributes.normalizeValue validOptions value.
Proof.
  destruct value as [[l|s|]|]; cbn [Attributes.normalizeValue]; try reflexivity.
  - apply filter_idem.
  - destruct (Js.arr_includes validOptions s) eqn:E; [|reflexivity].
    cbn [filter]. now rewrite E.
Qed.

(** X20.  Normalising is idempotent: for a table whose categories are
    distinct, the attributes returned for an object, read back as data, are
    returned unchanged. *)
Theorem normalizeAttributes_idempotent (nullRead : string -> string)
    (attributeOptions : Attributes.Options)
    (fields : list (string * Attributes.AttrValue)) (r : Attributes.DetectedAttributes) :
  NoDup (map fst attributeOptions) ->
  Attributes.normalizeAttributes nullRead attributeOptions (Attributes.DataObject fields)
  = Ok r ->
  Attributes.normalizeAttributes nullRead attributeOptions (Attributes.asData r) = Ok r.
Proof.
  intros Hn H. rewrite normalizeAttributes_object in H. injection H as <-.
  unfold Attributes.asData. rewrite normalizeAttributes_object.
  set (r := map (fun o => (fst o,
                           Attributes.normalizeValue (snd o)
                             (Attributes.lookup fields (fst o))))
              attributeOptions).
  assert (Hk : map fst r = map fst attributeOptions).
  { unfold r. rewrite map_map. reflexivity. }
  assert (Hnr : NoDup (map fst r)) by now rewrite Hk.
  unfold r at 2. apply f_equal, map_ext_in. intros [c opts] Hin. cbn [fst snd]. f_equal.
  rewrite (lookup_asData r c
             (Attributes.normalizeValue opts (Attributes.lookup fields c)) Hnr).
  - apply normalizeValue_idem.
  - unfold r. apply in_map_iff. exists (c, opts). split; [reflexivity | exact Hin].
Qed.

Lemma normalizeAttributes_idempotent_witness :
  Attributes.normalizeAttributes Examples.nullRead
    [("time", ["Day"; "Night"]); ("sky", ["Cloudy"])]
    (Attributes.asData [("time", ["Night"]); ("sky", [])])
  = Ok [("time", ["Night"]); ("sky", [])].
Proof.
  apply (normalizeAttributes_idempotent Examples.nullRead
           [("time", ["Day"; "Night"]); ("sky", ["Cloudy"])]
           [("time", Attributes.AvStrings ["Noon"; "Night"]);
            ("sky", Attributes.AvString "Red")]).
  - repeat constructor; cbn; intuition discriminate.
  - reflexivity.
Defined.

(** X21.  [analyzeImageWithGemini] either returns attributes that are valid
    for the table, or throws.  What it throws is the message of the error
    caught, after ["Failed to analyze image: "], or, when the call was
    rejected with a value that is not an [Error], the fixed message
    "An unknown error occurred while analyzing the image.".  It throws in
    particular when the answer is the JSON [null]: the message is then the
    prefix followed by the message of the engine's [TypeError] for the
    first category of the table. *)
Theorem analyzeImageWithGemini_outcomes (nullRead : string -> string)
    (attributeOptions : Attributes.Options) (W : Attributes.AnalysisWorld) :
  (forall r, Attributes.analyzeImageWithGemini nullRead attributeOptions W = Ok r ->
             validFor attributeOptions r /\ Attributes.clientInitialized W = true) /\
  (forall m, Attributes.analyzeImageWithGemini nullRead attributeOptions W = Throw m ->
             (exists cause, m = "Failed to analyze image: " ++ cause) \/
             (m = "An unknown error occurred while analyzing the image." /\
              Attributes.clientInitialized W = true /\
              Attributes.analysisReply W = RejectedOther)) /\
  (forall text category validOptions rest,
     attributeOptions = (category, validOptions) :: rest ->
     Attributes.clientInitialized W = true ->
     Attributes.analysisReply W = Fulfilled text ->
     Attributes.parseData W text = Ok Attributes.DataNull ->
     Attributes.analyzeImageWithGemini nullRead attributeOptions W
     = Throw ("Failed to analyze image: " ++ nullRead category)).
Proof.
  unfold Attributes.analyzeImageWithGemini, Attributes.analyzeBody.
  split; [|split].
  - intros r.
    destruct (Attributes.clientInitialized W); cbn [negb]; [|discriminate].
    destruct (Attributes.analysisReply W) as [text|msg|]; try discriminate.
    destruct (Attributes.parseData W text) as [data|msg]; [|discriminate].
    destruct (Attributes.normalizeAttributes nullRead attributeOptions data) as [r'|msg] eqn:E;
      [|discriminate].
    intros H. injection H as <-. split; [|reflexivity].
    exact (normalizeAttributes_valid nullRead attributeOptions data r' E).
  - intros m.
    destruct (Attributes.clientInitialized W); cbn [negb];
      [|intros H; injection H as <-; left; eexists; reflexivity].
    destruct (Attributes.analysisReply W) as [text|msg|];
      [|intros H; injection H as <-; left; eexists; reflexivity
       |intros H; injection H as <-; right; repeat split].
    destruct (Attributes.parseData W text) as [data|msg];
      [|intros H; injection H as <-; left; eexists; reflexivity].
    destruct (Attributes.normalizeAttributes nullRead attributeOptions data) as [r'|msg];
      [discriminate | intros H; injection H as <-; left; eexists; reflexivity].
  - intros text category validOptions rest -> Hi Hr Hp. rewrite Hi, Hr, Hp. reflexivity.
Qed.

Lemma analyzeImageWithGemini_outcomes_witness :
  validFor Samples.timeAndSky [("time", ["Night"]); ("sky", [])] /\
  Attributes.analyzeImageWithGemini Examples.nullRead Samples.timeAndSky Samples.nullAnswer
  = Throw "Failed to analyze image: Cannot read properties of null (reading 'time')".
Proof.
  split.
  - apply (proj1 (analyzeImageWithGemini_outcomes Examples.nullRead Samples.timeAndSky
                    Samples.looseAnswer)
             [("time", ["Night"]); ("sky", [])]).
    reflexivity.
  - apply (proj2 (proj2 (analyzeImageWithGemini_outcomes Examples.nullRead
                           Samples.timeAndSky Samples.nullAnswer))
             "null" "time" ["Day"; "Night"] [("sky", ["Cloudy"])]); reflexivity.
Defined.

(** ** Generated inspirations *)

Lemma concepts_nth (undefinedRead : string -> string) (label : string) (k i : nat)
    (images : list Generator.GeneratedImage) (l : list WebInspiration) (x : WebInspiration) :
  Generator.concepts undefinedRead label k images = Ok l ->
  nth_error l i = Some x ->
  exists imageBytes,
    nth_error images i = Some (Generator.ImageOf imageBytes) /\
    uri x = "data:image/jpeg;base64," ++ Generator.bytesText imageBytes /\
    title x = label ++ dec (Z.of_nat (k + i) + 1) /\
    source x = "AI Generated".
Proof.
  revert k i l. induction images as [|[|b] images IH]; intros k i l;
    cbn [Generator.concepts].
  - intros H. injection H as <-. destruct i; discriminate.
  - discriminate.
  - destruct (Generator.concepts undefinedRead label (S k) images) as [l'|msg] eqn:E;
      [|discriminate].
    intros H. injection H as <-.
    destruct i as [|i]; cbn [nth_error].
    + intros H. injection H as <-. exists b. rewrite Nat.add_0_r. repeat split.
    + intros H. destruct (IH (S k) i l' E H) as (b' & Hb & Hu & Ht & Hs).
      exists b'. repeat split; try assumption.
      rewrite Ht. replace (S k + i)%nat with (k + S i)%nat by lia. reflexivity.
Qed.

Lemma concepts_length (undefinedRead : string -> string) (label : string) (k : nat)
    (images : list Generator.GeneratedImage) (l : list WebInspiration) :
  Generator.concepts undefinedRead label k images = Ok l ->
  List.length l = List.length images.
Proof.
  revert k l. induction images as [|[|b] images IH]; intros k l; cbn [Generator.concepts].
  - intros H. now injection H as <-.
  - discriminate.
  - destruct (Generator.concepts undefinedRead label (S k) images) as [l'|msg] eqn:E;
      [|discriminate].
    intros H. injection H as <-. cbn [List.length]. f_equal. now apply (IH (S k)).
Qed.

(** X22.  When [generateInspirationsWithGemini] returns, it returns one
    entry for each generated image, in order, never none and whatever
    [count] was asked: the entry of the image at index [i] holds the bytes
    of the image as a JPEG data URL and is titled "AI Generated Concept"
    with the number [i + 1].  When it throws, the message is that of the
    error caught, after ["Failed to generate inspirations: "], or, when a
    call was rejected with a value that is not an [Error], the fixed
    message "An unknown error occurred while generating inspirations.".
    An image without its [image] part makes it throw the engine's
    [TypeError], wrapped in the same way. *)
Theorem generateInspirations_outcomes (undefinedRead : string -> string)
    (W : Generator.GeneratorWorld) (count : Z) :
  (forall l, Generator.generateInspirationsWithGemini undefinedRead W count = Ok l ->
     exists images,
       Generator.imagesReply W = Fulfilled images /\
       List.length l = List.length images /\ l <> [] /\
       forall i x, nth_error l i = Some x ->
         exists imageBytes,
           nth_error images i = Some (Generator.ImageOf imageBytes) /\
           uri x = "data:image/jpeg;base64," ++ Generator.bytesText imageBytes /\
           title x = "AI Generated Concept " ++ dec (Z.of_nat i + 1) /\
           source x = "AI Generated") /\
  (forall m, Generator.generateInspirationsWithGemini undefinedRead W count = Throw m ->
     (exists cause, m = "Failed to generate inspirations: " ++ cause) \/
     (m = "An unknown error occurred while generating inspirations." /\
      (Generator.descriptionReply W = RejectedOther \/
       Generator.imagesReply W = RejectedOther))) /\
  (forall prompt images,
     Generator.generatorInitialized W = true ->
     Generator.descriptionReply W = Fulfilled prompt -> Js.truthy prompt = true ->
     Generator.imagesReply W = Fulfilled images ->
     In Generator.ImageMissing images ->
     Generator.generateInspirationsWithGemini undefinedRead W count
     = Throw ("Failed to generate inspirations: " ++ undefinedRead "imageBytes")).
Proof.
  unfold Generator.generateInspirationsWithGemini, Generator.generateBody.
  split; [|split].
  - intros l.
    destruct (Generator.generatorInitialized W); cbn [negb]; [|discriminate].
    destruct (Generator.descriptionReply W) as [p|msg|]; try discriminate.
    destruct (Js.truthy p); cbn [negb]; [|discriminate].
    destruct (Generator.imagesReply W) as [images|msg|]; try discriminate.
    destruct (List.length images =? 0)%nat eqn:E; [discriminate|].
    destruct (Generator.concepts undefinedRead "AI Generated Concept " 0 images)
      as [l'|msg] eqn:Ec; [|discriminate].
    intros H. injection H as <-.
    exists images. split; [reflexivity|].
    pose proof (concepts_length _ _ _ _ _ Ec) as Hlen.
    split; [exact Hlen|]. split.
    + intros Hnil. rewrite Hnil in Hlen. cbn in Hlen. rewrite <- Hlen in E. discriminate.
    + intros i x Hx. exact (concepts_nth _ _ 0 i _ _ x Ec Hx).
  - intros m.
    destruct (Generator.generatorInitialized W); cbn [negb];
      [|intros H; injection H as <-; left; eexists; reflexivity].
    destruct (Generator.descriptionReply W) as [p|msg|];
      [|intros H; injection H as <-; left; eexists; reflexivity
       |intros H; injection H as <-; right; split; [reflexivity | now left]].
    destruct (Js.truthy p); cbn [negb];
      [|intros H; injection H as <-; left; eexists; reflexivity].
    destruct (Generator.imagesReply W) as [images|msg|];
      [|intros H; injection H as <-; left; eexists; reflexivity
       |intros H; injection H as <-; right; split; [reflexivity | now right]].
    destruct (List.length images =? 0)%nat;
      [intros H; injection H as <-; left; eexists; reflexivity|].
    destruct (Generator.concepts undefinedRead "AI Generated Concept " 0 images);
      [discriminate | intros H; injection H as <-; left; eexists; reflexivity].
  - intros prompt images Hi Hd Hp Him Hin. rewrite Hi, Hd, Hp, Him. cbn [negb].
    destruct images as [|x images]; [contradiction|]. cbn [List.length Nat.eqb].
    assert (E : forall k l, In Generator.ImageMissing l ->
                  Generator.concepts undefinedRead "AI Generated Concept " k l
                  = Throw (undefinedRead "imageBytes")).
    { clear. intros k l. revert k. induction l as [|[|b] l IH]; intros k Hin;
        cbn [Generator.concepts]; [contradiction | reflexivity|].
      destruct Hin as [Hx|Hin]; [discriminate|]. now rewrite IH. }
    now rewrite E.
Qed.

Lemma generateInspirations_outcomes_witness :
  (exists images,
     Generator.imagesReply Samples.twoImages = Fulfilled images /\
     List.length Samples.twoConcepts = List.length images /\
     Samples.twoConcepts <> [] /\
     forall i x, nth_error Samples.twoConcepts i = Some x ->
       exists imageBytes,
         nth_error images i = Some (Generator.ImageOf imageBytes) /\
         uri x = "data:image/jpeg;base64," ++ Generator.bytesText imageBytes /\
         title x = "AI Generated Concept " ++ dec (Z.of_nat i + 1) /\
         source x = "AI Generated") /\
  Generator.generateInspirationsWithGemini Examples.undefinedRead Samples.brokenImage 1
  = Throw "Failed to generate inspirations: Cannot read properties of undefined (reading 'imageBytes')".
Proof.
  split.
  - apply (proj1 (generateInspirations_outcomes Examples.undefinedRead
                    Samples.twoImages 1)).
    reflexivity.
  - apply (proj2 (proj2 (generateInspirations_outcomes Examples.undefinedRead
                           Samples.brokenImage 1))
             "a concrete tower" [Generator.ImageOf (Some "AAAA"); Generator.ImageMissing]);
      try reflexivity.
    right. left. reflexivity.
Defined.

(** ** The toast service *)

Lemma service_eta (s : Toasts.ToastService) :
  {| Toasts.toasts := Toasts.toasts s; Toasts.listeners := Toasts.listeners s |} = s.
Proof. now destruct s. Qed.

Lemma removeFirst_fresh (i : string) (l : list Toasts.Toast) :
  ~ In i (map Toasts.id l) -> Toasts.removeFirst i l = None.
Proof.
  induction l as [|t l IH]; cbn [Toasts.removeFirst map In]; [reflexivity|].
  intros H. destruct (String.eqb (Toasts.id t) i) eqn:E.
  - apply String.eqb_eq in E. tauto.
  - rewrite IH by tauto. reflexivity.
Qed.

Lemma removeFirst_last (i : string) (l : list Toasts.Toast) (t : Toasts.Toast) :
  ~ In i (map Toasts.id l) -> Toasts.id t = i ->
  Toasts.removeFirst i (l ++ [t])%list = Some l.
Proof.
  intros Hn Ht. induction l as [|x l IH]; cbn [app Toasts.removeFirst].
  - rewrite Ht, String.eqb_refl. reflexivity.
  - cbn [map In] in Hn. destruct (String.eqb (Toasts.id x) i) eqn:E.
    + apply String.eqb_eq in E. tauto.
    + rewrite IH by tauto. reflexivity.
Qed.

(** X23.  Showing a toast and removing it is a round trip.  For an id that
    no toast has yet and a toast that is not the suppressed one, [show]
    returns the id, puts the toast last and calls every listener once with
    the new list; [remove] of that id then gives back the service as it
    was, and calls every listener once with the old list. *)
Theorem show_then_remove (s : Toasts.ToastService) (newId : string)
    (type : Toasts.ToastType) (message : string) (timeout : Z) :
  ~ In newId (map Toasts.id (Toasts.toasts s)) ->
  Toasts.isError type && String.eqb message "Failed to save image to history" = false ->
  Toasts.returned (Toasts.show s newId type message timeout) = newId /\
  Toasts.toasts (Toasts.after (Toasts.show s newId type message timeout))
  = (Toasts.toasts s
     ++ [{| Toasts.id := newId; Toasts.type := type; Toasts.message := message |}])%list /\
  Toasts.notified (Toasts.show s newId type message timeout)
  = map (fun l => (l, (Toasts.toasts s
                       ++ [{| Toasts.id := newId; Toasts.type := type;
                              Toasts.message := message |}])%list))
      (Toasts.listeners s) /\
  Toasts.remove (Toasts.after (Toasts.show s newId type message timeout)) newId
  = (s, map (fun l => (l, Toasts.toasts s)) (Toasts.listeners s)).
Proof.
  intros Hfresh Hshown. unfold Toasts.show. rewrite Hshown.
  cbn [Toasts.returned Toasts.after Toasts.notified].
  repeat split.
  unfold Toasts.remove. cbn [Toasts.toasts Toasts.listeners].
  rewrite (removeFirst_last newId (Toasts.toasts s)
             {| Toasts.id := newId; Toasts.type := type; Toasts.message := message |}
             Hfresh eq_refl).
  unfold Toasts.emitAll. cbn [Toasts.toasts Toasts.listeners].
  now rewrite service_eta.
Qed.

Lemma show_then_remove_witness :
  Toasts.remove
    (Toasts.after
       (Toasts.show {| Toasts.toasts := []; Toasts.listeners := [7] |} "t1"
          Toasts.success "Saved image to history" 3000))
    "t1"
  = ({| Toasts.toasts := []; Toasts.listeners := [7] |}, [(7, [])]).
Proof.
  apply (show_then_remove {| Toasts.toasts := []; Toasts.listeners := [7] |} "t1"
           Toasts.success "Saved image to history" 3000).
  - intros [].
  - reflexivity.
Defined.

Lemma removeFirst_found (i : string) (l l' : list Toasts.Toast) :
  Toasts.removeFirst i l = Some l' ->
  exists before t rest,
    l = (before ++ t :: rest)%list /\ l' = (before ++ rest)%list /\
    Toasts.id t = i /\ ~ In i (map Toasts.id before).
Proof.
  revert l'. induction l as [|x l IH]; intros l'; cbn [Toasts.removeFirst]; [discriminate|].
  destruct (String.eqb (Toasts.id x) i) eqn:E.
  - intros H. injection H as <-. apply String.eqb_eq in E.
    exists [], x, l. repeat split; [exact E | intros []].
  - destruct (Toasts.removeFirst i l) as [r|]; [|discriminate].
    intros H. injection H as <-.
    destruct (IH r eq_refl) as (before & t & rest & -> & -> & Ht & Hn).
    exists (x :: before), t, rest. repeat split; [exact Ht|].
    cbn [map In]. intros [Hx|Hin]; [|tauto].
    rewrite Hx, String.eqb_refl in E. discriminate.
Qed.

(** X24.  [remove] takes out one toast, the first with the id, and leaves
    the others in order, calling every listener once with the new list;
    for an id that no toast has it changes nothing and calls nobody.  The
    error toast "Failed to save image to history" is never shown: [show]
    returns the empty id, changes nothing, calls nobody and schedules
    nothing. *)
Theorem remove_and_suppress (s : Toasts.ToastService) (i : string) (timeout : Z) :
  (~ In i (map Toasts.id (Toasts.toasts s)) -> Toasts.remove s i = (s, [])) /\
  (In i (map Toasts.id (Toasts.toasts s)) ->
   exists before t rest,
     Toasts.toasts s = (before ++ t :: rest)%list /\
     Toasts.id t = i /\ ~ In i (map Toasts.id before) /\
     Toasts.remove s i
     = ({| Toasts.toasts := (before ++ rest)%list; Toasts.listeners := Toasts.listeners s |},
        map (fun l => (l, (before ++ rest)%list)) (Toasts.listeners s))) /\
  Toasts.show s i Toasts.error "Failed to save image to history" timeout
  = {| Toasts.returned := ""; Toasts.after := s; Toasts.notified := [];
       Toasts.scheduled := None |}.
Proof.
  split; [|split; [|reflexivity]].
  - intros Hn. unfold Toasts.remove. now rewrite removeFirst_fresh.
  - intros Hin. unfold Toasts.remove.
    destruct (Toasts.removeFirst i (Toasts.toasts s)) as [l'|] eqn:E.
    + destruct (removeFirst_found i _ _ E) as (before & t & rest & E1 & -> & Ht & Hn).
      exists before, t, rest. repeat split; assumption.
    + exfalso. clear -Hin E.
      induction (Toasts.toasts s) as [|x l IH]; cbn [map In Toasts.removeFirst] in *;
        [contradiction|].
      destruct (String.eqb (Toasts.id x) i) eqn:Ex; [discriminate|].
      destruct (Toasts.removeFirst i l); [discriminate|].
      destruct Hin as [Hx|Hin]; [|now apply IH].
      rewrite Hx, String.eqb_refl in Ex. discriminate.
Qed.

Lemma remove_and_suppress_witness :
  (exists before t rest,
     Toasts.toasts Samples.threeToasts = (before ++ t :: rest)%list /\
     Toasts.id t = "b" /\ ~ In "b" (map Toasts.id before) /\
     Toasts.remove Samples.threeToasts "b"
     = ({| Toasts.toasts := (before ++ rest)%list;
           Toasts.listeners := Toasts.listeners Samples.threeToasts |},
        map (fun l => (l, (before ++ rest)%list)) (Toasts.listeners Samples.threeToasts))) /\
  Toasts.remove Samples.threeToasts "c" = (Samples.threeToasts, []).
Proof.
  split.
  - apply (proj1 (proj2 (remove_and_suppress Samples.threeToasts "b" 3000))).
    cbn. tauto.
  - apply (proj1 (remove_and_suppress Samples.threeToasts "c" 3000)).
    cbn. intuition discriminate.
Defined.

(** X25.  Subscribing calls the new listener at once with the current
    list, and the function it returns undoes it: for a listener that was
    not subscribed the service is as before; in any case the listener is
    subscribed no more, and the other listeners keep their order. *)
Theorem subscribe_then_unsubscribe (s : Toasts.ToastService) (fn : Toasts.Listener) :
  snd (Toasts.subscribe s fn) = [(fn, Toasts.toasts s)] /\
  ~ In fn (Toasts.listeners (Toasts.unsubscribe (fst (Toasts.subscribe s fn)) fn)) /\
  Toasts.listeners (Toasts.unsubscribe (fst (Toasts.subscribe s fn)) fn)
  = filter (fun l => negb (Nat.eqb l fn)) (Toasts.listeners s) /\
  (~ In fn (Toasts.listeners s) ->
   Toasts.unsubscribe (fst (Toasts.subscribe s fn)) fn = s).
Proof.
  unfold Toasts.subscribe, Toasts.unsubscribe. cbn [fst snd Toasts.toasts Toasts.listeners].
  assert (Hf : filter (fun l => negb (Nat.eqb l fn)) (Toasts.listeners s ++ [fn])%list
               = filter (fun l => negb (Nat.eqb l fn)) (Toasts.listeners s)).
  { rewrite filter_app. cbn [filter]. rewrite Nat.eqb_refl. cbn. apply app_nil_r. }
  rewrite Hf. split; [reflexivity|]. split; [|split; [reflexivity|]].
  - intros Hin. apply filter_In in Hin as [_ Hin]. rewrite Nat.eqb_refl in Hin. discriminate.
  - intros Hn. rewrite filter_all; [apply service_eta|].
    apply Forall_forall. intros l Hl.
    destruct (Nat.eqb l fn) eqn:E; [|reflexivity].
    apply Nat.eqb_eq in E. subst. contradiction.
Qed.

Lemma subscribe_then_unsubscribe_witness :
  Toasts.unsubscribe
    (fst (Toasts.subscribe {| Toasts.toasts := []; Toasts.listeners := [7] |} 9)) 9
  = {| Toasts.toasts := []; Toasts.listeners := [7] |}.
Proof.
  apply (proj2 (proj2 (proj2 (subscribe_then_unsubscribe
                                {| Toasts.toasts := []; Toasts.listeners := [7] |} 9)))).
  cbn. intuition discriminate.
Defined.

(** ** The caller in the application *)

Lemma findWebInspiration_length (P : Platform) (W : World) (count : Z)
    (l : list WebInspiration) :
  (0 <= count)%Z ->
  fst (findWebInspiration P W count) = Ok l ->
  (Z.of_nat (List.length l) <= count)%Z.
Proof.
  intros Hn H. apply findWebInspiration_returns in H.
  destruct H as (text & _ & _ & [(_ & _ & ->) | [(chunks & vs & t & _ & _ & _ & _ & ->) | (_ & Hf)]]).
  - now apply slice0_length.
  - now apply selectResults_length.
  - destruct Hf as [-> | (reply & elems & items & vs & t & _ & _ & _ & _ & _ & ->)].
    + cbn. lia.
    + now apply selectResults_length.
Qed.

Lemma handleError_no_gallery (v : App.View) (err : App.Caught) (d : string)
    (l : list WebInspiration) :
  ~ In (App.setInspirationImages l) (App.handleError v err d).
Proof.
  unfold App.handleError. destruct err; cbn; intuition discriminate.
Qed.

(** X26.  The gallery the search fills is never empty and never holds more
    than three inspirations: [handleFindInspiration] calls
    [setInspirationImages] only with the list [findWebInspiration]
    returned for a count of 3, when that list is not empty and the search
    was not aborted. *)
Theorem handleFindInspiration_gallery (v : App.View) (searching : string) (aborted : bool)
    (P : Platform) (W : World) (l : list WebInspiration) :
  In (App.setInspirationImages l) (App.handleFindInspiration v searching aborted P W) ->
  (1 <= List.length l <= 3)%nat /\
  fst (findWebInspiration P W 3) = Ok l /\
  aborted = false.
Proof.
  unfold App.handleFindInspiration.
  destruct (App.hasUploadedImage v); cbn [negb]; [|intros []].
  intros H. apply in_app_or in H as [H|H]; [cbn in H; intuition discriminate|].
  apply in_app_or in H as [H|H]; [|cbn in H; intuition discriminate].
  destruct (fst (findWebInspiration P W 3)) as [r|msg] eqn:E.
  - destruct aborted; [contradiction|].
    destruct (List.length r =? 0)%nat eqn:El; [cbn in H; intuition discriminate|].
    destruct H as [H|[H|[]]]; [|discriminate]. injection H as ->.
    apply Nat.eqb_neq in El.
    pose proof (findWebInspiration_length P W 3 l ltac:(lia) E).
    repeat split; lia.
  - now apply handleError_no_gallery in H.
Qed.

Lemma handleFindInspiration_gallery_witness :
  (1 <= List.length
          [{| uri := "https://www.pexels.com/photo/1"; title := "A tower";
              source := "pexels.com"; previewUrl := "https://images.pexels.com/1.jpeg";
              matchReason := None |};
           {| uri := "https://www.pexels.com/photo/2"; title := "A tower";
              source := "pexels.com"; previewUrl := "https://images.pexels.com/2.jpeg";
              matchReason := None |}] <= 3)%nat.
Proof.
  apply (handleFindInspiration_gallery
           {| App.hasUploadedImage := true; App.hasDetectedAttributes := false;
              App.hasInspirationImages := false; App.multiImageCount := 0 |}
           "Searching" false (Examples.platform "key" "") Examples.twoPhotos).
  vm_compute. tauto.
Defined.

Lemma finalStep_app (us us' : list App.Update) :
  finalStep (us ++ us')%list
  = match finalStep us' with
    | Some s => Some s
    | None => finalStep us
    end.
Proof.
  induction us as [|u us IH]; cbn [app finalStep].
  - now destruct (finalStep us').
  - rewrite IH. now destruct (finalStep us').
Qed.

(** X27.  With an image uploaded, [handleFindInspiration] always ends by
    clearing the loading flag; it leaves the step at [findingInspiration]
    exactly when the search returned and had been aborted, and otherwise
    ends on [choosePath], [showingInspiration] or [analyzed].  Without an
    image it does nothing. *)
Theorem handleFindInspiration_settles (v : App.View) (searching : string) (aborted : bool)
    (P : Platform) (W : World) :
  (App.hasUploadedImage v = false ->
   App.handleFindInspiration v searching aborted P W = []) /\
  (App.hasUploadedImage v = true ->
   (exists before,
      App.handleFindInspiration v searching aborted P W
      = (App.setAppStep App.findingInspiration :: before
         ++ [App.setIsLoading false])%list) /\
   (finalStep (App.handleFindInspiration v searching aborted P W)
    = Some App.findingInspiration <->
    aborted = true /\ exists l, fst (findWebInspiration P W 3) = Ok l) /\
   (finalStep (App.handleFindInspiration v searching aborted P W)
    = Some App.findingInspiration \/
    finalStep (App.handleFindInspiration v searching aborted P W)
    = Some App.choosePath \/
    finalStep (App.handleFindInspiration v searching aborted P W)
    = Some App.showingInspiration \/
    finalStep (App.handleFindInspiration v searching aborted P W)
    = Some App.analyzed)).
Proof.
  unfold App.handleFindInspiration. split; [intros ->; reflexivity|].
  intros Hu. rewrite Hu. cbn [negb].
  split; [eexists (_ :: _ :: _ :: _); cbn [app]; reflexivity|].
  rewrite !finalStep_app. cbn [finalStep].
  destruct (fst (findWebInspiration P W 3)) as [l|msg].
  - destruct aborted; cbn [finalStep].
    + split; [split; [intros _; split; [reflexivity | eauto] | reflexivity]|].
      left; reflexivity.
    + destruct (List.length l =? 0)%nat; cbn [finalStep];
        (split; [split; [discriminate | intros [H _]; discriminate]|]);
        auto.
  - unfold App.handleError. rewrite Hu. cbn [orb finalStep].
    destruct (App.hasDetectedAttributes v); destruct (App.hasInspirationImages v);
      cbn [finalStep];
      (split; [split; [discriminate | intros [_ [l H]]; discriminate]|]);
      auto.
Qed.

Lemma handleFindInspiration_settles_witness :
  App.hasUploadedImage Samples.imageOnly = true /\
  finalStep (App.handleFindInspiration Samples.imageOnly "Searching" true
               (Examples.platform "key" "") Examples.twoPhotos)
  = Some App.findingInspiration /\
  finalStep (App.handleFindInspiration Samples.imageOnly "Searching" false
               (Examples.platform "key" "") Examples.twoPhotos)
  <> Some App.findingInspiration.
Proof.
  split; [reflexivity|]. split.
  - apply (proj1 (proj2 (proj2 (handleFindInspiration_settles Samples.imageOnly
                                  "Searching" true (Examples.platform "key" "")
                                  Examples.twoPhotos) eq_refl))).
    split; [reflexivity|]. eexists. vm_compute. reflexivity.
  - intros H.
    apply (proj1 (proj2 (proj2 (handleFindInspiration_settles Samples.imageOnly
                                  "Searching" false (Examples.platform "key" "")
                                  Examples.twoPhotos) eq_refl))) in H.
    destruct H as [H _]. discriminate H.
Defined.

Lemma includes_after_prefix (msg p : string) :
  p = "429" \/ p = "RESOURCE_EXHAUSTED" ->
  Js.includes ("Failed to find inspiration: " ++ msg) p = Js.includes msg p.
Proof.
  intros [-> | ->];
    cbn [append];
    repeat (rewrite includes_unfold; cbn [prefix orb];
            match goal with
            | |- context [ascii_dec ?a ?b] =>
                destruct (ascii_dec a b) as [E|_]; [discriminate E|]
            end; cbn [orb]);
    reflexivity.
Qed.

(** X28.  A quota error of the search reaches the user as the quota
    message, any other error as it was thrown.  When the synthesis call is
    rejected with [msg], the handler sets the error to the quota message
    if [msg] contains [RESOURCE_EXHAUSTED] or [429], and to
    ["Failed to find inspiration: " ++ msg] if it does not; then it clears
    the loading flag and goes back to a step that fits what is loaded. *)
Theorem handleFindInspiration_quota (v : App.View) (searching : string) (aborted : bool)
    (P : Platform) (W : World) (msg : string) :
  App.hasUploadedImage v = true ->
  apiInitialized W = true ->
  synthesisReply W = Throw msg ->
  App.handleFindInspiration v searching aborted P W
  = [App.setAppStep App.findingInspiration; App.setIsLoading true;
     App.setLoadingMessage searching; App.setError None;
     App.setError
       (Some (if Js.includes msg "RESOURCE_EXHAUSTED" || Js.includes msg "429"
              then App.quotaMessage
              else "Failed to find inspiration: " ++ msg));
     App.setIsLoading false;
     App.setAppStep
       (if App.hasDetectedAttributes v then App.analyzed
        else if App.hasInspirationImages v then App.showingInspiration
        else App.choosePath);
     App.setIsLoading false].
Proof.
  intros Hu Hi Hs. unfold App.handleFindInspiration. rewrite Hu. cbn [negb].
  assert (E : fst (findWebInspiration P W 3)
              = Throw ("Failed to find inspiration: " ++ msg)).
  { unfold findWebInspiration, findBody, getAI. rewrite Hi, Hs. reflexivity. }
  rewrite E. unfold App.handleError. rewrite Hu.
  rewrite !includes_after_prefix by tauto.
  cbn [orb app]. reflexivity.
Qed.

Lemma handleFindInspiration_quota_witness :
  App.handleFindInspiration
    {| App.hasUploadedImage := true; App.hasDetectedAttributes := false;
       App.hasInspirationImages := false; App.multiImageCount := 0 |}
    "Searching" false (Examples.platform "" "")
    {| apiInitialized := true; synthesisReply := Throw "got status: 429 Too Many Requests";
       pexelsReply := fun _ => PexNotOk; groundedReply := Ok [];
       fallbackReply := Ok ""; JSON_parse := fun _ => None;
       netAt := Examples.jpegNet |}
  = [App.setAppStep App.findingInspiration; App.setIsLoading true;
     App.setLoadingMessage "Searching"; App.setError None;
     App.setError (Some App.quotaMessage);
     App.setIsLoading false;
     App.setAppStep App.choosePath;
     App.setIsLoading false].
Proof.
  apply (handleFindInspiration_quota
           {| App.hasUploadedImage := true; App.hasDetectedAttributes := false;
              App.hasInspirationImages := false; App.multiImageCount := 0 |}
           "Searching" false (Examples.platform "" "")
           {| apiInitialized := true;
              synthesisReply := Throw "got status: 429 Too Many Requests";
              pexelsReply := fun _ => PexNotOk; groundedReply := Ok [];
              fallbackReply := Ok ""; JSON_parse := fun _ => None;
              netAt := Examples.jpegNet |}
           "got status: 429 Too Many Requests"); reflexivity.
Defined.
